(** * jc URL string parser ([jc/parsers/url.py]): model and properties

    The parser is one pure function, [parse], built on Python's
    [urllib.parse] (CPython 3.11: [unwrap], [urlsplit], [urlunsplit],
    [quote], [quote_plus], [unquote], [unquote_plus], [parse_qs],
    [parse_qsl] and the [SplitResult] accessors).  Python strings are
    modelled as lists of Unicode code points, exceptions as an error
    result, and the returned [dict] as an association list in
    insertion order. *)

From Stdlib Require Import String Ascii.
From Stdlib Require Import List NArith ZArith Bool Lia Zify Arith.
Import ListNotations.

Set Implicit Arguments.

(** ** Python strings *)

(** A [str] is a sequence of code points; a [bytes] object is a sequence
    of numbers below 256. *)
Definition pystr := list N.
Definition pybytes := list N.

(** A string literal, character by character. *)
Definition py (s : string) : pystr :=
  map N_of_ascii (list_ascii_of_string s).

Abbreviation LT_SIGN := 60%N (only parsing).
Abbreviation GT_SIGN := 62%N (only parsing).
Abbreviation COLON := 58%N (only parsing).
Abbreviation SLASH := 47%N (only parsing).
Abbreviation QMARK := 63%N (only parsing).
Abbreviation HASH := 35%N (only parsing).
Abbreviation AT_SIGN := 64%N (only parsing).
Abbreviation LBRACKET := 91%N (only parsing).
Abbreviation RBRACKET := 93%N (only parsing).
Abbreviation PERCENT := 37%N (only parsing).
Abbreviation PLUS := 43%N (only parsing).
Abbreviation SPACE := 32%N (only parsing).
Abbreviation AMPERSAND := 38%N (only parsing).
Abbreviation EQUALS := 61%N (only parsing).
Abbreviation DOT := 46%N (only parsing).
Abbreviation TAB := 9%N (only parsing).
Abbreviation LF := 10%N (only parsing).
Abbreviation CR := 13%N (only parsing).

Module Str.

(** [a == b] on strings. *)
Fixpoint eqb (a b : pystr) : bool :=
  match a, b with
  | [], [] => true
  | x :: a', y :: b' => N.eqb x y && eqb a' b'
  | _, _ => false
  end.

(** [not s]: the empty string is falsy. *)
Definition null {A} (s : list A) : bool :=
  match s with [] => true | _ => false end.

(** [c in s] for a one-character [c]. *)
Definition mem (c : N) (s : pystr) : bool := existsb (N.eqb c) s.

(** [s.find(c)]: index of the first occurrence, [None] for Python's -1. *)
Fixpoint find (c : N) (s : pystr) : option nat :=
  match s with
  | [] => None
  | x :: s' => if N.eqb x c then Some O else option_map S (find c s')
  end.

(** [s.find(c, start)]. *)
Definition find_from (c : N) (start : nat) (s : pystr) : option nat :=
  option_map (Nat.add start) (find c (skipn start s)).

(** [s[i:j]] for non-negative [i], [j]. *)
Definition slice (i j : nat) (s : pystr) : pystr :=
  firstn (j - i) (skipn i s).

(** [s[-1:]]: the last character as a string, empty for the empty string. *)
Definition last1 (s : pystr) : pystr :=
  match rev s with [] => [] | x :: _ => [x] end.

(** [s.startswith(p)]. *)
Fixpoint startswith (p s : pystr) : bool :=
  match p, s with
  | [], _ => true
  | x :: p', y :: s' => N.eqb x y && startswith p' s'
  | _ :: _, [] => false
  end.

(** [s.partition(c)]: text before the first [c], whether [c] was found,
    text after it; [(s, false, "")] when [c] does not occur. *)
Fixpoint partition (c : N) (s : pystr) : pystr * bool * pystr :=
  match s with
  | [] => ([], false, [])
  | x :: s' =>
      if N.eqb x c then ([], true, s')
      else let '(a, f, b) := partition c s' in (x :: a, f, b)
  end.

(** [s.rpartition(c)]: split at the last [c]; [("", false, s)] when [c]
    does not occur. *)
Definition rpartition (c : N) (s : pystr) : pystr * bool * pystr :=
  let '(a, f, b) := partition c (rev s) in
  if f then (rev b, true, rev a) else ([], false, s).

(** [s.split(c)]: never the empty list. *)
Fixpoint split (c : N) (s : pystr) : list pystr :=
  match s with
  | [] => [[]]
  | x :: s' =>
      if N.eqb x c then [] :: split c s'
      else match split c s' with
           | h :: t => (x :: h) :: t
           | [] => [[x]]
           end
  end.

(** [s.split(c, 1)]: one or two pieces. *)
Definition split1 (c : N) (s : pystr) : list pystr :=
  let '(a, f, b) := partition c s in
  if f then [a; b] else [a].

(** [sep.join(l)]. *)
Fixpoint join (sep : pystr) (l : list pystr) : pystr :=
  match l with
  | [] => []
  | [x] => x
  | x :: t => x ++ sep ++ join sep t
  end.

(** [s.replace(c, new)] for a one-character [c]. *)
Definition replace (c : N) (new : pystr) (s : pystr) : pystr :=
  flat_map (fun x => if N.eqb x c then new else [x]) s.

(** [s.replace(c, new, 1)]: only the first occurrence. *)
Fixpoint replace_first (c : N) (new : pystr) (s : pystr) : pystr :=
  match s with
  | [] => []
  | x :: s' => if N.eqb x c then new ++ s' else x :: replace_first c new s'
  end.

(** [re.sub(c+, c, s)]: every run of [c] becomes a single [c]. *)
Fixpoint squeeze (c : N) (s : pystr) : pystr :=
  match s with
  | x :: ((y :: _) as s') =>
      if N.eqb x c && N.eqb y c then squeeze c s' else x :: squeeze c s'
  | _ => s
  end.

Fixpoint dropwhile (p : N -> bool) (s : pystr) : pystr :=
  match s with
  | [] => []
  | x :: s' => if p x then dropwhile p s' else s
  end.

(** [s.lstrip(chars)], [s.rstrip(chars)], [s.strip(chars)] with the set
    of characters given as a predicate. *)
Definition lstrip (p : N -> bool) (s : pystr) : pystr := dropwhile p s.
Definition rstrip (p : N -> bool) (s : pystr) : pystr :=
  rev (dropwhile p (rev s)).
Definition strip (p : N -> bool) (s : pystr) : pystr :=
  lstrip p (rstrip p s).

(** [str.isspace] on one character: the code points CPython's
    [_PyUnicode_IsWhitespace] accepts. *)
Definition is_space (c : N) : bool :=
  (N.leb 9 c && N.leb c 13) || (N.leb 28 c && N.leb c 32)
  || N.eqb c 133 || N.eqb c 160 || N.eqb c 5760
  || (N.leb 8192 c && N.leb c 8202)
  || N.eqb c 8232 || N.eqb c 8233 || N.eqb c 8239 || N.eqb c 8287
  || N.eqb c 12288.

(** [s.isspace()]: at least one character and all of them whitespace. *)
Definition isspace (s : pystr) : bool := negb (null s) && forallb is_space s.

(** [s.isascii()]. *)
Definition isascii (s : pystr) : bool := forallb (fun c => N.ltb c 128) s.

Definition is_upper (c : N) : bool := N.leb 65 c && N.leb c 90.
Definition is_lower (c : N) : bool := N.leb 97 c && N.leb c 122.
Definition is_alpha (c : N) : bool := is_upper c || is_lower c.
Definition is_digit (c : N) : bool := N.leb 48 c && N.leb c 57.
Definition is_hexdig (c : N) : bool :=
  is_digit c || (N.leb 65 c && N.leb c 70) || (N.leb 97 c && N.leb c 102).

(** [s.lower()] on an ASCII string. *)
Definition ascii_lower (s : pystr) : pystr :=
  map (fun c => if is_upper c then (c + 32)%N else c) s.

(** [s.isdigit() and s.isascii()]: non-empty and only [0]..[9]. *)
Definition isdigit_ascii (s : pystr) : bool :=
  negb (null s) && forallb is_digit s.

(** [int(s)] for a string of ASCII decimal digits. *)
Definition int_of_digits (s : pystr) : N :=
  fold_left (fun acc c => (10 * acc + (c - 48))%N) s 0%N.

End Str.

(** ** Exceptions *)

(** The exceptions the parser can let escape, by the statement of the
    library that raises them. *)
Inductive exn : Type :=
| InvalidIPv6URL            (* ValueError("Invalid IPv6 URL") *)
| IPvFutureInvalid          (* ValueError("IPvFuture address is invalid") *)
| IPv4InBrackets            (* ValueError("An IPv4 address cannot be in brackets") *)
| NotAnIPAddress            (* ValueError: does not appear to be an IPv4 or IPv6 address *)
| InvalidUnderNFKC          (* ValueError: netloc contains invalid characters under NFKC normalization *)
| PortNotInteger            (* ValueError("Port could not be cast to integer value as ...") *)
| IntTooManyDigits          (* ValueError: Exceeds the limit (4300 digits) for integer string conversion *)
| PortOutOfRange            (* ValueError("Port out of range 0-65535") *)
| UnicodeEncodeError.       (* str.encode('utf-8', 'strict') on a lone surrogate *)

Inductive result (A : Type) : Type :=
| Ok (a : A)
| Raise (e : exn).
Arguments Ok {A} a.
Arguments Raise {A} e.

Definition bind {A B} (m : result A) (k : A -> result B) : result B :=
  match m with
  | Ok a => k a
  | Raise e => Raise e
  end.

Notation "x <- m ;; k" := (bind m (fun x => k))
  (at level 61, m at next level, right associativity).
Notation "m ;;; k" := (bind m (fun _ => k))
  (at level 61, right associativity).

Definition raises {A} (m : result A) : bool :=
  match m with Ok _ => false | Raise _ => true end.

(** ** UTF-8 *)

Module Utf8.

(** [chr(c).encode('utf-8', 'strict')]: a lone surrogate cannot be
    encoded; a number above U+10FFFF is not a character at all. *)
Definition encode_char (c : N) : result pybytes :=
  if N.ltb c 128 then Ok [c]
  else if N.ltb c 2048 then
    Ok [192 + c / 64; 128 + c mod 64]%N
  else if N.ltb c 65536 then
    if N.leb 55296 c && N.leb c 57343 then Raise UnicodeEncodeError
    else Ok [224 + c / 4096; 128 + (c / 64) mod 64; 128 + c mod 64]%N
  else if N.leb c 1114111 then
    Ok [240 + c / 262144; 128 + (c / 4096) mod 64;
        128 + (c / 64) mod 64; 128 + c mod 64]%N
  else Raise UnicodeEncodeError.

(** [s.encode('utf-8', 'strict')]. *)
Fixpoint encode (s : pystr) : result pybytes :=
  match s with
  | [] => Ok []
  | c :: s' =>
      b <- encode_char c ;;
      bs <- encode s' ;;
      Ok (b ++ bs)
  end.

Definition is_cont (b : N) : bool := N.leb 128 b && N.ltb b 192.

Abbreviation REPLACEMENT := 65533%N (only parsing).

(** [bs.decode('utf-8', 'replace')], after CPython's [utf8_decode]: a
    well-formed sequence gives its character; an invalid start byte, a
    sequence cut by an invalid continuation byte, and a sequence cut by the
    end of the data each give one U+FFFD, and decoding resumes after the
    bytes of the sequence that were accepted. *)
Fixpoint decode (bs : pybytes) : pystr :=
  match bs with
  | [] => []
  | b1 :: r1 =>
      if N.ltb b1 128 then b1 :: decode r1
      else if N.ltb b1 194 then REPLACEMENT :: decode r1
      else if N.ltb b1 224 then
        match r1 with
        | [] => [REPLACEMENT]
        | b2 :: r2 =>
            if is_cont b2
            then ((b1 - 192) * 64 + (b2 - 128))%N :: decode r2
            else REPLACEMENT :: decode r1
        end
      else if N.ltb b1 240 then
        match r1 with
        | [] => [REPLACEMENT]
        | b2 :: r2 =>
            if negb (is_cont b2)
               || (if N.ltb b2 160 then N.eqb b1 224 else N.eqb b1 237)
            then REPLACEMENT :: decode r1
            else
              match r2 with
              | [] => [REPLACEMENT]
              | b3 :: r3 =>
                  if is_cont b3
                  then ((b1 - 224) * 4096 + (b2 - 128) * 64 + (b3 - 128))%N
                         :: decode r3
                  else REPLACEMENT :: decode r2
              end
        end
      else if N.ltb b1 245 then
        match r1 with
        | [] => [REPLACEMENT]
        | b2 :: r2 =>
            if negb (is_cont b2)
               || (if N.ltb b2 144 then N.eqb b1 240 else N.eqb b1 244)
            then REPLACEMENT :: decode r1
            else
              match r2 with
              | [] => [REPLACEMENT]
              | b3 :: r3 =>
                  if negb (is_cont b3) then REPLACEMENT :: decode r2
                  else
                    match r3 with
                    | [] => [REPLACEMENT]
                    | b4 :: r4 =>
                        if is_cont b4
                        then ((b1 - 240) * 262144 + (b2 - 128) * 4096
                              + (b3 - 128) * 64 + (b4 - 128))%N :: decode r4
                        else REPLACEMENT :: decode r3
                    end
              end
        end
      else REPLACEMENT :: decode r1
  end.

End Utf8.

(** ** Percent-encoding ([urllib.parse]) *)

(** [_ALWAYS_SAFE]: letters, digits and [_.-~]. *)
Definition _ALWAYS_SAFE (b : N) : bool :=
  Str.is_alpha b || Str.is_digit b
  || N.eqb b 95 || N.eqb b 46 || N.eqb b 45 || N.eqb b 126.

(** One hexadecimal digit of ['%{:02X}'.format(b)]. *)
Definition hex_digit (d : N) : N :=
  if N.ltb d 10 then (48 + d)%N else (55 + d)%N.

(** [_Quoter(safe).__missing__]: [chr(b)] for a safe byte, else [%XX]. *)
Definition quoter (safe : pystr) (b : N) : pystr :=
  if _ALWAYS_SAFE b || Str.mem b safe then [b]
  else [PERCENT; hex_digit (b / 16); hex_digit (b mod 16)].

(** [quote_from_bytes(bs, safe)]; [safe] loses its non-ASCII characters. *)
Definition quote_from_bytes (bs : pybytes) (safe : pystr) : pystr :=
  if Str.null bs then []
  else
    let safe := filter (fun c => N.ltb c 128) safe in
    if Str.null (Str.rstrip (fun b => _ALWAYS_SAFE b || Str.mem b safe) bs)
    then bs
    else concat (map (quoter safe) bs).

(** [quote(string, safe)] with the default encoding and error handling
    (UTF-8, strict). *)
Definition quote (string : pystr) (safe : pystr) : result pystr :=
  if Str.null string then Ok string
  else
    bs <- Utf8.encode string ;;
    Ok (quote_from_bytes bs safe).

(** [quote_plus(string, safe)]. *)
Definition quote_plus (string : pystr) (safe : pystr) : result pystr :=
  if negb (Str.mem SPACE string) then quote string safe
  else
    string <- quote string (safe ++ [SPACE]) ;;
    Ok (Str.replace SPACE [PLUS] string).

(** The value of a hexadecimal digit of [_hexdig]. *)
Definition hex_value (c : N) : option N :=
  if Str.is_digit c then Some (c - 48)%N
  else if N.leb 65 c && N.leb c 70 then Some (c - 55)%N
  else if N.leb 97 c && N.leb c 102 then Some (c - 87)%N
  else None.

(** [_hextobyte[item[:2]]]: defined on exactly two hexadecimal digits. *)
Definition _hextobyte (key : pystr) : option N :=
  match key with
  | [a; b] =>
      match hex_value a, hex_value b with
      | Some x, Some y => Some (16 * x + y)%N
      | _, _ => None
      end
  | _ => None
  end.

(** [unquote_to_bytes(string)] on a string of ASCII characters (its UTF-8
    encoding is the string itself): split at [%]; a piece that starts with
    two hexadecimal digits has them replaced by their byte, any other
    piece gets its [%] back. *)
Definition unquote_to_bytes (string : pystr) : pybytes :=
  if Str.null string then []
  else
    match Str.split PERCENT string with
    | [] | [_] => string
    | first :: items =>
        first ++
        flat_map (fun item =>
                    match _hextobyte (firstn 2 item) with
                    | Some b => b :: skipn 2 item
                    | None => PERCENT :: item
                    end) items
    end.

(** The loop of [unquote] over [_asciire.split(string)]: every maximal
    run of ASCII characters is unquoted to bytes and decoded (UTF-8,
    errors replaced); the characters between the runs are kept.  [run]
    is the run read so far. *)
Fixpoint unquote_runs (run : pystr) (string : pystr) : pystr :=
  match string with
  | [] => Utf8.decode (unquote_to_bytes run)
  | c :: rest =>
      if N.ltb c 128 then unquote_runs (run ++ [c]) rest
      else Utf8.decode (unquote_to_bytes run) ++ c :: unquote_runs [] rest
  end.

(** [unquote(string)] with the default encoding and error handling
    (UTF-8, replace). *)
Definition unquote (string : pystr) : pystr :=
  if negb (Str.mem PERCENT string) then string
  else unquote_runs [] string.

(** [unquote_plus(string)]. *)
Definition unquote_plus (string : pystr) : pystr :=
  unquote (Str.replace PLUS [SPACE] string).

(** ** Query strings ([urllib.parse]) *)

(** [parse_qsl(qs)] with its defaults: separator [&], blank values not
    kept, no strict parsing, no limit on the number of fields. *)
Definition parse_qsl (qs : pystr) : list (pystr * pystr) :=
  let query_args := if Str.null qs then [] else Str.split AMPERSAND qs in
  flat_map
    (fun name_value =>
       if Str.null name_value then []                (* continue *)
       else
         match Str.split1 EQUALS name_value with
         | [name; value] =>
             if negb (Str.null value)
             then [(unquote (Str.replace PLUS [SPACE] name),
                    unquote (Str.replace PLUS [SPACE] value))]
             else []
         | _ => []                                    (* len(nv) != 2 *)
         end)
    query_args.

(** A [dict] from names to lists of values, keys in insertion order. *)
Definition qdict := list (pystr * list pystr).

(** [parsed_result[name].append(value)] when [name] is a key,
    [parsed_result[name] = [value]] otherwise. *)
Fixpoint qdict_add (d : qdict) (name value : pystr) : qdict :=
  match d with
  | [] => [(name, [value])]
  | (k, vs) :: d' =>
      if Str.eqb k name then (k, vs ++ [value]) :: d'
      else (k, vs) :: qdict_add d' name value
  end.

(** [parse_qs(qs)] with its defaults. *)
Definition parse_qs (qs : pystr) : qdict :=
  fold_left (fun parsed_result nv => qdict_add parsed_result (fst nv) (snd nv))
            (parse_qsl qs) [].

(** ** IP address literals ([ipaddress]) *)

Module Ipaddress.

(** [IPv4Address._parse_octet]: does it return (rather than raise)? *)
Definition _parse_octet (octet_str : pystr) : bool :=
  negb (Str.null octet_str)
  && Str.isdigit_ascii octet_str
  && Nat.leb (length octet_str) 3
  && (Str.eqb octet_str (py "0")
      || negb (Str.eqb (firstn 1 octet_str) (py "0")))
  && N.leb (Str.int_of_digits octet_str) 255.

(** [IPv4Address(address)] for a string: is it accepted? *)
Definition IPv4Address (address : pystr) : bool :=
  negb (Str.mem SLASH address)
  && negb (Str.null address)
  && (let octets := Str.split DOT address in
      Nat.eqb (length octets) 4 && forallb _parse_octet octets).

(** [IPv6Address._parse_hextet]: does it return? [int('', 16)] raises. *)
Definition _parse_hextet (hextet_str : pystr) : bool :=
  forallb Str.is_hexdig hextet_str
  && Nat.leb (length hextet_str) 4
  && negb (Str.null hextet_str).

(** The indices [1 .. len(parts) - 2] whose part is empty. *)
Definition inner_empty (parts : list pystr) : list nat :=
  filter (fun i => Str.null (nth i parts []))
         (seq 1 (length parts - 2)).

(** [IPv6Address._ip_int_from_string]: does it return? *)
Definition _ip_int_from_string (ip_str : pystr) : bool :=
  negb (Str.null ip_str)
  && (let parts := Str.split COLON ip_str in
      Nat.leb 3 (length parts)
      && (let last_part := last parts [] in
          (* an IPv4-style suffix becomes two hextets *)
          let suffix_ok :=
            if Str.mem DOT last_part then IPv4Address last_part else true in
          let parts :=
            if Str.mem DOT last_part
            then removelast parts ++ [py "0"; py "0"]
            else parts in
          suffix_ok
          && Nat.leb (length parts) 9
          && match inner_empty parts with
             | [] =>
                 (* no '::' *)
                 Nat.eqb (length parts) 8
                 && forallb _parse_hextet parts
             | [skip_index] =>
                 let parts_hi := skip_index in
                 let parts_lo := (length parts - skip_index - 1)%nat in
                 let first_empty := Str.null (nth 0 parts []) in
                 let last_empty := Str.null (last parts []) in
                 let parts_hi' := if first_empty then (parts_hi - 1)%nat else parts_hi in
                 let parts_lo' := if last_empty then (parts_lo - 1)%nat else parts_lo in
                 negb (first_empty && negb (Nat.eqb parts_hi' 0))
                 && negb (last_empty && negb (Nat.eqb parts_lo' 0))
                 && Nat.leb (parts_hi' + parts_lo') 7
                 && forallb _parse_hextet (firstn parts_hi' parts)
                 && forallb _parse_hextet
                      (skipn (length parts - parts_lo') parts)
             | _ => false      (* more than one '::' *)
             end)).

(** [IPv6Address._split_scope_id] followed by [_ip_int_from_string]:
    [IPv6Address(address)] for a string, accepted or not. *)
Definition IPv6Address (address : pystr) : bool :=
  negb (Str.mem SLASH address)
  && (let '(addr, sep, scope_id) := Str.partition PERCENT address in
      (if sep then negb (Str.null scope_id) && negb (Str.mem PERCENT scope_id)
       else true)
      && _ip_int_from_string addr).

End Ipaddress.

(** ** URL splitting ([urllib.parse]) *)

(** [SplitResult(scheme, netloc, path, query, fragment)]. *)
Record SplitResult : Type := mkSplitResult {
  scheme : pystr;
  netloc : pystr;
  path : pystr;
  query : pystr;
  fragment : pystr
}.

(** [unwrap(url)]. *)
Definition unwrap (url : pystr) : pystr :=
  let url := Str.strip Str.is_space url in
  let url :=
    if Str.eqb (firstn 1 url) [LT_SIGN] && Str.eqb (Str.last1 url) [GT_SIGN]
    then Str.strip Str.is_space (removelast (tl url))       (* url[1:-1] *)
    else url in
  let url :=
    if Str.eqb (firstn 4 url) (py "URL:")
    then Str.strip Str.is_space (skipn 4 url)
    else url in
  url.

Definition uses_netloc : list pystr :=
  map py ["";  "ftp"; "http"; "gopher"; "nntp"; "telnet";
          "imap"; "wais"; "file"; "mms"; "https"; "shttp";
          "snews"; "prospero"; "rtsp"; "rtspu"; "rsync";
          "svn"; "svn+ssh"; "sftp"; "nfs"; "git"; "git+ssh";
          "ws"; "wss"]%string.

(** [c in scheme_chars]. *)
Definition scheme_chars (c : N) : bool :=
  Str.is_lower c || Str.is_upper c || Str.is_digit c
  || N.eqb c PLUS || N.eqb c 45 || N.eqb c DOT.

(** [c in _WHATWG_C0_CONTROL_OR_SPACE]. *)
Definition _WHATWG_C0_CONTROL_OR_SPACE (c : N) : bool := N.leb c 32.

(** [c in _UNSAFE_URL_BYTES_TO_REMOVE]. *)
Definition _UNSAFE_URL_BYTES_TO_REMOVE (c : N) : bool :=
  N.eqb c TAB || N.eqb c CR || N.eqb c LF.

(** [_splitnetloc(url, start)]. *)
Definition _splitnetloc (url : pystr) (start : nat) : pystr * pystr :=
  let delim :=
    fold_left (fun delim c =>
                 match Str.find_from c start url with
                 | Some wdelim => Nat.min delim wdelim
                 | None => delim
                 end)
              [SLASH; QMARK; HASH] (length url) in
  (Str.slice start delim url, skipn delim url).

(** [_check_bracketed_host(hostname)]. *)
Definition _check_bracketed_host (hostname : pystr) : result unit :=
  if Str.startswith (py "v") hostname then
    (* re.match(r"\Av[a-fA-F0-9]+\..+\Z", hostname) *)
    let '(digits, dot, rest) := Str.partition DOT (tl hostname) in
    if negb (Str.null digits) && forallb Str.is_hexdig digits
       && dot && negb (Str.null rest) && negb (Str.mem LF rest)
    then Ok tt
    else Raise IPvFutureInvalid
  else if Ipaddress.IPv4Address hostname then Raise IPv4InBrackets
  else if Ipaddress.IPv6Address hostname then Ok tt
  else Raise NotAnIPAddress.

(** [_check_bracketed_netloc(netloc)]. *)
Definition _check_bracketed_netloc (netloc : pystr) : result unit :=
  let '(_, _, hostname_and_port) := Str.rpartition AT_SIGN netloc in
  let '(before_bracket, have_open_br, bracketed) :=
    Str.partition LBRACKET hostname_and_port in
  if have_open_br then
    if negb (Str.null before_bracket) then Raise InvalidIPv6URL
    else
      let '(hostname, _, port) := Str.partition RBRACKET bracketed in
      if negb (Str.null port) && negb (Str.startswith [COLON] port)
      then Raise InvalidIPv6URL
      else _check_bracketed_host hostname
  else
    let '(hostname, _, port) := Str.partition COLON hostname_and_port in
    _check_bracketed_host hostname.

(** [urlunsplit(components)]. *)
Definition urlunsplit (components : SplitResult) : pystr :=
  let '(mkSplitResult scheme netloc url query fragment) := components in
  let url :=
    if negb (Str.null netloc)
       || (negb (Str.null scheme) && existsb (Str.eqb scheme) uses_netloc
           && negb (Str.eqb (firstn 2 url) (py "//")))
    then
      let url :=
        if negb (Str.null url) && negb (Str.eqb (firstn 1 url) (py "/"))
        then SLASH :: url else url in
      py "//" ++ netloc ++ url
    else url in
  let url := if negb (Str.null scheme) then scheme ++ COLON :: url else url in
  let url := if negb (Str.null query) then url ++ QMARK :: query else url in
  let url := if negb (Str.null fragment) then url ++ HASH :: fragment else url in
  url.

(** [SplitResult.geturl()]. *)
Definition geturl (self : SplitResult) : pystr := urlunsplit self.

(** [_NetlocResultMixinStr._userinfo]: [(username, password)], [None]
    for an absent part. *)
Definition _userinfo (self : SplitResult) : option pystr * option pystr :=
  let '(userinfo, have_info, hostinfo) := Str.rpartition AT_SIGN (netloc self) in
  if have_info then
    let '(username, have_password, password) := Str.partition COLON userinfo in
    (Some username, if have_password then Some password else None)
  else (None, None).

(** [_NetlocResultMixinStr._hostinfo]: [(hostname, port)]. *)
Definition _hostinfo (self : SplitResult) : pystr * option pystr :=
  let '(_, _, hostinfo) := Str.rpartition AT_SIGN (netloc self) in
  let '(_, have_open_br, bracketed) := Str.partition LBRACKET hostinfo in
  let '(hostname, port) :=
    if have_open_br then
      let '(hostname, _, port) := Str.partition RBRACKET bracketed in
      let '(_, _, port) := Str.partition COLON port in
      (hostname, port)
    else
      let '(hostname, _, port) := Str.partition COLON hostinfo in
      (hostname, port) in
  (hostname, if Str.null port then None else Some port).

Definition username (self : SplitResult) : option pystr := fst (_userinfo self).
Definition password (self : SplitResult) : option pystr := snd (_userinfo self).

(** [SplitResult.port]. *)
Definition port (self : SplitResult) : result (option N) :=
  match snd (_hostinfo self) with
  | None => Ok None
  | Some port =>
      if Str.isdigit_ascii port then
        (* int(port), under the interpreter's limit on digits *)
        if Nat.ltb 4300 (length port) then Raise IntTooManyDigits
        else
          let port := Str.int_of_digits port in
          if N.leb port 65535 then Ok (Some port) else Raise PortOutOfRange
      else Raise PortNotInteger
  end.

(** ** The parser *)

(** A value of the returned dictionary. *)
Inductive pyvalue : Type :=
| PyNone
| PyStr (s : pystr)
| PyInt (n : N)
| PyList (l : list pystr)                 (* path_list *)
| PyPairs (l : list (pystr * pystr))      (* query_list *)
| PyDict (d : qdict).                     (* query *)

(** The returned dictionary: keys in insertion order. *)
Definition Dict := list (string * pyvalue).

(** [d.get(key)]; [None] when the key is absent. *)
Fixpoint get (key : string) (d : Dict) : option pyvalue :=
  match d with
  | [] => None
  | (k, v) :: d' => if String.eqb k key then Some v else get key d'
  end.

(** [x or None] at each type the parser uses it. *)
Definition str_or_None (s : pystr) : pyvalue :=
  if Str.null s then PyNone else PyStr s.
Definition list_or_None (l : option (list pystr)) : pyvalue :=
  match l with
  | None | Some [] => PyNone
  | Some l => PyList l
  end.
Definition pairs_or_None (l : option (list (pystr * pystr))) : pyvalue :=
  match l with
  | None | Some [] => PyNone
  | Some l => PyPairs l
  end.
Definition dict_or_None (d : option qdict) : pyvalue :=
  match d with
  | None | Some [] => PyNone
  | Some d => PyDict d
  end.
Definition optstr_or_None (s : option pystr) : pyvalue :=
  match s with
  | None => PyNone
  | Some s => str_or_None s
  end.

(** A value passed through as it is: [None] or the object. *)
Definition of_optstr (s : option pystr) : pyvalue :=
  match s with None => PyNone | Some s => PyStr s end.
Definition of_optint (n : option N) : pyvalue :=
  match n with None => PyNone | Some n => PyInt n end.

(** Modelled from the spec: [jc.utils.has_data] is not among the sources;
    the parser returns at once on input that is empty or whitespace-only,
    so [has_data] holds of a string with a character that is not
    whitespace. *)
Definition has_data (data : pystr) : bool :=
  negb (Str.null data) && negb (Str.isspace data).

(** [_process(proc_data)]: final processing to conform to the schema. *)
Definition _process (proc_data : Dict) : Dict := proc_data.

Section Parser.

(** The two tables of the Unicode database that [urllib.parse] consults
    on text outside ASCII: lower-casing ([str.lower]) and compatibility
    normalization ([unicodedata.normalize('NFKC', s)]). *)
Variable unicode_lower : pystr -> pystr.
Variable nfkc_normalize : pystr -> pystr.

(** [s.lower()]: CPython lower-cases an ASCII string byte by byte and goes
    to the Unicode case mapping otherwise. *)
Definition str_lower (s : pystr) : pystr :=
  if Str.isascii s then Str.ascii_lower s else unicode_lower s.

(** [_checknetloc(netloc)]. *)
Definition _checknetloc (netloc : pystr) : result unit :=
  if Str.null netloc || Str.isascii netloc then Ok tt
  else
    let n := Str.replace AT_SIGN [] netloc in
    let n := Str.replace COLON [] n in
    let n := Str.replace HASH [] n in
    let n := Str.replace QMARK [] n in
    let netloc2 := nfkc_normalize n in
    if Str.eqb n netloc2 then Ok tt
    else if existsb (fun c => Str.mem c netloc2)
                    [SLASH; QMARK; HASH; AT_SIGN; COLON]
         then Raise InvalidUnderNFKC
         else Ok tt.

(** [urlsplit(url)] with the default [scheme=''] and [allow_fragments]. *)
Definition urlsplit (url : pystr) : result SplitResult :=
  let url := Str.lstrip _WHATWG_C0_CONTROL_OR_SPACE url in
  let url := filter (fun c => negb (_UNSAFE_URL_BYTES_TO_REMOVE c)) url in
  let '(scheme, url) :=
    match Str.find COLON url with
    | Some (S i') =>
        let i := S i' in
        if Str.is_alpha (hd 0%N url)            (* isascii() and isalpha() *)
           && forallb scheme_chars (firstn i url)
        then (str_lower (firstn i url), skipn (i + 1) url)
        else ([], url)
    | _ => ([], url)
    end in
  netloc_url <-
    (if Str.eqb (firstn 2 url) (py "//") then
       let '(netloc, url) := _splitnetloc url 2 in
       let open_br := Str.mem LBRACKET netloc in
       let close_br := Str.mem RBRACKET netloc in
       if (open_br && negb close_br) || (close_br && negb open_br)
       then Raise InvalidIPv6URL
       else
         (if open_br && close_br then _check_bracketed_netloc netloc
          else Ok tt) ;;;
         Ok (netloc, url)
     else Ok ([], url)) ;;
  let '(netloc, url) := netloc_url in
  let '(url, fragment) :=
    if Str.mem HASH url
    then let '(a, _, b) := Str.partition HASH url in (a, b)
    else (url, []) in
  let '(url, query) :=
    if Str.mem QMARK url
    then let '(a, _, b) := Str.partition QMARK url in (a, b)
    else (url, []) in
  _checknetloc netloc ;;;
  Ok (mkSplitResult scheme netloc url query fragment).

(** [SplitResult.hostname]. *)
Definition hostname (self : SplitResult) : option pystr :=
  let hostname := fst (_hostinfo self) in
  if Str.null hostname then None
  else
    let '(hostname, percent, zone) := Str.partition PERCENT hostname in
    Some (str_lower hostname ++ (if percent then [PERCENT] else []) ++ zone).

(** [parse(data, raw, quiet)]. *)
Definition parse (data : pystr) (raw quiet : bool) : result Dict :=
  raw_output <-
    (if has_data data then
       parts <- urlsplit (unwrap data) ;;
       normalized <- urlsplit (urlunsplit parts) ;;
       quoted_path <- quote (path normalized) (py "/") ;;
       quoted_query <- quote_plus (query normalized) (py "+") ;;
       let quoted :=
         geturl (mkSplitResult (scheme normalized) (netloc normalized)
                               quoted_path quoted_query (fragment normalized)) in
       let unquoted :=
         geturl (mkSplitResult (scheme normalized) (netloc normalized)
                               (unquote (path normalized))
                               (unquote_plus (query normalized))
                               (fragment normalized)) in
       unquoted_parts <- urlsplit unquoted ;;
       let '(my_path, path_list) :=
         if negb (Str.null (path unquoted_parts)) then
           (* normalize the path by removing any duplicate `/` chars *)
           let my_path := Str.squeeze SLASH (path unquoted_parts) in
           (* remove first '/' and split *)
           let path_list := Str.split SLASH (Str.replace_first SLASH [] my_path) in
           (Some my_path,
            match path_list with [[]] => None | _ => Some path_list end)
         else (None, None) in
       let '(query_obj, query_list) :=
         if negb (Str.null (query unquoted_parts)) then
           (Some (parse_qs (query unquoted_parts)),
            Some (parse_qsl (query unquoted_parts)))
         else (None, None) in
       port_value <- port parts ;;
       Ok [("quoted", str_or_None quoted);
           ("unquoted", str_or_None unquoted);
           ("scheme", str_or_None (scheme parts));
           ("netloc", str_or_None (netloc parts));
           ("path", optstr_or_None my_path);
           ("path_list", list_or_None path_list);
           ("query", dict_or_None query_obj);
           ("query_list", pairs_or_None query_list);
           ("fragment", str_or_None (fragment parts));
           ("username", of_optstr (username parts));
           ("password", of_optstr (password parts));
           ("hostname", of_optstr (hostname parts));
           ("port", of_optint port_value)]%string
     else Ok []) ;;
  Ok (if raw then raw_output else _process raw_output).


(** The thirteen keys of the schema. *)
Definition schema_keys : list string :=
  ["quoted"; "unquoted"; "scheme"; "netloc"; "path"; "path_list"; "query";
   "query_list"; "fragment"; "username"; "password"; "hostname";
   "port"]%string.

(** A record in which every key of the schema is present and null. *)
Definition all_null (r : Dict) : Prop :=
  Forall (fun k => get k r = Some PyNone) schema_keys.

(** The record with every key of the schema present and null. *)
Definition null_record : Dict :=
  map (fun k => (k, PyNone)) schema_keys.

(** The input wrapped the three ways the parser documents. *)
Definition in_brackets (x : pystr) : pystr := LT_SIGN :: x ++ [GT_SIGN].
Definition url_prefixed (x : pystr) : pystr := py "URL:" ++ x.

(** A trimmed string that [unwrap] leaves alone: not enclosed in angle
    brackets and not prefixed with [URL:]. *)
Definition bare (s : pystr) : bool :=
  negb (Str.eqb (firstn 1 s) [LT_SIGN] && Str.eqb (Str.last1 s) [GT_SIGN])
  && negb (Str.eqb (firstn 4 s) (py "URL:")).

Abbreviation ws := Str.is_space (only parsing).

(** [unwrap] after the first trimming. *)
Definition unwrap_trimmed (url : pystr) : pystr :=
  let url :=
    if Str.eqb (firstn 1 url) [LT_SIGN] && Str.eqb (Str.last1 url) [GT_SIGN]
    then Str.strip ws (removelast (tl url)) else url in
  if Str.eqb (firstn 4 url) (py "URL:")
  then Str.strip ws (skipn 4 url) else url.

(** ** The steps of [parse], named

    The values [parse] computes on its way, as functions of the values
    they are computed from; [parse_ok_inv] below relates them to [parse]. *)

(** The [quoted] string, from the normalized split and its quoted path
    and query. *)
Definition quoted_of (normalized : SplitResult) (quoted_path quoted_query : pystr)
  : pystr :=
  geturl (mkSplitResult (scheme normalized) (netloc normalized)
                        quoted_path quoted_query (fragment normalized)).

(** The [unquoted] string, from the normalized split. *)
Definition unquoted_of (normalized : SplitResult) : pystr :=
  geturl (mkSplitResult (scheme normalized) (netloc normalized)
                        (unquote (path normalized))
                        (unquote_plus (query normalized))
                        (fragment normalized)).

(** [my_path], from the split of the unquoted string. *)
Definition my_path_of (unquoted_parts : SplitResult) : option pystr :=
  if negb (Str.null (path unquoted_parts))
  then Some (Str.squeeze SLASH (path unquoted_parts))
  else None.

(** [path_list], from the split of the unquoted string. *)
Definition path_list_of (unquoted_parts : SplitResult) : option (list pystr) :=
  if negb (Str.null (path unquoted_parts)) then
    match Str.split SLASH
            (Str.replace_first SLASH []
               (Str.squeeze SLASH (path unquoted_parts))) with
    | [[]] => None
    | path_list => Some path_list
    end
  else None.

(** [query_obj] and [query_list], from the split of the unquoted string. *)
Definition query_obj_of (unquoted_parts : SplitResult) : option qdict :=
  if negb (Str.null (query unquoted_parts))
  then Some (parse_qs (query unquoted_parts)) else None.
Definition query_list_of (unquoted_parts : SplitResult)
  : option (list (pystr * pystr)) :=
  if negb (Str.null (query unquoted_parts))
  then Some (parse_qsl (query unquoted_parts)) else None.

(** The dictionary [parse] builds from the values it has computed. *)
Definition record_of (parts normalized : SplitResult)
    (quoted_path quoted_query : pystr) (unquoted_parts : SplitResult)
    (port_value : option N) : Dict :=
  [("quoted", str_or_None (quoted_of normalized quoted_path quoted_query));
   ("unquoted", str_or_None (unquoted_of normalized));
   ("scheme", str_or_None (scheme parts));
   ("netloc", str_or_None (netloc parts));
   ("path", optstr_or_None (my_path_of unquoted_parts));
   ("path_list", list_or_None (path_list_of unquoted_parts));
   ("query", dict_or_None (query_obj_of unquoted_parts));
   ("query_list", pairs_or_None (query_list_of unquoted_parts));
   ("fragment", str_or_None (fragment parts));
   ("username", of_optstr (username parts));
   ("password", of_optstr (password parts));
   ("hostname", of_optstr (hostname parts));
   ("port", of_optint port_value)]%string.

(** [parsed data r]: [parse] ran every step on [data] without an
    exception and assembled [r]. *)
Inductive parsed (data : pystr) : Dict -> Prop :=
| Parsed (parts normalized : SplitResult) (quoted_path quoted_query : pystr)
         (unquoted_parts : SplitResult) (port_value : option N)
         (p_split : urlsplit (unwrap data) = Ok parts)
         (p_resplit : urlsplit (urlunsplit parts) = Ok normalized)
         (p_quote : quote (path normalized) (py "/") = Ok quoted_path)
         (p_quote_plus : quote_plus (query normalized) (py "+") = Ok quoted_query)
         (p_unsplit : urlsplit (unquoted_of normalized) = Ok unquoted_parts)
         (p_port : port parts = Ok port_value) :
    parsed data (record_of parts normalized quoted_path quoted_query
                           unquoted_parts port_value).

(** ** Query strings, in the words of the specification *)

(** The pair a field [name=value] of a query string stands for; only
    fields with a value are kept. *)
Definition pair_of_field (name_value : pystr) : list (pystr * pystr) :=
  if Str.null name_value then []
  else
    match Str.split1 EQUALS name_value with
    | [name; value] =>
        if negb (Str.null value)
        then [(unquote (Str.replace PLUS [SPACE] name),
               unquote (Str.replace PLUS [SPACE] value))]
        else []
    | _ => []
    end.

(** A field [key=] of a query string: a key with an empty value. *)
Definition blank_valued (field : pystr) : bool :=
  let '(_, has_eq, value) := Str.partition EQUALS field in
  has_eq && Str.null value.

(** [query] and [query_list] hold the same associations. *)
Definition same_associations (d : qdict) (l : list (pystr * pystr)) : Prop :=
  forall k v, In (k, v) l <-> exists vs, In (k, vs) d /\ In v vs.

(** The [query] and [query_list] fields of a record are mutually
    consistent: both null, or both present with the same associations
    (or both absent, in the empty dictionary). *)
Definition query_fields_consistent (r : Dict) : Prop :=
  match get "query" r, get "query_list" r with
  | Some (PyDict d), Some (PyPairs l) => same_associations d l
  | Some PyNone, Some PyNone => True
  | None, None => True
  | _, _ => False
  end.

(** A key or value of a query string that needs no decoding and holds
    no separator. *)
Definition plain_key (k : pystr) : bool :=
  negb (Str.mem AMPERSAND k) && negb (Str.mem EQUALS k)
  && negb (Str.mem PERCENT k) && negb (Str.mem PLUS k).
Definition plain_value (v : pystr) : bool :=
  negb (Str.null v) && negb (Str.mem AMPERSAND v)
  && negb (Str.mem PERCENT v) && negb (Str.mem PLUS v).

(** The field [k=v]. *)
Definition field (k v : pystr) : pystr := k ++ EQUALS :: v.

(** ** The stages of [urlsplit], named *)

(** The URL as [urlsplit] reads it: leading C0 control characters and
    spaces stripped, then every tab, carriage return and line feed
    removed. *)
Definition url_clean (url : pystr) : pystr :=
  filter (fun c => negb (_UNSAFE_URL_BYTES_TO_REMOVE c))
         (Str.lstrip _WHATWG_C0_CONTROL_OR_SPACE url).

(** The scheme, lower-cased, and the text after its colon; no scheme
    when the text before the first colon is not a letter followed by
    scheme characters. *)
Definition scheme_split (url : pystr) : pystr * pystr :=
  match Str.find COLON url with
  | Some (S i') =>
      if Str.is_alpha (hd 0%N url) && forallb scheme_chars (firstn (S i') url)
      then (Str.ascii_lower (firstn (S i') url), skipn (S i' + 1) url)
      else ([], url)
  | _ => ([], url)
  end.

(** A character that ends the authority. *)
Definition is_delim (c : N) : bool :=
  N.eqb c SLASH || N.eqb c QMARK || N.eqb c HASH.

(** The longest prefix without a character of the set, and the rest. *)
Fixpoint break (p : N -> bool) (s : pystr) : pystr * pystr :=
  match s with
  | [] => ([], [])
  | x :: s' =>
      if p x then ([], s)
      else let '(a, b) := break p s' in (x :: a, b)
  end.

(** The authority behind a leading [//] and the text after it. *)
Definition authority_split (url : pystr) : pystr * pystr :=
  if Str.eqb (firstn 2 url) (py "//") then break is_delim (skipn 2 url)
  else ([], url).

(** The checks [urlsplit] makes on the brackets of an authority. *)
Definition check_brackets (netloc : pystr) : result unit :=
  let open_br := Str.mem LBRACKET netloc in
  let close_br := Str.mem RBRACKET netloc in
  if (open_br && negb close_br) || (close_br && negb open_br)
  then Raise InvalidIPv6URL
  else if open_br && close_br then _check_bracketed_netloc netloc
       else Ok tt.

(** Path, query and fragment of the text after the authority. *)
Definition tail_split (url : pystr) : pystr * pystr * pystr :=
  let '(url, _, fragment) := Str.partition HASH url in
  let '(url, _, query) := Str.partition QMARK url in
  (url, query, fragment).

(** The authority [urlsplit] finds in a URL. *)
Definition authority_of (url : pystr) : pystr :=
  fst (authority_split (snd (scheme_split (url_clean url)))).

(** [urlsplit] raises on this authority. *)
Definition authority_rejected (netloc : pystr) : bool :=
  raises (check_brackets netloc) || raises (_checknetloc netloc).

(** The five parts [urlsplit] returns when it accepts the authority. *)
Definition split_parts (url : pystr) : SplitResult :=
  let '(scheme, rest) := scheme_split (url_clean url) in
  let '(netloc, rest) := authority_split rest in
  let '(path, query, fragment) := tail_split rest in
  mkSplitResult scheme netloc path query fragment.


(** The port of the authority is present and is not a decimal number
    (ASCII digits, at most 4300 of them) between 0 and 65535. *)
Definition malformed_port (netloc : pystr) : bool :=
  match snd (_hostinfo (mkSplitResult [] netloc [] [] [])) with
  | None => false
  | Some port =>
      negb (Str.isdigit_ascii port
            && Nat.leb (length port) 4300
            && N.leb (Str.int_of_digits port) 65535)
  end.

(** ** Percent-decoding, piece by piece *)

(** What [unquote_to_bytes] makes of a piece that followed a [%]. *)
Definition unquote_item (item : pystr) : pybytes :=
  match _hextobyte (firstn 2 item) with
  | Some b => b :: skipn 2 item
  | None => PERCENT :: item
  end.

(** [+] read as a space. *)
Definition plus_as_space (c : N) : N := if N.eqb c PLUS then SPACE else c.

(** ** Putting a URL together again *)

(** A character above the C0 controls and the space. *)
Definition visible (c : N) : bool := N.ltb 32 c.

(** A character that none of the steps of [parse] rewrites: neither a
    control character nor whitespace, and neither [%] nor [+]. *)
Definition plain_char (c : N) : bool :=
  visible c && negb (Str.is_space c)
  && negb (N.eqb c PERCENT) && negb (N.eqb c PLUS).

(** [urlsplit] finds a scheme in this text. *)
Definition has_scheme (url : pystr) : bool :=
  match Str.find COLON url with
  | Some (S i') =>
      Str.is_alpha (hd 0%N url) && forallb scheme_chars (firstn (S i') url)
  | _ => false
  end.

(** [urlunsplit] writes the two slashes of an authority. *)
Definition writes_authority (t : SplitResult) : bool :=
  negb (Str.null (netloc t))
  || (negb (Str.null (scheme t)) && existsb (Str.eqb (scheme t)) uses_netloc
      && negb (Str.eqb (firstn 2 (path t)) (py "//"))).

(** The path as [urlunsplit] writes it: behind an authority, a path that
    does not begin with a slash gets one. *)
Definition fix_path (t : SplitResult) : pystr :=
  if writes_authority t
  then if negb (Str.null (path t))
          && negb (Str.eqb (firstn 1 (path t)) (py "/"))
       then SLASH :: path t else path t
  else path t.

(** The parts [urlsplit] finds in what [urlunsplit] wrote. *)
Definition resplit (t : SplitResult) : SplitResult :=
  mkSplitResult (scheme t) (netloc t) (fix_path t) (query t) (fragment t).

(** Parts that [urlunsplit] writes so that [urlsplit] finds them again:
    the scheme is empty or a letter followed by scheme characters, in
    lower case; the netloc holds no delimiter, the path no [?] and no [#],
    the query no [#]; without scheme and netloc the path has no scheme of
    its own, and without netloc it does not begin with two slashes; every
    character is plain. *)
Record well_split (t : SplitResult) : Prop := mkWellSplit {
  ws_scheme :
    scheme t = []
    \/ (Str.is_alpha (hd 0%N (scheme t)) = true
        /\ forallb scheme_chars (scheme t) = true
        /\ Str.ascii_lower (scheme t) = scheme t);
  ws_netloc : forallb (fun c => negb (is_delim c)) (netloc t) = true;
  ws_path_q : Str.mem QMARK (path t) = false;
  ws_path_h : Str.mem HASH (path t) = false;
  ws_query_h : Str.mem HASH (query t) = false;
  ws_no_scheme :
    scheme t = [] -> netloc t = [] -> has_scheme (path t) = false;
  ws_no_slashes :
    netloc t = [] -> Str.eqb (firstn 2 (path t)) (py "//") = false;
  ws_plain :
    forallb plain_char
            (scheme t ++ netloc t ++ path t ++ query t ++ fragment t)
    = true
}.

(** Parts whose text does not begin with [<] when they have neither
    scheme nor netloc. *)
Definition no_leading_bracket (t : SplitResult) : Prop :=
  scheme t = [] -> netloc t = [] -> N.eqb (hd 0%N (path t)) LT_SIGN = false.

(** An unwrapped input on which parsing is stable: plain characters only,
    no leading [<], and no four slashes after the scheme. *)
Definition stable_input (d : pystr) : bool :=
  forallb plain_char d
  && negb (N.eqb (hd 0%N d) LT_SIGN)
  && negb (Str.startswith (py "////") (snd (scheme_split d))).

(** ** Auxiliary notions of the proofs *)

(** The position of the first delimiter, as [_splitnetloc] computes it. *)
Definition delim3 (s : pystr) : nat :=
  fold_left (fun delim c =>
               match Str.find c s with
               | Some wdelim => Nat.min delim wdelim
               | None => delim
               end)
            [SLASH; QMARK; HASH] (length s).

(** What [quote_plus] writes for a byte, once its [+] are read as
    spaces: without and with a space in the string. *)
Definition plus_quoter_1 (b : N) : pystr :=
  Str.replace PLUS [SPACE] (quoter [PLUS] b).
Definition plus_quoter_2 (b : N) : pystr :=
  Str.replace PLUS [SPACE] (Str.replace SPACE [PLUS] (quoter [PLUS; SPACE] b)).

(** The text [urlunsplit] writes, piece by piece. *)
Definition scheme_text (t : SplitResult) : pystr :=
  if Str.null (scheme t) then [] else scheme t ++ [COLON].
Definition authority_text (t : SplitResult) : pystr :=
  if writes_authority t then SLASH :: SLASH :: netloc t else [].
Definition query_text (t : SplitResult) : pystr :=
  if Str.null (query t) then [] else QMARK :: query t.
Definition fragment_text (t : SplitResult) : pystr :=
  if Str.null (fragment t) then [] else HASH :: fragment t.

(** The characters [quote] writes. *)
Definition quoted_char (safe : pystr) (c : N) : bool :=
  N.ltb c 128 && (_ALWAYS_SAFE c || Str.mem c safe || N.eqb c PERCENT).
(** * Properties *)

(** ** Strings *)

Lemma eqb_true_iff (a b : pystr) : Str.eqb a b = true <-> a = b.
Proof.
  revert b; induction a as [|x a IH]; intros [|y b]; simpl; split;
    try congruence; try discriminate.
  - intros H. apply andb_true_iff in H as [H1 H2].
    apply N.eqb_eq in H1. apply IH in H2. congruence.
  - intros H. injection H as -> ->. rewrite N.eqb_refl. simpl. now apply IH.
Qed.

Lemma eqb_same (a : pystr) : Str.eqb a a = true.
Proof. now apply eqb_true_iff. Qed.

Lemma eqb_false_iff (a b : pystr) : Str.eqb a b = false <-> a <> b.
Proof.
  rewrite <- eqb_true_iff. destruct (Str.eqb a b); split; congruence.
Qed.

Lemma mem_true_iff (c : N) (s : pystr) : Str.mem c s = true <-> In c s.
Proof.
  unfold Str.mem. rewrite existsb_exists. split.
  - intros (x & Hx & E). apply N.eqb_eq in E. now subst.
  - intros H. exists c. split; [assumption | apply N.eqb_refl].
Qed.

Lemma mem_false_iff (c : N) (s : pystr) : Str.mem c s = false <-> ~ In c s.
Proof.
  rewrite <- mem_true_iff. destruct (Str.mem c s); split; congruence.
Qed.

Lemma mem_app (c : N) (a b : pystr) :
  Str.mem c (a ++ b) = Str.mem c a || Str.mem c b.
Proof. unfold Str.mem. apply existsb_app. Qed.

Lemma mem_cons (c x : N) (s : pystr) :
  Str.mem c (x :: s) = N.eqb c x || Str.mem c s.
Proof. reflexivity. Qed.

Lemma dropwhile_app (p : N -> bool) (u v : pystr) :
  Str.dropwhile p (u ++ v)
  = if forallb p u then Str.dropwhile p v else Str.dropwhile p u ++ v.
Proof.
  induction u as [|x u IH]; simpl; [reflexivity|].
  destruct (p x); simpl; [exact IH | reflexivity].
Qed.

Lemma dropwhile_all (p : N -> bool) (s : pystr) :
  forallb p s = true -> Str.dropwhile p s = [].
Proof.
  induction s as [|x s IH]; simpl; [reflexivity|].
  destruct (p x); simpl; [exact IH | discriminate].
Qed.

Lemma dropwhile_idem (p : N -> bool) (s : pystr) :
  Str.dropwhile p (Str.dropwhile p s) = Str.dropwhile p s.
Proof.
  induction s as [|x s IH]; simpl; [reflexivity|].
  destruct (p x) eqn:E; [exact IH | simpl; now rewrite E].
Qed.

Lemma rstrip_idem (p : N -> bool) (s : pystr) :
  Str.rstrip p (Str.rstrip p s) = Str.rstrip p s.
Proof.
  unfold Str.rstrip. now rewrite rev_involutive, dropwhile_idem.
Qed.

(** Stripping on the right stops at a character outside the set. *)
Lemma rstrip_app_keep (p : N -> bool) (a b : pystr) (x : N) :
  p x = false ->
  Str.rstrip p (a ++ x :: b) = a ++ x :: Str.rstrip p b.
Proof.
  intros Hx. unfold Str.rstrip.
  rewrite rev_app_distr. simpl. rewrite <- app_assoc. simpl.
  rewrite dropwhile_app.
  destruct (forallb p (rev b)) eqn:E.
  - simpl. rewrite Hx, (dropwhile_all _ _ E). simpl.
    now rewrite rev_involutive.
  - rewrite rev_app_distr. simpl. rewrite rev_involutive, <- app_assoc.
    reflexivity.
Qed.

Lemma rstrip_snoc_keep (p : N -> bool) (a : pystr) (x : N) :
  p x = false -> Str.rstrip p (a ++ [x]) = a ++ [x].
Proof. intros Hx. now rewrite rstrip_app_keep. Qed.

Lemma forallb_dropwhile (p : N -> bool) (s : pystr) :
  forallb p s = false -> Str.dropwhile p s <> [].
Proof.
  induction s as [|x s IH]; simpl; [discriminate|].
  destruct (p x); simpl; [exact IH | discriminate].
Qed.

(** ** Unwrapping *)

Lemma unwrap_unfold (url : pystr) :
  unwrap url = unwrap_trimmed (Str.strip ws url).
Proof. reflexivity. Qed.

Lemma strip_rstrip (s : pystr) :
  Str.strip ws (Str.rstrip ws s) = Str.strip ws s.
Proof. unfold Str.strip. now rewrite rstrip_idem. Qed.

Lemma unwrap_bare (s : pystr) :
  bare (Str.strip ws s) = true -> unwrap s = Str.strip ws s.
Proof.
  intros H. rewrite unwrap_unfold. unfold unwrap_trimmed, bare in *.
  apply andb_true_iff in H as [H1 H2].
  apply negb_true_iff in H1. rewrite H1.
  apply negb_true_iff in H2. now rewrite H2.
Qed.

Lemma last1_snoc (a : pystr) (x : N) : Str.last1 (a ++ [x]) = [x].
Proof. unfold Str.last1. now rewrite rev_app_distr. Qed.

Lemma strip_in_brackets (x : pystr) :
  Str.strip ws (in_brackets x) = in_brackets x.
Proof.
  unfold Str.strip, in_brackets.
  change (LT_SIGN :: x ++ [GT_SIGN]) with ((LT_SIGN :: x) ++ [GT_SIGN]).
  rewrite rstrip_snoc_keep by reflexivity. reflexivity.
Qed.

Lemma strip_url_prefixed (x : pystr) :
  Str.strip ws (url_prefixed x) = url_prefixed (Str.rstrip ws x).
Proof.
  unfold Str.strip, url_prefixed.
  change (py "URL:" ++ x) with (py "URL" ++ COLON :: x).
  rewrite rstrip_app_keep by reflexivity. reflexivity.
Qed.

(** [URL:X] unwraps to [X] trimmed. *)
Lemma unwrap_url_prefixed (x : pystr) :
  unwrap (url_prefixed x) = Str.strip ws x.
Proof.
  rewrite unwrap_unfold, strip_url_prefixed. unfold unwrap_trimmed.
  cbn [url_prefixed py map list_ascii_of_string app firstn Str.eqb Str.last1
       N_of_ascii N.eqb Pos.eqb andb skipn].
  change (N_of_ascii "U") with 85%N.
  cbn. apply strip_rstrip.
Qed.

Lemma removelast_snoc (a : pystr) (x : N) : removelast (a ++ [x]) = a.
Proof. now rewrite removelast_app, app_nil_r by discriminate. Qed.

(** [<X>] unwraps to [X] trimmed, and once more if that begins with [URL:]. *)
Lemma unwrap_in_brackets (x : pystr) :
  unwrap (in_brackets x)
  = let url := Str.strip ws x in
    if Str.eqb (firstn 4 url) (py "URL:")
    then Str.strip ws (skipn 4 url) else url.
Proof.
  rewrite unwrap_unfold, strip_in_brackets. unfold unwrap_trimmed.
  assert (E : Str.eqb (firstn 1 (in_brackets x)) [LT_SIGN]
              && Str.eqb (Str.last1 (in_brackets x)) [GT_SIGN] = true).
  { unfold in_brackets.
    change (LT_SIGN :: x ++ [GT_SIGN]) with ((LT_SIGN :: x) ++ [GT_SIGN]).
    rewrite last1_snoc. reflexivity. }
  rewrite E. unfold in_brackets. cbn [tl].
  now rewrite removelast_snoc.
Qed.

(** [<URL:X>] unwraps to [X] trimmed. *)
Lemma unwrap_in_brackets_url_prefixed (x : pystr) :
  unwrap (in_brackets (url_prefixed x)) = Str.strip ws x.
Proof.
  rewrite unwrap_in_brackets. cbv zeta.
  rewrite strip_url_prefixed.
  change (firstn 4 (url_prefixed (Str.rstrip ws x))) with (py "URL:").
  rewrite eqb_same.
  change (skipn 4 (url_prefixed (Str.rstrip ws x))) with (Str.rstrip ws x).
  apply strip_rstrip.
Qed.

(** ** Inputs with and without data *)

Lemma has_data_false_iff (data : pystr) :
  has_data data = false <-> Forall (fun c => Str.is_space c = true) data.
Proof.
  unfold has_data, Str.isspace. rewrite Forall_forall, <- forallb_forall.
  destruct data as [|c data]; [simpl; split; reflexivity|].
  cbn [Str.null negb andb]. now rewrite negb_false_iff.
Qed.

Lemma has_data_cons (c : N) (data : pystr) :
  Str.is_space c = false -> has_data (c :: data) = true.
Proof. intros H. unfold has_data, Str.isspace. simpl. now rewrite H. Qed.

Lemma has_data_in_brackets (x : pystr) : has_data (in_brackets x) = true.
Proof. now apply has_data_cons. Qed.

Lemma has_data_url_prefixed (x : pystr) : has_data (url_prefixed x) = true.
Proof. now apply has_data_cons. Qed.

(** The parser sees its input only through [has_data] and [unwrap]. *)
Lemma parse_congr (d1 d2 : pystr) (raw quiet : bool) :
  has_data d1 = has_data d2 -> unwrap d1 = unwrap d2 ->
  parse d1 raw quiet = parse d2 raw quiet.
Proof. intros H1 H2. unfold parse. now rewrite H1, H2. Qed.

(** ** C1: empty and whitespace-only input *)

(** C1 (as amended): for every input that is empty or consists of
    whitespace only, [parse] does not fail and returns the empty
    dictionary: the keys of the schema are absent, not null.  The record
    with the thirteen keys present and null is what [parse] returns for
    every input that has a character other than whitespace and is empty
    once unwrapped. *)
Theorem parse_without_data_is_empty :
  forall (data : pystr) (raw quiet : bool),
    (Forall (fun c => Str.is_space c = true) data ->
     parse data raw quiet = Ok [])
    /\ (has_data data = true -> unwrap data = [] ->
        parse data raw quiet = Ok null_record).
Proof.
  intros data raw quiet. split.
  - intros H. apply has_data_false_iff in H.
    unfold parse. rewrite H. now destruct raw.
  - intros Hd Hu. unfold parse. rewrite Hd, Hu. now destruct raw.
Qed.

(** ** C7: unwrap invariance *)

(** C7 (as amended): for every string [X] that has a character other
    than whitespace and that, once trimmed, is neither enclosed in angle
    brackets nor prefixed with [URL:], the inputs [X], [<X>], [URL:X] and
    [<URL:X>] give the same result. *)
Theorem unwrap_invariance :
  forall (X : pystr) (raw quiet : bool),
    has_data X = true ->
    bare (Str.strip Str.is_space X) = true ->
    parse (in_brackets X) raw quiet = parse X raw quiet
    /\ parse (url_prefixed X) raw quiet = parse X raw quiet
    /\ parse (in_brackets (url_prefixed X)) raw quiet = parse X raw quiet.
Proof.
  intros X raw quiet HX Hbare.
  pose proof (unwrap_bare _ Hbare) as HU.
  assert (H4 : Str.eqb (firstn 4 (Str.strip ws X)) (py "URL:") = false).
  { unfold bare in Hbare. apply andb_true_iff in Hbare as [_ H].
    now apply negb_true_iff in H. }
  repeat split; apply parse_congr.
  - now rewrite has_data_in_brackets.
  - rewrite unwrap_in_brackets. cbv zeta. now rewrite H4, HU.
  - now rewrite has_data_url_prefixed.
  - now rewrite unwrap_url_prefixed, HU.
  - now rewrite has_data_in_brackets.
  - now rewrite unwrap_in_brackets_url_prefixed, HU.
Qed.

(** ** The shape of a successful parse *)

Lemma bind_ok_inv {A B} (m : result A) (k : A -> result B) (b : B) :
  bind m k = Ok b -> exists a, m = Ok a /\ k a = Ok b.
Proof. destruct m as [a|e]; simpl; [eauto | discriminate]. Qed.

Lemma process_raw (raw : bool) (d : Dict) :
  (if raw then d else _process d) = d.
Proof. now destruct raw. Qed.

(** [parse] as the sequence of its steps. *)
Lemma parse_unfold (data : pystr) (raw quiet : bool) :
  parse data raw quiet
  = if has_data data then
      parts <- urlsplit (unwrap data) ;;
      normalized <- urlsplit (urlunsplit parts) ;;
      quoted_path <- quote (path normalized) (py "/") ;;
      quoted_query <- quote_plus (query normalized) (py "+") ;;
      unquoted_parts <- urlsplit (unquoted_of normalized) ;;
      port_value <- port parts ;;
      Ok (record_of parts normalized quoted_path quoted_query
                    unquoted_parts port_value)
    else Ok [].
Proof.
  unfold parse. destruct (has_data data); [|now destruct raw].
  destruct (urlsplit (unwrap data)) as [parts|]; cbn [bind]; [|reflexivity].
  destruct (urlsplit (urlunsplit parts)) as [normalized|]; cbn [bind];
    [|reflexivity].
  destruct (quote (path normalized) (py "/")) as [qp|]; cbn [bind];
    [|reflexivity].
  destruct (quote_plus (query normalized) (py "+")) as [qq|]; cbn [bind];
    [|reflexivity].
  fold (unquoted_of normalized).
  destruct (urlsplit (unquoted_of normalized)) as [up|]; cbn [bind];
    [|reflexivity].
  unfold record_of, my_path_of, path_list_of, query_obj_of, query_list_of,
    quoted_of.
  destruct (negb (Str.null (path up))), (negb (Str.null (query up)));
    try destruct (Str.split SLASH _) as [|[|? ?] [|? ?]];
    destruct (port parts); cbn [bind]; rewrite ?process_raw; reflexivity.
Qed.

(** A successful parse either saw no data and returned the empty
    dictionary, or ran every step. *)
Lemma parse_ok_inv (data : pystr) (raw quiet : bool) (r : Dict) :
  parse data raw quiet = Ok r ->
  (has_data data = false /\ r = []) \/ (has_data data = true /\ parsed data r).
Proof.
  rewrite parse_unfold. intros H.
  destruct (has_data data); [right | left; split; congruence].
  split; [reflexivity|].
  apply bind_ok_inv in H as (parts & H1 & H).
  apply bind_ok_inv in H as (normalized & H2 & H).
  apply bind_ok_inv in H as (qp & H3 & H).
  apply bind_ok_inv in H as (qq & H4 & H).
  apply bind_ok_inv in H as (up & H5 & H).
  apply bind_ok_inv in H as (pv & H6 & H).
  injection H as <-.
  exact (Parsed data H1 H2 H3 H4 H5 H6).
Qed.

(** ** Splitting and joining *)

Lemma split_nonempty (c : N) (s : pystr) : Str.split c s <> [].
Proof.
  destruct s as [|x s]; simpl; [discriminate|].
  destruct (N.eqb x c); [discriminate|].
  destruct (Str.split c s); discriminate.
Qed.

Lemma split_cons_sep (c : N) (s : pystr) :
  Str.split c (c :: s) = [] :: Str.split c s.
Proof. simpl. now rewrite N.eqb_refl. Qed.

Lemma split_cons_other (c x : N) (s : pystr) :
  x <> c ->
  exists h t, Str.split c s = h :: t /\ Str.split c (x :: s) = (x :: h) :: t.
Proof.
  intros Hx. simpl. apply N.eqb_neq in Hx. rewrite Hx.
  destruct (Str.split c s) as [|h t] eqn:E.
  - now apply split_nonempty in E.
  - now exists h, t.
Qed.

Lemma join_cons2 (sep x y : pystr) (t : list pystr) :
  Str.join sep (x :: y :: t) = x ++ sep ++ Str.join sep (y :: t).
Proof. reflexivity. Qed.

(** Joining the pieces of a split with the separator gives the string back. *)
Lemma join_split (c : N) (s : pystr) : Str.join [c] (Str.split c s) = s.
Proof.
  induction s as [|x s IH]; [reflexivity|].
  destruct (N.eq_dec x c) as [->|Hx].
  - rewrite split_cons_sep.
    destruct (Str.split c s) as [|h t] eqn:E; [now apply split_nonempty in E|].
    rewrite join_cons2, IH. reflexivity.
  - destruct (split_cons_other s Hx) as (h & t & E1 & E2).
    rewrite E2. rewrite E1 in IH.
    destruct t as [|h' t].
    + simpl in *. now rewrite IH.
    + rewrite join_cons2 in *. rewrite <- IH. reflexivity.
Qed.

Lemma split_single_empty (c : N) (s : pystr) :
  Str.split c s = [[]] <-> s = [].
Proof.
  split; [|now intros ->].
  intros H. rewrite <- (join_split c s), H. reflexivity.
Qed.

(** ** Duplicate slashes *)

Lemma squeeze_cons (c x : N) (s : pystr) :
  Str.squeeze c (x :: s)
  = match s with
    | y :: _ => if N.eqb x c && N.eqb y c then Str.squeeze c s
                else x :: Str.squeeze c s
    | [] => [x]
    end.
Proof. destruct s; reflexivity. Qed.

Lemma squeeze_head (c : N) (s : pystr) :
  hd_error (Str.squeeze c s) = hd_error s.
Proof.
  induction s as [|x s IH]; [reflexivity|].
  rewrite squeeze_cons. destruct s as [|y s]; [reflexivity|].
  destruct (N.eqb x c && N.eqb y c) eqn:E; [|reflexivity].
  rewrite IH. apply andb_true_iff in E as [E1 E2].
  apply N.eqb_eq in E1, E2. now subst.
Qed.

Lemma squeeze_idem (c : N) (s : pystr) :
  Str.squeeze c (Str.squeeze c s) = Str.squeeze c s.
Proof.
  induction s as [|x s IH]; [reflexivity|].
  rewrite squeeze_cons. destruct s as [|y s]; [reflexivity|].
  destruct (N.eqb x c && N.eqb y c) eqn:E; [exact IH|].
  rewrite squeeze_cons.
  pose proof (squeeze_head c (y :: s)) as Hh.
  destruct (Str.squeeze c (y :: s)) as [|z s'] eqn:Es; [reflexivity|].
  simpl in Hh. injection Hh as ->. rewrite E. now rewrite IH.
Qed.

Lemma squeeze_nonempty (c : N) (s : pystr) :
  s <> [] -> Str.squeeze c s <> [].
Proof.
  intros H E. pose proof (squeeze_head c s) as Hh. rewrite E in Hh.
  destruct s; [congruence | discriminate].
Qed.

(** ** Reading the fields of the record *)

Section Fields.
Variables (parts normalized : SplitResult) (qp qq : pystr)
          (up : SplitResult) (pv : option N).
Let r := record_of parts normalized qp qq up pv.

Lemma get_quoted : get "quoted" r = Some (str_or_None (quoted_of normalized qp qq)).
Proof. reflexivity. Qed.
Lemma get_unquoted : get "unquoted" r = Some (str_or_None (unquoted_of normalized)).
Proof. reflexivity. Qed.
Lemma get_scheme : get "scheme" r = Some (str_or_None (scheme parts)).
Proof. reflexivity. Qed.
Lemma get_netloc : get "netloc" r = Some (str_or_None (netloc parts)).
Proof. reflexivity. Qed.
Lemma get_path : get "path" r = Some (optstr_or_None (my_path_of up)).
Proof. reflexivity. Qed.
Lemma get_path_list : get "path_list" r = Some (list_or_None (path_list_of up)).
Proof. reflexivity. Qed.
Lemma get_query : get "query" r = Some (dict_or_None (query_obj_of up)).
Proof. reflexivity. Qed.
Lemma get_query_list : get "query_list" r = Some (pairs_or_None (query_list_of up)).
Proof. reflexivity. Qed.
Lemma get_fragment : get "fragment" r = Some (str_or_None (fragment parts)).
Proof. reflexivity. Qed.
Lemma get_username : get "username" r = Some (of_optstr (username parts)).
Proof. reflexivity. Qed.
Lemma get_password : get "password" r = Some (of_optstr (password parts)).
Proof. reflexivity. Qed.
Lemma get_hostname : get "hostname" r = Some (of_optstr (hostname parts)).
Proof. reflexivity. Qed.
Lemma get_port : get "port" r = Some (of_optint pv).
Proof. reflexivity. Qed.
End Fields.

Lemma str_or_None_inv (s p : pystr) :
  str_or_None s = PyStr p -> s = p /\ p <> [].
Proof.
  unfold str_or_None. destruct s; simpl; [discriminate|].
  intros H. injection H as <-. split; [reflexivity | discriminate].
Qed.

Lemma get_empty (k : string) : get k [] = None.
Proof. reflexivity. Qed.

Lemma startswith_char (c : N) (s : pystr) :
  Str.startswith [c] s = true -> exists t, s = c :: t.
Proof.
  destruct s as [|x t]; [discriminate|].
  unfold Str.startswith. intros H. apply andb_true_iff in H as [H _].
  apply N.eqb_eq in H. subst x. now exists t.
Qed.

(** ** The path of the record *)

(** The path of the record is the path of the split of the unquoted
    string with its runs of slashes collapsed. *)
Lemma path_field_inv (up : SplitResult) (p : pystr) :
  optstr_or_None (my_path_of up) = PyStr p ->
  p = Str.squeeze SLASH (path up) /\ p <> [].
Proof.
  unfold my_path_of. destruct (negb (Str.null (path up))); [|discriminate].
  simpl. intros H. apply str_or_None_inv in H as [H1 H2]. now split.
Qed.

(** ** Partition and split *)

Lemma partition_not_found (c : N) (s : pystr) :
  Str.mem c s = false -> Str.partition c s = (s, false, []).
Proof.
  induction s as [|x s IH]; [reflexivity|].
  rewrite mem_cons. intros H. apply orb_false_iff in H as [H1 H2].
  simpl. rewrite N.eqb_sym, H1. now rewrite IH.
Qed.

Lemma partition_found (c : N) (a b : pystr) :
  Str.mem c a = false -> Str.partition c (a ++ c :: b) = (a, true, b).
Proof.
  induction a as [|x a IH]; intros H.
  - simpl. now rewrite N.eqb_refl.
  - rewrite mem_cons in H. apply orb_false_iff in H as [H1 H2].
    simpl. rewrite N.eqb_sym, H1. now rewrite IH.
Qed.

(** Every string is cut by [partition] at the first separator, if any. *)
Lemma partition_spec (c : N) (s : pystr) :
  (Str.mem c s = false /\ Str.partition c s = (s, false, []))
  \/ (exists a b, s = a ++ c :: b /\ Str.mem c a = false
                  /\ Str.partition c s = (a, true, b)).
Proof.
  induction s as [|x s IH]; [left; now split|].
  destruct (N.eqb x c) eqn:E.
  - right. apply N.eqb_eq in E. subst x. exists [], s.
    repeat split. simpl. now rewrite N.eqb_refl.
  - destruct IH as [[H1 H2]|(a & b & H1 & H2 & H3)].
    + left. rewrite mem_cons, N.eqb_sym, E, H1. split; [reflexivity|].
      simpl. now rewrite E, H2.
    + right. exists (x :: a), b. subst s. repeat split.
      * now rewrite mem_cons, N.eqb_sym, E, H2.
      * simpl. simpl in H3. now rewrite E, H3.
Qed.

Lemma split_no_sep (c : N) (s : pystr) :
  Str.mem c s = false -> Str.split c s = [s].
Proof.
  induction s as [|x s IH]; [reflexivity|].
  rewrite mem_cons. intros H. apply orb_false_iff in H as [H1 H2].
  simpl. rewrite N.eqb_sym, H1. now rewrite IH.
Qed.

Lemma split_app_sep (c : N) (a b : pystr) :
  Str.mem c a = false -> Str.split c (a ++ c :: b) = a :: Str.split c b.
Proof.
  induction a as [|x a IH]; intros H.
  - simpl. now rewrite N.eqb_refl.
  - rewrite mem_cons in H. apply orb_false_iff in H as [H1 H2].
    simpl. rewrite N.eqb_sym, H1. now rewrite IH.
Qed.

(** Splitting a join of pieces that hold no separator gives the pieces. *)
Lemma split_join (c : N) (fs : list pystr) :
  fs <> [] -> Forall (fun f => Str.mem c f = false) fs ->
  Str.split c (Str.join [c] fs) = fs.
Proof.
  induction fs as [|x fs IH]; [congruence|].
  intros _ H. inversion H as [|? ? Hx Hfs]; subst.
  destruct fs as [|y fs]; [now apply split_no_sep|].
  rewrite join_cons2. cbn [app].
  rewrite split_app_sep by assumption.
  now rewrite IH.
Qed.

(** ** Query strings *)

Lemma parse_qsl_unfold (qs : pystr) :
  parse_qsl qs
  = flat_map pair_of_field (if Str.null qs then [] else Str.split AMPERSAND qs).
Proof. reflexivity. Qed.

(** The pairs of a query string are those of its fields, in order. *)
Lemma parse_qsl_fields (fs : list pystr) :
  Forall (fun f => Str.mem AMPERSAND f = false) fs ->
  parse_qsl (Str.join [AMPERSAND] fs) = flat_map pair_of_field fs.
Proof.
  intros H. rewrite parse_qsl_unfold.
  destruct fs as [|f fs]; [reflexivity|].
  pose proof (@split_join AMPERSAND (f :: fs) ltac:(discriminate) H) as E.
  destruct (Str.join [AMPERSAND] (f :: fs)) eqn:J.
  - simpl in E. rewrite <- E. reflexivity.
  - cbn [Str.null]. now rewrite E.
Qed.

Lemma pair_of_field_blank (f : pystr) :
  blank_valued f = true -> pair_of_field f = [].
Proof.
  unfold blank_valued, pair_of_field, Str.split1.
  destruct (Str.partition EQUALS f) as [[a has_eq] b].
  intros H. apply andb_true_iff in H as [-> H].
  rewrite H. now destruct (Str.null f).
Qed.

Lemma flat_map_filter {A B} (F : A -> list B) (p : A -> bool) (l : list A) :
  (forall x, p x = false -> F x = []) ->
  flat_map F (filter p l) = flat_map F l.
Proof.
  intros H. induction l as [|x l IH]; [reflexivity|].
  simpl. destruct (p x) eqn:E; simpl; [now rewrite IH|].
  now rewrite (H x E), IH.
Qed.

Lemma Forall_filter {A} (P : A -> Prop) (p : A -> bool) (l : list A) :
  Forall P l -> Forall P (filter p l).
Proof.
  induction 1 as [|x l Hx Hl IH]; simpl; [constructor|].
  destruct (p x); [constructor|]; assumption.
Qed.

(** Fields with a blank value do not count. *)
Lemma parse_qsl_without_blanks (fs : list pystr) :
  Forall (fun f => Str.mem AMPERSAND f = false) fs ->
  parse_qsl (Str.join [AMPERSAND] (filter (fun f => negb (blank_valued f)) fs))
  = parse_qsl (Str.join [AMPERSAND] fs).
Proof.
  intros H.
  rewrite !parse_qsl_fields by (try apply Forall_filter; assumption).
  apply flat_map_filter. intros f Hf. apply negb_false_iff in Hf.
  now apply pair_of_field_blank.
Qed.

Lemma parse_qs_unfold (qs : pystr) :
  parse_qs qs
  = fold_left (fun d nv => qdict_add d (fst nv) (snd nv)) (parse_qsl qs) [].
Proof. reflexivity. Qed.

Lemma query_list_field (up : SplitResult) :
  pairs_or_None (query_list_of up) = pairs_or_None (Some (parse_qsl (query up))).
Proof.
  unfold query_list_of. now destruct (query up).
Qed.

Lemma query_field (up : SplitResult) :
  dict_or_None (query_obj_of up) = dict_or_None (Some (parse_qs (query up))).
Proof.
  unfold query_obj_of. now destruct (query up).
Qed.

(** The split of the unquoted string of the record is the one [parse]
    took the path and the query from. *)
Lemma parsed_unquoted (data : pystr) (r : Dict) :
  parsed data r ->
  exists parts normalized qp qq up pv,
    r = record_of parts normalized qp qq up pv
    /\ urlsplit (unquoted_of normalized) = Ok up
    /\ urlsplit (unwrap data) = Ok parts.
Proof.
  intros [parts normalized qp qq up pv H1 _ _ _ H5 _].
  now exists parts, normalized, qp, qq, up, pv.
Qed.

Lemma unquoted_split_unique (data : pystr) (r : Dict) (u : pystr)
      (up : SplitResult) :
  parsed data r ->
  get "unquoted" r = Some (PyStr u) -> urlsplit u = Ok up ->
  get "query_list" r = Some (pairs_or_None (Some (parse_qsl (query up))))
  /\ get "query" r = Some (dict_or_None (Some (parse_qs (query up))))
  /\ get "path" r = Some (optstr_or_None (my_path_of up))
  /\ get "path_list" r = Some (list_or_None (path_list_of up)).
Proof.
  intros Hp Hu Hs.
  destruct (parsed_unquoted Hp) as (parts & normalized & qp & qq & up' & pv
                                    & -> & H5 & _).
  rewrite get_unquoted in Hu. injection Hu as Hu.
  apply str_or_None_inv in Hu as [Hu _]. rewrite Hu in H5.
  rewrite H5 in Hs. injection Hs as ->.
  rewrite get_query_list, get_query, get_path, get_path_list,
    query_list_field, query_field.
  repeat split.
Qed.

(** ** C10: blank values *)

(** C10: for every successful parse, a field [key=] of the query of the
    unquoted string (a key with an empty value) leaves no trace: [query]
    and [query_list] are those of the query string with every such field
    removed. *)
Theorem blank_values_are_dropped :
  forall (data : pystr) (raw quiet : bool) (r : Dict) (u : pystr)
         (up : SplitResult) (fields : list pystr),
    parse data raw quiet = Ok r ->
    get "unquoted" r = Some (PyStr u) ->
    urlsplit u = Ok up ->
    query up = Str.join [AMPERSAND] fields ->
    Forall (fun f => Str.mem AMPERSAND f = false) fields ->
    let kept := filter (fun f => negb (blank_valued f)) fields in
    get "query_list" r
      = Some (pairs_or_None (Some (parse_qsl (Str.join [AMPERSAND] kept))))
    /\ get "query" r
       = Some (dict_or_None (Some (parse_qs (Str.join [AMPERSAND] kept)))).
Proof.
  intros data raw quiet r u up fields Hparse Hu Hs Hq Hf kept.
  apply parse_ok_inv in Hparse as [[_ ->]|[_ Hp]]; [discriminate|].
  destruct (unquoted_split_unique Hp Hu Hs) as (E1 & E2 & _).
  rewrite E1, E2, Hq. unfold kept.
  rewrite !parse_qs_unfold, parse_qsl_without_blanks by assumption.
  split; reflexivity.
Qed.

(** ** The two representations of the query *)

Lemma replace_absent (c : N) (new s : pystr) :
  Str.mem c s = false -> Str.replace c new s = s.
Proof.
  induction s as [|x s IH]; [reflexivity|]. intros H.
  rewrite mem_cons in H. apply orb_false_iff in H as [H1 H2].
  unfold Str.replace in *. simpl. rewrite N.eqb_sym, H1. simpl.
  now rewrite IH.
Qed.

Lemma unquote_no_percent (s : pystr) :
  Str.mem PERCENT s = false -> unquote s = s.
Proof. intros H. unfold unquote. now rewrite H. Qed.

Lemma plain_key_inv (k : pystr) :
  plain_key k = true ->
  Str.mem AMPERSAND k = false /\ Str.mem EQUALS k = false
  /\ Str.mem PERCENT k = false /\ Str.mem PLUS k = false.
Proof.
  unfold plain_key. rewrite !andb_true_iff, !negb_true_iff. tauto.
Qed.

Lemma plain_value_inv (v : pystr) :
  plain_value v = true ->
  v <> [] /\ Str.mem AMPERSAND v = false
  /\ Str.mem PERCENT v = false /\ Str.mem PLUS v = false.
Proof.
  unfold plain_value. rewrite !andb_true_iff, !negb_true_iff.
  intros [[[H1 H2] H3] H4]. repeat split; try assumption.
  now destruct v.
Qed.

(** A plain field stands for the pair of its key and value, unchanged. *)
Lemma pair_of_field_plain (k v : pystr) :
  plain_key k = true -> plain_value v = true ->
  pair_of_field (field k v) = [(k, v)].
Proof.
  intros Hk Hv.
  apply plain_key_inv in Hk as (_ & Hk2 & Hk3 & Hk4).
  apply plain_value_inv in Hv as (Hv1 & _ & Hv3 & Hv4).
  unfold pair_of_field, field, Str.split1.
  rewrite partition_found by assumption.
  destruct (Str.null (k ++ EQUALS :: v)) eqn:E; [now destruct k|].
  destruct v as [|x v]; [congruence|]. cbn [Str.null negb].
  now rewrite !replace_absent, !unquote_no_percent by assumption.
Qed.

Lemma field_no_ampersand (k v : pystr) :
  plain_key k = true -> plain_value v = true ->
  Str.mem AMPERSAND (field k v) = false.
Proof.
  intros Hk Hv.
  apply plain_key_inv in Hk as (Hk1 & _).
  apply plain_value_inv in Hv as (_ & Hv2 & _).
  unfold field. rewrite mem_app, mem_cons, Hk1, Hv2. reflexivity.
Qed.

(** Adding a value under a name adds that association and no other. *)
Lemma qdict_add_assoc (d : qdict) (n x k v : pystr) :
  (exists vs, In (k, vs) (qdict_add d n x) /\ In v vs)
  <-> (exists vs, In (k, vs) d /\ In v vs) \/ (k = n /\ v = x).
Proof.
  induction d as [|[k0 vs0] d IH]; simpl.
  - split.
    + intros (vs & [E|[]] & Hv). injection E as <- <-.
      destruct Hv as [<-|[]]. now right.
    + intros [(vs & [] & _)|[-> ->]]. exists [x]. split; now left.
  - destruct (Str.eqb k0 n) eqn:E.
    + apply eqb_true_iff in E. subst k0. split.
      * intros (vs & [E|Hin] & Hv).
        -- injection E as <- <-. apply in_app_or in Hv as [Hv|[<-|[]]].
           ++ left. exists vs0. split; [now left | assumption].
           ++ now right.
        -- left. exists vs. split; [now right | assumption].
      * intros [(vs & [E|Hin] & Hv)|[-> ->]].
        -- injection E as <- <-. exists (vs0 ++ [x]).
           split; [now left | apply in_or_app; now left].
        -- exists vs. split; [now right | assumption].
        -- exists (vs0 ++ [x]).
           split; [now left | apply in_or_app; right; now left].
    + split.
      * intros (vs & [E'|Hin] & Hv).
        -- injection E' as <- <-. left. exists vs0. split; [now left | assumption].
        -- destruct (proj1 IH (ex_intro _ vs (conj Hin Hv)))
             as [(vs' & H1 & H2)|H].
           ++ left. exists vs'. split; [now right | assumption].
           ++ now right.
      * intros [(vs & [E'|Hin] & Hv)|H].
        -- injection E' as <- <-. exists vs0. split; [now left | assumption].
        -- destruct (proj2 IH (or_introl (ex_intro _ vs (conj Hin Hv))))
             as (vs' & H1 & H2).
           exists vs'. split; [now right | assumption].
        -- destruct (proj2 IH (or_intror H)) as (vs' & H1 & H2).
           exists vs'. split; [now right | assumption].
Qed.

Lemma fold_qdict_add_assoc (l : list (pystr * pystr)) (d : qdict) (k v : pystr) :
  (exists vs,
      In (k, vs) (fold_left (fun d nv => qdict_add d (fst nv) (snd nv)) l d)
      /\ In v vs)
  <-> (exists vs, In (k, vs) d /\ In v vs) \/ In (k, v) l.
Proof.
  revert d. induction l as [|[n x] l IH]; intros d; simpl.
  - tauto.
  - rewrite IH, qdict_add_assoc. simpl. split.
    + intros [[H|[-> ->]]|H]; auto.
    + intros [H|[E|H]]; auto. injection E as -> ->. auto.
Qed.

(** [parse_qs] and [parse_qsl] hold the same associations. *)
Lemma parse_qs_same_associations (qs : pystr) :
  same_associations (parse_qs qs) (parse_qsl qs).
Proof.
  intros k v. rewrite parse_qs_unfold, fold_qdict_add_assoc. simpl. split.
  - auto.
  - intros [(vs & [] & _)|H]; assumption.
Qed.

Lemma fold_qdict_add_nonempty (l : list (pystr * pystr)) (d : qdict) :
  (d <> [] \/ l <> []) ->
  fold_left (fun d nv => qdict_add d (fst nv) (snd nv)) l d <> [].
Proof.
  revert d. induction l as [|[n x] l IH]; intros d [H|H]; simpl;
    try congruence; apply IH; left;
    destruct d as [|[k vs] d]; simpl; try discriminate;
    destruct (Str.eqb k n); discriminate.
Qed.

Lemma parse_qs_empty_iff (qs : pystr) :
  parse_qs qs = [] <-> parse_qsl qs = [].
Proof.
  rewrite parse_qs_unfold. split.
  - intros H. destruct (parse_qsl qs) as [|p l] eqn:E; [reflexivity|].
    exfalso. revert H. apply fold_qdict_add_nonempty. right. discriminate.
  - now intros ->.
Qed.

Lemma record_query_fields_consistent (parts normalized : SplitResult)
      (qp qq : pystr) (up : SplitResult) (pv : option N) :
  query_fields_consistent (record_of parts normalized qp qq up pv).
Proof.
  unfold query_fields_consistent.
  rewrite get_query, get_query_list, query_field, query_list_field.
  pose proof (parse_qs_same_associations (query up)) as H.
  pose proof (parse_qs_empty_iff (query up)) as E.
  destruct (parse_qs (query up)) as [|x d], (parse_qsl (query up)) as [|y l];
    simpl; try exact I; try exact H.
  - destruct E as [E _]. now specialize (E eq_refl).
  - destruct E as [_ E]. now specialize (E eq_refl).
Qed.

(** X18: the two representations of the query agree.  In every record
    [parse] returns, [query] and [query_list] are mutually consistent
    (both null, or holding the same key-value associations); and when the
    query of the unquoted string is [k1=v1&k1=v2&k2=v3] with distinct
    keys, non-empty values, and keys and values free of [&], [%] and [+]
    (keys also of [=]), [query] maps [k1] to [[v1; v2]] and [k2] to
    [[v3]], and [query_list] is [[(k1,v1); (k1,v2); (k2,v3)]]. *)
Theorem query_and_query_list_agree :
  forall (data : pystr) (raw quiet : bool) (r : Dict),
    parse data raw quiet = Ok r ->
    query_fields_consistent r
    /\ forall (u : pystr) (up : SplitResult) (k1 k2 v1 v2 v3 : pystr),
        get "unquoted" r = Some (PyStr u) ->
        urlsplit u = Ok up ->
        query up = Str.join [AMPERSAND] [field k1 v1; field k1 v2; field k2 v3] ->
        plain_key k1 = true -> plain_key k2 = true -> k1 <> k2 ->
        plain_value v1 = true -> plain_value v2 = true ->
        plain_value v3 = true ->
        get "query" r = Some (PyDict [(k1, [v1; v2]); (k2, [v3])])
        /\ get "query_list" r = Some (PyPairs [(k1, v1); (k1, v2); (k2, v3)]).
Proof.
  intros data raw quiet r Hparse.
  apply parse_ok_inv in Hparse as [[_ ->]|[_ Hp]].
  { split; [exact I | discriminate]. }
  split.
  { destruct Hp. apply record_query_fields_consistent. }
  intros u up k1 k2 v1 v2 v3 Hu Hs Hq Hk1 Hk2 Hne Hv1 Hv2 Hv3.
  destruct (unquoted_split_unique Hp Hu Hs) as (E1 & E2 & _).
  assert (Hl : parse_qsl (query up) = [(k1, v1); (k1, v2); (k2, v3)]).
  { rewrite Hq, parse_qsl_fields.
    - simpl. now rewrite !pair_of_field_plain.
    - repeat constructor; now apply field_no_ampersand. }
  rewrite E1, E2, parse_qs_unfold, Hl. cbn [fold_left qdict_add fst snd].
  rewrite eqb_same. cbn [qdict_add app].
  apply eqb_false_iff in Hne. rewrite Hne.
  split; reflexivity.
Qed.

(** ** The stages of [urlsplit] *)

(** Boolean tests on characters, as arithmetic. *)
Ltac char_arith :=
  unfold plain_char, visible, scheme_chars, is_delim, Str.is_alpha, Str.is_lower, Str.is_upper,
    Str.is_digit, Str.is_hexdig, _ALWAYS_SAFE, _WHATWG_C0_CONTROL_OR_SPACE,
    _UNSAFE_URL_BYTES_TO_REMOVE, Str.is_space in *;
  repeat match goal with
         | H : _ = true |- _ =>
             progress (rewrite ?orb_true_iff, ?andb_true_iff, ?negb_true_iff,
                        ?N.leb_le, ?N.ltb_lt, ?N.eqb_eq in H)
         | H : _ = false |- _ =>
             progress (rewrite ?orb_false_iff, ?andb_false_iff,
                        ?negb_false_iff, ?N.leb_gt, ?N.ltb_ge, ?N.eqb_neq in H)
         end;
  rewrite ?orb_true_iff, ?andb_true_iff, ?negb_true_iff, ?orb_false_iff,
    ?andb_false_iff, ?negb_false_iff, ?N.leb_le, ?N.ltb_lt, ?N.eqb_eq,
    ?N.leb_gt, ?N.ltb_ge, ?N.eqb_neq;
  try lia.

Lemma scheme_chars_ascii (s : pystr) :
  forallb scheme_chars s = true -> Str.isascii s = true.
Proof.
  unfold Str.isascii. rewrite !forallb_forall. intros H c Hc.
  specialize (H c Hc). char_arith.
Qed.

Lemma str_lower_scheme (s : pystr) :
  forallb scheme_chars s = true -> str_lower s = Str.ascii_lower s.
Proof.
  intros H. unfold str_lower. now rewrite (scheme_chars_ascii _ H).
Qed.

Lemma delim3_cons_delim (x : N) (s : pystr) :
  is_delim x = true -> delim3 (x :: s) = O.
Proof.
  intros H. unfold delim3. cbn [fold_left Str.find length].
  unfold is_delim in H. rewrite !orb_true_iff, !N.eqb_eq in H.
  destruct H as [[->| ->]| ->]; cbn [N.eqb Pos.eqb];
    repeat match goal with
           | |- context [match option_map S ?o with _ => _ end] =>
               destruct o; cbn [option_map]
           end; lia.
Qed.

Lemma delim3_cons_other (x : N) (s : pystr) :
  is_delim x = false -> delim3 (x :: s) = S (delim3 s).
Proof.
  intros H. unfold delim3. cbn [fold_left Str.find length].
  unfold is_delim in H. rewrite !orb_false_iff in H.
  destruct H as [[H1 H2] H3]. rewrite H1, H2, H3.
  destruct (Str.find SLASH s), (Str.find QMARK s), (Str.find HASH s);
    cbn [option_map]; lia.
Qed.

Lemma break_delim3 (s : pystr) :
  break is_delim s = (firstn (delim3 s) s, skipn (delim3 s) s).
Proof.
  induction s as [|x s IH]; [reflexivity|].
  cbn [break]. destruct (is_delim x) eqn:E.
  - now rewrite delim3_cons_delim.
  - rewrite delim3_cons_other, IH by assumption. reflexivity.
Qed.

Lemma splitnetloc_break (x y : N) (s : pystr) :
  _splitnetloc (x :: y :: s) 2 = break is_delim s.
Proof.
  rewrite break_delim3. unfold _splitnetloc, Str.find_from, Str.slice.
  cbn [skipn fold_left length].
  assert (E : forall d c,
             match option_map (Nat.add 2) (Str.find c s) with
             | Some w => Nat.min (S (S d)) w
             | None => S (S d)
             end
             = S (S match Str.find c s with
                    | Some w => Nat.min d w
                    | None => d
                    end)).
  { intros d c. destruct (Str.find c s); cbn [option_map]; lia. }
  rewrite !E. unfold delim3. cbn [fold_left skipn].
  match goal with
  | |- (firstn (S (S ?d) - 2) _, _) = _ =>
      replace (S (S d) - 2)%nat with d by lia
  end.
  reflexivity.
Qed.

Lemma mem_found (c : N) (a b : pystr) : Str.mem c (a ++ c :: b) = true.
Proof. now rewrite mem_app, mem_cons, N.eqb_refl, orb_true_r. Qed.

(** Case analysis on the partition of [s] at [c], rewriting both the
    membership test and the partition. *)
Ltac partition_cases c s :=
  let Hm := fresh "Hm" in
  let Hp := fresh "Hp" in
  let a := fresh "a" in
  let b := fresh "b" in
  let E := fresh "E" in
  destruct (partition_spec c s) as [[Hm Hp]|(a & b & E & Hm & Hp)];
  [ rewrite ?Hm, ?Hp
  | rewrite ?Hp; rewrite ?E, ?mem_found ].

Lemma scheme_split_lower (u : pystr) :
  match Str.find COLON u with
  | Some (S i') =>
      let i := S i' in
      if Str.is_alpha (hd 0%N u) && forallb scheme_chars (firstn i u)
      then (str_lower (firstn i u), skipn (i + 1) u)
      else ([], u)
  | _ => ([], u)
  end = scheme_split u.
Proof.
  unfold scheme_split. destruct (Str.find COLON u) as [[|i']|]; try reflexivity.
  cbv zeta. destruct (Str.is_alpha (hd 0%N u)); [|reflexivity].
  cbn [andb]. destruct (forallb scheme_chars (firstn (S i') u)) eqn:E;
    [|reflexivity].
  now rewrite str_lower_scheme.
Qed.

Lemma firstn2_slashes (s : pystr) :
  Str.eqb (firstn 2 s) (py "//") = true ->
  exists t, s = SLASH :: SLASH :: t.
Proof.
  intros H. apply eqb_true_iff in H.
  destruct s as [|x [|y t]]; try discriminate.
  injection H as -> ->. now exists t.
Qed.

(** [urlsplit] checks the authority and returns the parts. *)
Lemma urlsplit_staged (url : pystr) :
  urlsplit url
  = (check_brackets (authority_of url) ;;;
     _checknetloc (authority_of url) ;;;
     Ok (split_parts url)).
Proof.
  unfold urlsplit, authority_of, split_parts.
  fold (url_clean url). set (u := url_clean url).
  rewrite scheme_split_lower.
  destruct (scheme_split u) as [sc rest]. cbn [snd].
  unfold authority_split.
  destruct (Str.eqb (firstn 2 rest) (py "//")) eqn:E.
  - destruct (firstn2_slashes _ E) as [t ->].
    rewrite splitnetloc_break. cbn [skipn].
    destruct (break is_delim t) as [nl rest']. cbn [fst].
    unfold check_brackets, tail_split.
    destruct ((Str.mem LBRACKET nl && negb (Str.mem RBRACKET nl))
              || (Str.mem RBRACKET nl && negb (Str.mem LBRACKET nl)));
      [reflexivity|].
    destruct (Str.mem LBRACKET nl && Str.mem RBRACKET nl).
    + destruct (_check_bracketed_netloc nl) as [[]|]; [|reflexivity].
      cbn [bind].
      partition_cases constr:(HASH) rest'; cbv beta iota zeta;
        match goal with
        | |- context [Str.mem QMARK ?x] => partition_cases constr:(QMARK) x
        end; reflexivity.
    + cbn [bind].
      partition_cases constr:(HASH) rest'; cbv beta iota zeta;
        match goal with
        | |- context [Str.mem QMARK ?x] => partition_cases constr:(QMARK) x
        end; reflexivity.
  - cbn [bind fst]. unfold tail_split, check_brackets.
    cbn [Str.mem existsb andb orb bind].
    partition_cases constr:(HASH) rest; cbv beta iota zeta;
      match goal with
      | |- context [Str.mem QMARK ?x] => partition_cases constr:(QMARK) x
      end; reflexivity.
Qed.

Lemma urlsplit_raises (url : pystr) :
  raises (urlsplit url) = authority_rejected (authority_of url).
Proof.
  rewrite urlsplit_staged. unfold authority_rejected.
  destruct (check_brackets (authority_of url)) as [[]|]; [|reflexivity].
  now destruct (_checknetloc (authority_of url)) as [[]|].
Qed.

Lemma urlsplit_ok (url : pystr) (t : SplitResult) :
  urlsplit url = Ok t ->
  t = split_parts url /\ authority_rejected (authority_of url) = false.
Proof.
  intros H. pose proof (urlsplit_raises url) as R. rewrite H in R.
  split; [|now rewrite <- R].
  rewrite urlsplit_staged in H.
  destruct (check_brackets (authority_of url)) as [[]|]; [|discriminate].
  destruct (_checknetloc (authority_of url)) as [[]|]; [|discriminate].
  simpl in H. congruence.
Qed.

Lemma urlsplit_accepts (url : pystr) :
  authority_rejected (authority_of url) = false ->
  urlsplit url = Ok (split_parts url).
Proof.
  intros H. rewrite urlsplit_staged. unfold authority_rejected in H.
  apply orb_false_iff in H as [H1 H2].
  destruct (check_brackets (authority_of url)) as [[]|]; [|discriminate].
  now destruct (_checknetloc (authority_of url)) as [[]|].
Qed.

(** ** Where the pieces of a URL lie *)

Lemma find_spec (c : N) (s : pystr) (i : nat) :
  Str.find c s = Some i ->
  s = firstn i s ++ c :: skipn (i + 1) s /\ Str.mem c (firstn i s) = false.
Proof.
  revert i. induction s as [|x s IH]; intros i; [discriminate|].
  simpl. destruct (N.eqb x c) eqn:E.
  - intros H. injection H as <-. apply N.eqb_eq in E. now subst.
  - destruct (Str.find c s) as [j|]; [|discriminate].
    intros H. injection H as <-. destruct (IH j eq_refl) as [H1 H2].
    simpl. rewrite <- H1. split; [reflexivity|].
    now rewrite N.eqb_sym, E, H2.
Qed.

Lemma find_none (c : N) (s : pystr) :
  Str.find c s = None -> Str.mem c s = false.
Proof.
  induction s as [|x s IH]; [reflexivity|].
  simpl. destruct (N.eqb x c) eqn:E; [discriminate|].
  destruct (Str.find c s); [discriminate|].
  intros _. now rewrite N.eqb_sym, E, IH.
Qed.

Lemma find_app_found (c : N) (a b : pystr) :
  Str.mem c a = false -> Str.find c (a ++ c :: b) = Some (length a).
Proof.
  induction a as [|x a IH]; intros H.
  - simpl. now rewrite N.eqb_refl.
  - rewrite mem_cons in H. apply orb_false_iff in H as [H1 H2].
    simpl. now rewrite N.eqb_sym, H1, IH.
Qed.

(** What [scheme_split] returns: no scheme and the text untouched, or a
    prefix of scheme characters behind a letter, lower-cased, and the
    text after its colon. *)
Lemma scheme_split_spec (u : pystr) :
  (scheme_split u = ([], u))
  \/ (exists pre rest,
        u = pre ++ COLON :: rest
        /\ pre <> []
        /\ Str.is_alpha (hd 0%N pre) = true
        /\ forallb scheme_chars pre = true
        /\ scheme_split u = (Str.ascii_lower pre, rest)).
Proof.
  unfold scheme_split.
  destruct (Str.find COLON u) as [[|i]|] eqn:F; auto.
  destruct (Str.is_alpha (hd 0%N u) && forallb scheme_chars (firstn (S i) u))
    eqn:E; auto.
  right. apply andb_true_iff in E as [E1 E2].
  destruct (find_spec _ _ F) as [H1 H2].
  exists (firstn (S i) u), (skipn (S i + 1) u).
  repeat split; try assumption.
  - destruct u; [discriminate F | discriminate].
  - destruct u; [discriminate F | exact E1].
Qed.

Lemma break_spec (p : N -> bool) (s : pystr) :
  s = fst (break p s) ++ snd (break p s)
  /\ forallb (fun c => negb (p c)) (fst (break p s)) = true
  /\ (snd (break p s) = []
      \/ exists c t, snd (break p s) = c :: t /\ p c = true).
Proof.
  induction s as [|x s IH]; [simpl; auto|].
  cbn [break]. destruct (p x) eqn:E.
  - simpl. repeat split. right. now exists x, s.
  - destruct (break p s) as [a b]. cbn [fst snd] in *.
    destruct IH as (H1 & H2 & H3). repeat split.
    + simpl. now rewrite <- H1.
    + simpl. now rewrite E, H2.
    + exact H3.
Qed.

(** What [authority_split] returns: no authority and the text untouched
    when it does not begin with two slashes; otherwise the text between
    the two slashes and the first delimiter, and the text from there. *)
Lemma authority_split_spec (rest : pystr) :
  (Str.eqb (firstn 2 rest) (py "//") = false /\ authority_split rest = ([], rest))
  \/ (exists nl rest',
        rest = SLASH :: SLASH :: nl ++ rest'
        /\ forallb (fun c => negb (is_delim c)) nl = true
        /\ (rest' = [] \/ exists c t, rest' = c :: t /\ is_delim c = true)
        /\ authority_split rest = (nl, rest')).
Proof.
  unfold authority_split.
  destruct (Str.eqb (firstn 2 rest) (py "//")) eqn:E; [right | now left].
  destruct (firstn2_slashes _ E) as [t ->]. cbn [skipn].
  destruct (break_spec is_delim t) as (H1 & H2 & H3).
  destruct (break is_delim t) as [nl rest']. cbn [fst snd] in *.
  exists nl, rest'. subst t. repeat split; assumption.
Qed.

Lemma partition_app_prefix (c : N) (pre s : pystr) :
  Str.mem c pre = false ->
  Str.partition c (pre ++ s)
  = (pre ++ fst (fst (Str.partition c s)),
     snd (fst (Str.partition c s)), snd (Str.partition c s)).
Proof.
  induction pre as [|x pre IH]; intros H.
  - simpl. now destruct (Str.partition c s) as [[a f] b].
  - rewrite mem_cons in H. apply orb_false_iff in H as [H1 H2].
    simpl. rewrite N.eqb_sym, H1, (IH H2). reflexivity.
Qed.

Lemma not_mem_forallb (c : N) (p : N -> bool) (s : pystr) :
  p c = false -> forallb p s = true -> Str.mem c s = false.
Proof.
  intros Hc H. apply mem_false_iff. intros Hin.
  rewrite forallb_forall in H. specialize (H c Hin). congruence.
Qed.

Lemma not_mem_no_delim (c : N) (s : pystr) :
  is_delim c = true -> forallb (fun c => negb (is_delim c)) s = true ->
  Str.mem c s = false.
Proof.
  intros Hc H. eapply not_mem_forallb; [|exact H]. cbv beta. now rewrite Hc.
Qed.

Lemma split_parts_eq (url sc rest nl rest' : pystr) :
  scheme_split (url_clean url) = (sc, rest) ->
  authority_split rest = (nl, rest') ->
  split_parts url
  = mkSplitResult sc nl (fst (fst (tail_split rest')))
                  (snd (fst (tail_split rest'))) (snd (tail_split rest')).
Proof.
  intros H1 H2. unfold split_parts. rewrite H1, H2.
  now destruct (tail_split rest') as [[p q] f].
Qed.

Lemma tail_split_fragment (s : pystr) :
  snd (tail_split s) = snd (Str.partition HASH s).
Proof.
  unfold tail_split. destruct (Str.partition HASH s) as [[a f] b].
  now destruct (Str.partition QMARK a) as [[a' f'] b'].
Qed.

Lemma scheme_chars_no_hash (pre : pystr) :
  forallb scheme_chars pre = true -> Str.mem HASH (pre ++ [COLON]) = false.
Proof.
  intros H. rewrite mem_app. apply orb_false_iff. split; [|reflexivity].
  eapply not_mem_forallb; [|exact H]. reflexivity.
Qed.

(** The fragment is the text after the first [#] of the cleaned URL. *)
Lemma split_parts_fragment (url : pystr) :
  fragment (split_parts url) = snd (Str.partition HASH (url_clean url)).
Proof.
  set (u := url_clean url).
  assert (forall sc rest,
             scheme_split u = (sc, rest) ->
             snd (Str.partition HASH u) = snd (Str.partition HASH rest)
             -> fragment (split_parts url) = snd (Str.partition HASH u)) as K.
  { intros sc rest Hs Hp. rewrite Hp.
    destruct (authority_split_spec rest)
      as [[_ Ha]|(nl & rest' & Er & Hnl & _ & Ha)];
      rewrite (split_parts_eq url Hs Ha); cbn [fragment];
      rewrite tail_split_fragment; [reflexivity|].
    rewrite Er.
    change (SLASH :: SLASH :: nl ++ rest') with ((SLASH :: SLASH :: nl) ++ rest').
    rewrite partition_app_prefix; [reflexivity|].
    rewrite !mem_cons. cbn [N.eqb Pos.eqb orb].
    now apply not_mem_no_delim. }
  destruct (scheme_split_spec u)
    as [Hs|(pre & rest & Eu & _ & _ & Hpre & Hs)].
  - now apply (K _ _ Hs).
  - apply (K _ _ Hs). rewrite Eu.
    change (pre ++ COLON :: rest) with (pre ++ [COLON] ++ rest).
    rewrite app_assoc, partition_app_prefix; [reflexivity|].
    now apply scheme_chars_no_hash.
Qed.

(** ** C9: the fragment *)

(** C9 (as amended): for every input with data on which [parse]
    succeeds, the fragment field is the text after the first [#] of the
    URL as [urlsplit] reads it, that is, of the unwrapped input with its
    leading control characters and spaces stripped and every tab, line
    feed and carriage return removed; that text is returned as it is:
    percent escapes in it are not decoded; the field is null when the
    text is empty. *)
Theorem fragment_is_kept_verbatim :
  forall (data : pystr) (raw quiet : bool) (r : Dict),
    parse data raw quiet = Ok r ->
    has_data data = true ->
    get "fragment" r
    = Some (str_or_None (snd (Str.partition HASH (url_clean (unwrap data))))).
Proof.
  intros data raw quiet r Hparse Hdata.
  apply parse_ok_inv in Hparse as [[E _]|[_ Hp]]; [congruence|].
  destruct Hp as [parts normalized qp qq up pv H1 _ _ _ _ _].
  rewrite get_fragment. apply urlsplit_ok in H1 as [-> _].
  now rewrite split_parts_fragment.
Qed.

(** ** Where [parse] can fail *)





Lemma raises_true_iff {A} (m : result A) :
  raises m = true <-> forall a, m <> Ok a.
Proof.
  destruct m as [a|e]; simpl; split; try congruence.
  intros H. now specialize (H a).
Qed.


Lemma raises_bind {A B} (m : result A) (k : A -> result B) :
  raises (bind m k) = true
  <-> raises m = true \/ exists a, m = Ok a /\ raises (k a) = true.
Proof.
  destruct m as [a|e]; simpl.
  - split.
    + intros H. right. now exists a.
    + intros [H|(a' & E & H)]; [discriminate|]. injection E as <-. exact H.
  - split; [now left | reflexivity].
Qed.

(** ** C2: when [parse] fails *)


(** ** UTF-8: decoding what was encoded *)

(** Linear arithmetic with division and remainder by constants. *)
Ltac nlia := zify; Z.to_euclidean_division_equations; lia.

(** One step of the decoder. *)
Lemma decode_cons (b1 : N) (r1 : pybytes) :
  Utf8.decode (b1 :: r1)
  = if N.ltb b1 128 then b1 :: Utf8.decode r1
    else if N.ltb b1 194 then 65533%N :: Utf8.decode r1
    else if N.ltb b1 224 then
      match r1 with
      | [] => [65533%N]
      | b2 :: r2 =>
          if Utf8.is_cont b2
          then ((b1 - 192) * 64 + (b2 - 128))%N :: Utf8.decode r2
          else 65533%N :: Utf8.decode r1
      end
    else if N.ltb b1 240 then
      match r1 with
      | [] => [65533%N]
      | b2 :: r2 =>
          if negb (Utf8.is_cont b2)
             || (if N.ltb b2 160 then N.eqb b1 224 else N.eqb b1 237)
          then 65533%N :: Utf8.decode r1
          else
            match r2 with
            | [] => [65533%N]
            | b3 :: r3 =>
                if Utf8.is_cont b3
                then ((b1 - 224) * 4096 + (b2 - 128) * 64 + (b3 - 128))%N
                       :: Utf8.decode r3
                else 65533%N :: Utf8.decode r2
            end
      end
    else if N.ltb b1 245 then
      match r1 with
      | [] => [65533%N]
      | b2 :: r2 =>
          if negb (Utf8.is_cont b2)
             || (if N.ltb b2 144 then N.eqb b1 240 else N.eqb b1 244)
          then 65533%N :: Utf8.decode r1
          else
            match r2 with
            | [] => [65533%N]
            | b3 :: r3 =>
                if negb (Utf8.is_cont b3) then 65533%N :: Utf8.decode r2
                else
                  match r3 with
                  | [] => [65533%N]
                  | b4 :: r4 =>
                      if Utf8.is_cont b4
                      then ((b1 - 240) * 262144 + (b2 - 128) * 4096
                            + (b3 - 128) * 64 + (b4 - 128))%N :: Utf8.decode r4
                      else 65533%N :: Utf8.decode r3
                  end
            end
      end
    else 65533%N :: Utf8.decode r1.
Proof. destruct r1 as [|b2 [|b3 [|b4 r4]]]; reflexivity. Qed.

(** Rewriting a comparison of numbers to its value, by arithmetic. *)
Ltac decide_ltb a b :=
  let H := fresh in
  destruct (N.ltb_spec a b) as [H|H]; [| exfalso; nlia ].
Ltac refute_ltb a b :=
  let H := fresh in
  destruct (N.ltb_spec a b) as [H|H]; [ exfalso; nlia |].

Lemma is_cont_low6 (x : N) : Utf8.is_cont (128 + x mod 64) = true.
Proof.
  unfold Utf8.is_cont. apply andb_true_iff. split.
  - apply N.leb_le. nlia.
  - apply N.ltb_lt. nlia.
Qed.

Lemma Ok_inj {A} (a b : A) : Ok a = Ok b -> a = b.
Proof. congruence. Qed.

(** The bytes of one character decode to that character. *)
Lemma decode_encode_char (c : N) (b rest : pybytes) :
  Utf8.encode_char c = Ok b ->
  Utf8.decode (b ++ rest) = c :: Utf8.decode rest.
Proof.
  unfold Utf8.encode_char.
  destruct (N.ltb_spec c 128) as [H1|H1].
  { intros E. apply Ok_inj in E. subst b. cbn [app]. rewrite decode_cons.
    decide_ltb c 128%N. reflexivity. }
  destruct (N.ltb_spec c 2048) as [H2|H2].
  { intros E. apply Ok_inj in E. subst b. cbn [app]. rewrite decode_cons.
    refute_ltb (192 + c / 64)%N 128%N.
    refute_ltb (192 + c / 64)%N 194%N.
    decide_ltb (192 + c / 64)%N 224%N.
    cbv beta iota. rewrite is_cont_low6. f_equal. nlia. }
  destruct (N.ltb_spec c 65536) as [H3|H3].
  { destruct (N.leb 55296 c && N.leb c 57343) eqn:Hs; [discriminate|].
    intros E. apply Ok_inj in E. subst b. cbn [app]. rewrite decode_cons.
    refute_ltb (224 + c / 4096)%N 128%N.
    refute_ltb (224 + c / 4096)%N 194%N.
    refute_ltb (224 + c / 4096)%N 224%N.
    decide_ltb (224 + c / 4096)%N 240%N.
    cbv beta iota. rewrite !is_cont_low6. cbn [negb orb].
    assert (Hsur : (c < 55296 \/ 57343 < c)%N).
    { apply andb_false_iff in Hs as [Hs|Hs]; apply N.leb_gt in Hs; lia. }
    replace (if N.ltb (128 + (c / 64) mod 64) 160
             then N.eqb (224 + c / 4096) 224
             else N.eqb (224 + c / 4096) 237) with false.
    2:{ symmetry.
        destruct (N.ltb_spec (128 + (c / 64) mod 64) 160);
          apply N.eqb_neq; nlia. }
    f_equal. nlia. }
  destruct (N.leb_spec c 1114111) as [H4|H4]; [|discriminate].
  intros E. apply Ok_inj in E. subst b. cbn [app]. rewrite decode_cons.
  refute_ltb (240 + c / 262144)%N 128%N.
  refute_ltb (240 + c / 262144)%N 194%N.
  refute_ltb (240 + c / 262144)%N 224%N.
  refute_ltb (240 + c / 262144)%N 240%N.
  decide_ltb (240 + c / 262144)%N 245%N.
  cbv beta iota. rewrite !is_cont_low6. cbn [negb orb].
  replace (if N.ltb (128 + (c / 4096) mod 64) 144
           then N.eqb (240 + c / 262144) 240
           else N.eqb (240 + c / 262144) 244) with false.
  2:{ symmetry.
      destruct (N.ltb_spec (128 + (c / 4096) mod 64) 144);
        apply N.eqb_neq; nlia. }
  f_equal. nlia.
Qed.

(** Decoding the encoding of a string gives the string. *)
Lemma decode_encode (s : pystr) (bs : pybytes) :
  Utf8.encode s = Ok bs -> Utf8.decode bs = s.
Proof.
  revert bs. induction s as [|c s IH]; intros bs.
  - intros E. injection E as <-. reflexivity.
  - cbn [Utf8.encode]. intros E.
    apply bind_ok_inv in E as (b & Hb & E).
    apply bind_ok_inv in E as (bs' & Hbs & E).
    apply Ok_inj in E. subst bs.
    erewrite decode_encode_char by exact Hb. now rewrite (IH _ Hbs).
Qed.

(** ** Percent-decoding what was percent-encoded *)

Lemma unquote_to_bytes_split (s : pystr) :
  unquote_to_bytes s
  = match Str.split PERCENT s with
    | a :: t => a ++ flat_map unquote_item t
    | [] => []
    end.
Proof.
  unfold unquote_to_bytes. destruct s as [|x s]; [reflexivity|].
  cbn [Str.null].
  pose proof (join_split PERCENT (x :: s)) as J.
  destruct (Str.split PERCENT (x :: s)) as [|a [|b t]].
  - discriminate J.
  - simpl in J. subst a. now rewrite app_nil_r.
  - reflexivity.
Qed.

Lemma unquote_to_bytes_other (c : N) (s : pystr) :
  c <> PERCENT -> unquote_to_bytes (c :: s) = c :: unquote_to_bytes s.
Proof.
  intros Hc. rewrite !unquote_to_bytes_split.
  destruct (split_cons_other s Hc) as (h & t & E1 & E2).
  now rewrite E1, E2.
Qed.

Lemma hex_value_not_percent (h x : N) : hex_value h = Some x -> h <> PERCENT.
Proof. intros H ->. discriminate H. Qed.

Lemma unquote_to_bytes_escape (h1 h2 b : N) (s : pystr) :
  _hextobyte [h1; h2] = Some b ->
  unquote_to_bytes (PERCENT :: h1 :: h2 :: s) = b :: unquote_to_bytes s.
Proof.
  intros H. rewrite !unquote_to_bytes_split, split_cons_sep.
  assert (H1 : h1 <> PERCENT /\ h2 <> PERCENT).
  { unfold _hextobyte in H.
    destruct (hex_value h1) eqn:E1; [|discriminate].
    destruct (hex_value h2) eqn:E2; [|discriminate].
    split; eapply hex_value_not_percent; eassumption. }
  destruct H1 as [H1 H2].
  destruct (split_cons_other s H2) as (a & t & E1 & E2).
  destruct (split_cons_other (h2 :: s) H1) as (a' & t' & E3 & E4).
  rewrite E2 in E3. injection E3 as <- <-.
  rewrite E4, E1. cbn [flat_map app].
  unfold unquote_item at 1. cbn [firstn skipn]. now rewrite H.
Qed.

Lemma hex_value_digit (d : N) :
  (d < 16)%N -> hex_value (hex_digit d) = Some d.
Proof.
  intros Hd. unfold hex_digit, hex_value.
  destruct (N.ltb_spec d 10).
  - replace (Str.is_digit (48 + d)) with true by (symmetry; char_arith).
    f_equal. lia.
  - replace (Str.is_digit (55 + d)) with false by (symmetry; char_arith).
    replace (N.leb 65 (55 + d) && N.leb (55 + d) 70) with true
      by (symmetry; char_arith).
    f_equal. lia.
Qed.

Lemma hextobyte_hex (b : N) :
  (b < 256)%N ->
  _hextobyte [hex_digit (b / 16); hex_digit (b mod 16)] = Some b.
Proof.
  intros Hb. unfold _hextobyte.
  rewrite !hex_value_digit by nlia. f_equal. nlia.
Qed.

(** A quoted byte, whatever follows it, unquotes to the byte. *)
Lemma unquote_to_bytes_quoter (safe : pystr) (b : N) (rest : pystr) :
  Str.mem PERCENT safe = false -> (b < 256)%N ->
  unquote_to_bytes (quoter safe b ++ rest) = b :: unquote_to_bytes rest.
Proof.
  intros Hsafe Hb. unfold quoter.
  destruct (_ALWAYS_SAFE b || Str.mem b safe) eqn:E.
  - cbn [app]. apply unquote_to_bytes_other. intros ->.
    rewrite Hsafe in E. discriminate E.
  - cbn [app]. apply unquote_to_bytes_escape. now apply hextobyte_hex.
Qed.

Lemma unquote_to_bytes_concat (Q : N -> pystr) (g : N -> N) (bs : pybytes) :
  (forall b rest, (b < 256)%N ->
                  unquote_to_bytes (Q b ++ rest) = g b :: unquote_to_bytes rest) ->
  Forall (fun b => (b < 256)%N) bs ->
  unquote_to_bytes (concat (map Q bs)) = map g bs.
Proof.
  intros HQ. induction 1 as [|b bs Hb Hbs IH]; [reflexivity|].
  cbn [map concat]. now rewrite HQ, IH.
Qed.

Lemma encode_char_bytes (c : N) (b : pybytes) :
  Utf8.encode_char c = Ok b -> Forall (fun x => (x < 256)%N) b.
Proof.
  unfold Utf8.encode_char.
  destruct (N.ltb_spec c 128); [|destruct (N.ltb_spec c 2048);
    [|destruct (N.ltb_spec c 65536);
      [destruct (N.leb 55296 c && N.leb c 57343); [discriminate|]
      |destruct (N.leb_spec c 1114111); [|discriminate]]]];
    intros E; apply Ok_inj in E; subst b; repeat constructor; nlia.
Qed.

Lemma encode_bytes (s : pystr) (bs : pybytes) :
  Utf8.encode s = Ok bs -> Forall (fun x => (x < 256)%N) bs.
Proof.
  revert bs. induction s as [|c s IH]; intros bs E.
  - apply Ok_inj in E. subst bs. constructor.
  - cbn [Utf8.encode] in E.
    apply bind_ok_inv in E as (b & Hb & E).
    apply bind_ok_inv in E as (bs' & Hbs & E).
    apply Ok_inj in E. subst bs. apply Forall_app. split.
    + now apply encode_char_bytes with c.
    + now apply IH.
Qed.

Lemma forallb_rev {A} (p : A -> bool) (l : list A) :
  forallb p (rev l) = forallb p l.
Proof.
  induction l as [|x l IH]; [reflexivity|].
  simpl. rewrite forallb_app, IH. simpl. rewrite andb_true_r. apply andb_comm.
Qed.

Lemma rstrip_null (p : N -> bool) (s : pystr) :
  Str.null (Str.rstrip p s) = forallb p s.
Proof.
  unfold Str.rstrip. rewrite <- (forallb_rev p s).
  destruct (forallb p (rev s)) eqn:E.
  - now rewrite dropwhile_all.
  - pose proof (forallb_dropwhile _ _ E) as H.
    destruct (Str.dropwhile p (rev s)) as [|x l]; [congruence|].
    simpl. now destruct (rev l ++ [x]) eqn:E'; [destruct (rev l); discriminate|].
Qed.

Lemma quoter_safe (safe : pystr) (b : N) :
  _ALWAYS_SAFE b || Str.mem b safe = true -> quoter safe b = [b].
Proof. intros H. unfold quoter. now rewrite H. Qed.

Lemma concat_map_singleton {A} (f : A -> list A) (l : list A) :
  (forall x, In x l -> f x = [x]) -> concat (map f l) = l.
Proof.
  induction l as [|x l IH]; intros H; [reflexivity|].
  cbn [map concat]. rewrite (H x) by now left.
  rewrite IH; [reflexivity|]. intros y Hy. apply H. now right.
Qed.

(** [quote_from_bytes] quotes byte by byte. *)
Lemma quote_from_bytes_concat (bs : pybytes) (safe : pystr) :
  quote_from_bytes bs safe
  = concat (map (quoter (filter (fun c => N.ltb c 128) safe)) bs).
Proof.
  unfold quote_from_bytes. destruct bs as [|b bs]; [reflexivity|].
  cbn [Str.null]. rewrite rstrip_null.
  set (safe' := filter (fun c => N.ltb c 128) safe).
  destruct (forallb (fun b0 => _ALWAYS_SAFE b0 || Str.mem b0 safe') (b :: bs))
    eqn:E; [|reflexivity].
  symmetry. apply concat_map_singleton. intros x Hx.
  apply quoter_safe. rewrite forallb_forall in E. now apply E.
Qed.

Lemma mem_filter_weaken (c : N) (p : N -> bool) (s : pystr) :
  Str.mem c s = false -> Str.mem c (filter p s) = false.
Proof.
  rewrite !mem_false_iff. intros H Hin. apply H.
  apply filter_In in Hin. tauto.
Qed.

Lemma hex_digit_ascii (d : N) : (d < 16)%N -> (hex_digit d < 128)%N.
Proof. intros H. unfold hex_digit. destruct (N.ltb d 10); lia. Qed.

Lemma always_safe_ascii (b : N) : _ALWAYS_SAFE b = true -> (b < 128)%N.
Proof. intros H. unfold _ALWAYS_SAFE in H. char_arith. Qed.

(** What [quoter] writes is ASCII. *)
Lemma quoter_isascii (safe : pystr) (b : N) :
  Str.isascii safe = true -> (b < 256)%N ->
  Str.isascii (quoter safe b) = true.
Proof.
  intros Hs Hb. unfold quoter.
  destruct (_ALWAYS_SAFE b || Str.mem b safe) eqn:E.
  - simpl. rewrite andb_true_r. apply N.ltb_lt.
    apply orb_true_iff in E as [E|E]; [now apply always_safe_ascii|].
    apply mem_true_iff in E. unfold Str.isascii in Hs.
    rewrite forallb_forall in Hs. apply N.ltb_lt. now apply Hs.
  - unfold Str.isascii. cbn [forallb].
    rewrite andb_true_r, !andb_true_iff, !N.ltb_lt.
    split; [lia | split; apply hex_digit_ascii; nlia].
Qed.

Lemma isascii_app (a b : pystr) :
  Str.isascii (a ++ b) = Str.isascii a && Str.isascii b.
Proof. apply forallb_app. Qed.

Lemma isascii_concat_map (Q : N -> pystr) (bs : pybytes) :
  (forall b, (b < 256)%N -> Str.isascii (Q b) = true) ->
  Forall (fun b => (b < 256)%N) bs ->
  Str.isascii (concat (map Q bs)) = true.
Proof.
  intros HQ. induction 1 as [|b bs Hb Hbs IH]; [reflexivity|].
  cbn [map concat]. now rewrite isascii_app, HQ, IH.
Qed.

Lemma isascii_filter (safe : pystr) :
  Str.isascii (filter (fun c => N.ltb c 128) safe) = true.
Proof.
  unfold Str.isascii. apply forallb_forall. intros x Hx.
  apply filter_In in Hx. tauto.
Qed.

Lemma decode_ascii (s : pystr) : Str.isascii s = true -> Utf8.decode s = s.
Proof.
  induction s as [|c s IH]; [reflexivity|].
  intros H. simpl in H. apply andb_true_iff in H as [H1 H2].
  rewrite decode_cons, H1. now rewrite IH.
Qed.

Lemma unquote_to_bytes_no_percent (s : pystr) :
  Str.mem PERCENT s = false -> unquote_to_bytes s = s.
Proof.
  intros H. rewrite unquote_to_bytes_split, split_no_sep by assumption.
  simpl. apply app_nil_r.
Qed.

Lemma unquote_runs_ascii (run s : pystr) :
  Str.isascii s = true ->
  unquote_runs run s = Utf8.decode (unquote_to_bytes (run ++ s)).
Proof.
  revert run. induction s as [|c s IH]; intros run H.
  - now rewrite app_nil_r.
  - simpl in H. apply andb_true_iff in H as [H1 H2].
    cbn [unquote_runs]. rewrite H1, IH by assumption.
    now rewrite <- app_assoc.
Qed.

(** On an ASCII string, [unquote] unquotes to bytes and decodes them. *)
Lemma unquote_ascii (s : pystr) :
  Str.isascii s = true -> unquote s = Utf8.decode (unquote_to_bytes s).
Proof.
  intros H. unfold unquote. destruct (Str.mem PERCENT s) eqn:E; cbn [negb].
  - now rewrite unquote_runs_ascii.
  - now rewrite unquote_to_bytes_no_percent, decode_ascii.
Qed.

(** [quote], as bytes quoted one by one. *)
Lemma quote_ok_inv (s safe q : pystr) :
  quote s safe = Ok q ->
  exists bs, Utf8.encode s = Ok bs
             /\ q = concat (map (quoter (filter (fun c => N.ltb c 128) safe)) bs).
Proof.
  unfold quote. destruct s as [|c s].
  - intros E. apply Ok_inj in E. subst q. now exists [].
  - cbn [Str.null]. intros E. apply bind_ok_inv in E as (bs & Hbs & E).
    apply Ok_inj in E. subst q. exists bs. split; [assumption|].
    apply quote_from_bytes_concat.
Qed.

(** Unquoting what [quote] wrote gives the string back, when [%] is not
    declared safe. *)
Lemma unquote_quote (s safe q : pystr) :
  Str.mem PERCENT safe = false -> quote s safe = Ok q -> unquote q = s.
Proof.
  intros Hsafe Hq. apply quote_ok_inv in Hq as (bs & Hbs & ->).
  pose proof (encode_bytes _ Hbs) as Hr.
  rewrite unquote_ascii.
  - rewrite (unquote_to_bytes_concat _ (fun b => b)).
    + rewrite map_id. now apply decode_encode.
    + intros b rest Hb. apply unquote_to_bytes_quoter; [|assumption].
      now apply mem_filter_weaken.
    + assumption.
  - apply isascii_concat_map; [|assumption].
    intros b Hb. apply quoter_isascii; [apply isascii_filter | assumption].
Qed.

(** ** The same for [quote_plus] and [unquote_plus] *)

Lemma replace_cons (c : N) (new : pystr) (x : N) (s : pystr) :
  Str.replace c new (x :: s)
  = (if N.eqb x c then new else [x]) ++ Str.replace c new s.
Proof. reflexivity. Qed.

Lemma replace_app (c : N) (new a b : pystr) :
  Str.replace c new (a ++ b) = Str.replace c new a ++ Str.replace c new b.
Proof. unfold Str.replace. apply flat_map_app. Qed.

Lemma replace_concat (c : N) (new : pystr) (l : list pystr) :
  Str.replace c new (concat l) = concat (map (Str.replace c new) l).
Proof.
  induction l as [|x l IH]; [reflexivity|].
  cbn [concat map]. now rewrite replace_app, IH.
Qed.

Lemma replace_plus_as_space (s : pystr) :
  Str.replace PLUS [SPACE] s = map plus_as_space s.
Proof.
  induction s as [|x s IH]; [reflexivity|].
  rewrite replace_cons, IH. cbn [map]. unfold plus_as_space at 2.
  now destruct (N.eqb x PLUS).
Qed.

Lemma hex_digit_low (d : N) : (48 <= hex_digit d)%N.
Proof. unfold hex_digit. destruct (N.ltb d 10); lia. Qed.

Lemma replace_escape (c : N) (new : pystr) (x y : N) :
  (c < 48)%N -> c <> PERCENT ->
  Str.replace c new [PERCENT; hex_digit x; hex_digit y]
  = [PERCENT; hex_digit x; hex_digit y].
Proof.
  intros Hc Hp. rewrite !replace_cons.
  pose proof (hex_digit_low x). pose proof (hex_digit_low y).
  replace (N.eqb PERCENT c) with false by (symmetry; apply N.eqb_neq; lia).
  replace (N.eqb (hex_digit x) c) with false
    by (symmetry; apply N.eqb_neq; lia).
  replace (N.eqb (hex_digit y) c) with false
    by (symmetry; apply N.eqb_neq; lia).
  reflexivity.
Qed.

Lemma plus_quoter_cases (b : N) :
  (b = PLUS /\ plus_quoter_1 b = [SPACE] /\ plus_quoter_2 b = [SPACE])
  \/ (b = SPACE /\ plus_quoter_1 b = py "%20" /\ plus_quoter_2 b = [SPACE])
  \/ (b <> PLUS /\ b <> SPACE
      /\ plus_quoter_1 b = quoter [] b /\ plus_quoter_2 b = quoter [] b).
Proof.
  destruct (N.eq_dec b PLUS) as [->|H1]; [left; repeat split|].
  destruct (N.eq_dec b SPACE) as [->|H2]; [right; left; repeat split|].
  right. right. repeat split; try assumption.
  - unfold plus_quoter_1, quoter. cbn [Str.mem existsb].
    apply N.eqb_neq in H1. rewrite H1. cbn [orb].
    destruct (_ALWAYS_SAFE b || false).
    + rewrite replace_cons, H1. reflexivity.
    + apply replace_escape; lia.
  - unfold plus_quoter_2, quoter. cbn [Str.mem existsb].
    apply N.eqb_neq in H1, H2. rewrite H1, H2. cbn [orb].
    destruct (_ALWAYS_SAFE b || false).
    + rewrite replace_cons, H2. cbn [app Str.replace flat_map].
      rewrite H1. reflexivity.
    + rewrite replace_escape by lia. apply replace_escape; lia.
Qed.

Lemma percent_20 (rest : pystr) :
  unquote_to_bytes (py "%20" ++ rest) = SPACE :: unquote_to_bytes rest.
Proof. apply (@unquote_to_bytes_escape 50 48 32 rest). reflexivity. Qed.

Lemma unquote_plus_quoter (b : N) (rest : pystr) :
  (b < 256)%N ->
  unquote_to_bytes (plus_quoter_1 b ++ rest)
  = plus_as_space b :: unquote_to_bytes rest
  /\ unquote_to_bytes (plus_quoter_2 b ++ rest)
     = plus_as_space b :: unquote_to_bytes rest.
Proof.
  intros Hb.
  destruct (plus_quoter_cases b)
    as [(-> & -> & ->)|[(-> & -> & ->)|(H1 & H2 & -> & ->)]].
  - split; now apply unquote_to_bytes_other.
  - split; [apply percent_20 | now apply unquote_to_bytes_other].
  - unfold plus_as_space. apply N.eqb_neq in H1. rewrite H1.
    split; now apply unquote_to_bytes_quoter.
Qed.

Lemma plus_quoter_isascii (b : N) :
  (b < 256)%N ->
  Str.isascii (plus_quoter_1 b) = true /\ Str.isascii (plus_quoter_2 b) = true.
Proof.
  intros Hb.
  destruct (plus_quoter_cases b)
    as [(-> & -> & ->)|[(-> & -> & ->)|(H1 & H2 & -> & ->)]];
    try (split; reflexivity).
  split; now apply quoter_isascii.
Qed.

(** Reading [+] as a space commutes with the encoding: the bytes of a
    character of several bytes are none of them a [+]. *)
Lemma encode_char_plus_as_space (c : N) (b : pybytes) :
  Utf8.encode_char c = Ok b ->
  Utf8.encode_char (plus_as_space c) = Ok (map plus_as_space b).
Proof.
  unfold plus_as_space at 1. destruct (N.eqb_spec c PLUS) as [->|Hc].
  { intros E. apply Ok_inj in E. now subst b. }
  intros E. rewrite E. f_equal. symmetry. revert E.
  unfold Utf8.encode_char.
  destruct (N.ltb_spec c 128); [|destruct (N.ltb_spec c 2048);
    [|destruct (N.ltb_spec c 65536);
      [destruct (N.leb 55296 c && N.leb c 57343); [discriminate|]
      |destruct (N.leb_spec c 1114111); [|discriminate]]]];
    intros E; apply Ok_inj in E; subst b; cbn [map]; unfold plus_as_space;
    repeat match goal with
           | |- context [N.eqb ?x PLUS] =>
               replace (N.eqb x PLUS) with false
                 by (symmetry; apply N.eqb_neq; nlia)
           end; reflexivity.
Qed.

Lemma encode_plus_as_space (s : pystr) (bs : pybytes) :
  Utf8.encode s = Ok bs ->
  Utf8.encode (map plus_as_space s) = Ok (map plus_as_space bs).
Proof.
  revert bs. induction s as [|c s IH]; intros bs E.
  - apply Ok_inj in E. now subst bs.
  - cbn [Utf8.encode map] in *.
    apply bind_ok_inv in E as (b & Hb & E).
    apply bind_ok_inv in E as (bs' & Hbs & E).
    apply Ok_inj in E. subst bs.
    rewrite (encode_char_plus_as_space _ Hb), (IH _ Hbs). cbn [bind].
    now rewrite map_app.
Qed.

(** Decoding with [unquote_plus] what [quote_plus] wrote with [+] declared
    safe gives the string with its [+] read as spaces. *)
Lemma unquote_plus_quote_plus (s q : pystr) :
  quote_plus s (py "+") = Ok q -> unquote_plus q = map plus_as_space s.
Proof.
  unfold quote_plus, unquote_plus. intros Hq.
  assert (K : exists bs Q,
             Utf8.encode s = Ok bs
             /\ Str.replace PLUS [SPACE] q = concat (map Q bs)
             /\ (Q = plus_quoter_1 \/ Q = plus_quoter_2)).
  { destruct (negb (Str.mem SPACE s)).
    - apply quote_ok_inv in Hq as (bs & Hbs & ->).
      exists bs, plus_quoter_1. split; [assumption|]. split; [|now left].
      now rewrite replace_concat, map_map.
    - apply bind_ok_inv in Hq as (q0 & Hq0 & E). apply Ok_inj in E. subst q.
      apply quote_ok_inv in Hq0 as (bs & Hbs & ->).
      exists bs, plus_quoter_2. split; [assumption|]. split; [|now right].
      now rewrite !replace_concat, !map_map. }
  destruct K as (bs & Q & Hbs & -> & HQ).
  pose proof (encode_bytes _ Hbs) as Hr.
  rewrite unquote_ascii.
  - rewrite (unquote_to_bytes_concat Q plus_as_space).
    + apply decode_encode. now apply encode_plus_as_space.
    + intros b rest Hb. destruct (unquote_plus_quoter rest Hb) as [H1 H2].
      now destruct HQ as [-> | ->].
    + assumption.
  - apply isascii_concat_map; [|assumption].
    intros b Hb. destruct (plus_quoter_isascii Hb) as [H1 H2].
    now destruct HQ as [-> | ->].
Qed.

(** ** C3: the quoted and the unquoted string *)

(** C3 (as amended): for every input with data on which [parse]
    succeeds, [quoted] and [unquoted] are put together from the same
    scheme, netloc and fragment of the normalized split; [quoted] carries
    the normalized path and query percent-encoded, and decoding them
    gives back the normalized path, and the normalized query with [+]
    read as a space; [unquoted] carries the normalized path and query
    decoded.  So decoding the path and query of [quoted] gives the path
    and query of [unquoted] whenever the normalized path and query hold
    no [%]. *)
Theorem quoted_decodes_to_normalized :
  forall (data : pystr) (raw quiet : bool) (r : Dict),
    parse data raw quiet = Ok r ->
    has_data data = true ->
    exists (parts : SplitResult) (sc nl p q f qp qq : pystr),
      urlsplit (unwrap data) = Ok parts
      /\ urlsplit (urlunsplit parts) = Ok (mkSplitResult sc nl p q f)
      /\ get "quoted" r
         = Some (str_or_None (geturl (mkSplitResult sc nl qp qq f)))
      /\ get "unquoted" r
         = Some (str_or_None
                   (geturl (mkSplitResult sc nl (unquote p) (unquote_plus q) f)))
      /\ unquote qp = p
      /\ unquote_plus qq = Str.replace PLUS [SPACE] q
      /\ (Str.mem PERCENT p = false -> unquote qp = unquote p)
      /\ (Str.mem PERCENT q = false -> unquote_plus qq = unquote_plus q).
Proof.
  intros data raw quiet r Hparse Hdata.
  apply parse_ok_inv in Hparse as [[E _]|[_ Hp]]; [congruence|].
  destruct Hp as [parts normalized qp qq up pv H1 H2 H3 H4 _ _].
  destruct normalized as [sc nl p q f]. cbn [path query] in *.
  exists parts, sc, nl, p, q, f, qp, qq.
  pose proof (@unquote_quote p (py "/") qp eq_refl H3) as Ep.
  pose proof (unquote_plus_quote_plus _ H4) as Eq.
  rewrite <- replace_plus_as_space in Eq.
  repeat split; try assumption.
  - intros Hn. now rewrite Ep, unquote_no_percent.
  - intros Hn. rewrite Eq. unfold unquote_plus.
    rewrite unquote_no_percent; [reflexivity|].
    rewrite replace_plus_as_space. apply mem_false_iff. intros Hin.
    apply in_map_iff in Hin as (x & Hx & Hin). unfold plus_as_space in Hx.
    apply mem_false_iff in Hn. apply Hn.
    destruct (N.eqb x PLUS); [discriminate | now subst].
Qed.

(** ** Splitting what [urlunsplit] wrote *)

Lemma plain_visible (c : N) : plain_char c = true -> visible c = true.
Proof.
  unfold plain_char. rewrite !andb_true_iff. tauto.
Qed.

Lemma forallb_impl {A} (p q : A -> bool) (l : list A) :
  (forall x, p x = true -> q x = true) ->
  forallb p l = true -> forallb q l = true.
Proof.
  intros H. rewrite !forallb_forall. intros Hp x Hx. auto.
Qed.

(** A URL of visible characters is read as it is. *)
Lemma url_clean_visible (s : pystr) :
  forallb visible s = true -> url_clean s = s.
Proof.
  intros H. unfold url_clean, Str.lstrip.
  assert (E : Str.dropwhile _WHATWG_C0_CONTROL_OR_SPACE s = s).
  { destruct s as [|c s]; [reflexivity|].
    simpl in H. apply andb_true_iff in H as [H _].
    cbn [Str.dropwhile].
    replace (_WHATWG_C0_CONTROL_OR_SPACE c) with false; [reflexivity|].
    symmetry. unfold visible in H. char_arith. }
  rewrite E. clear E. induction s as [|c s IH]; [reflexivity|].
  simpl in H. apply andb_true_iff in H as [H1 H2].
  cbn [filter].
  replace (_UNSAFE_URL_BYTES_TO_REMOVE c) with false.
  - cbn [negb]. now rewrite IH.
  - symmetry. unfold visible in H1. char_arith.
Qed.

Lemma urlunsplit_text (t : SplitResult) :
  urlunsplit t
  = scheme_text t ++ authority_text t ++ fix_path t
    ++ query_text t ++ fragment_text t.
Proof.
  destruct t as [sc nl p q f].
  unfold urlunsplit, scheme_text, authority_text, fix_path, query_text,
    fragment_text, writes_authority.
  cbn [scheme netloc path query fragment].
  set (c := negb (Str.null nl)
            || negb (Str.null sc) && existsb (Str.eqb sc) uses_netloc
               && negb (Str.eqb (firstn 2 p) (py "//"))).
  set (p' := if negb (Str.null p) && negb (Str.eqb (firstn 1 p) (py "/"))
             then SLASH :: p else p).
  destruct c, sc as [|x sc], q as [|y q], f as [|z f];
    cbn [Str.null negb app py map list_ascii_of_string N_of_ascii];
    rewrite <- ?app_assoc; cbn [app]; rewrite ?app_nil_r;
    rewrite <- ?app_assoc; reflexivity.
Qed.

Lemma scheme_chars_no_colon (pre : pystr) :
  forallb scheme_chars pre = true -> Str.mem COLON pre = false.
Proof. intros H. eapply not_mem_forallb; [|exact H]. reflexivity. Qed.

Lemma firstn_length_app {A} (a b : list A) : firstn (length a) (a ++ b) = a.
Proof.
  rewrite firstn_app, Nat.sub_diag, firstn_all. simpl. apply app_nil_r.
Qed.

Lemma skipn_length_app {A} (a b : list A) : skipn (length a) (a ++ b) = b.
Proof.
  rewrite skipn_app, Nat.sub_diag, skipn_all. reflexivity.
Qed.

(** A scheme written by [urlunsplit] is found again. *)
Lemma scheme_split_found (pre x : pystr) :
  Str.is_alpha (hd 0%N pre) = true ->
  forallb scheme_chars pre = true ->
  scheme_split (pre ++ COLON :: x) = (Str.ascii_lower pre, x).
Proof.
  intros Ha Hs. unfold scheme_split.
  rewrite find_app_found by now apply scheme_chars_no_colon.
  destruct pre as [|c pre]; [discriminate Ha|].
  cbn [length].
  change (S (length pre)) with (length (c :: pre)).
  rewrite firstn_length_app.
  change (hd 0%N ((c :: pre) ++ COLON :: x)) with (hd 0%N (c :: pre)).
  rewrite Ha, Hs. cbn [andb]. f_equal.
  replace (length (c :: pre) + 1)%nat with (length ((c :: pre) ++ [COLON]))
    by (rewrite length_app; reflexivity).
  change ((c :: pre) ++ COLON :: x) with ((c :: pre) ++ [COLON] ++ x).
  rewrite app_assoc. apply skipn_length_app.
Qed.

Lemma scheme_split_none (u : pystr) :
  has_scheme u = false -> scheme_split u = ([], u).
Proof.
  unfold has_scheme, scheme_split.
  destruct (Str.find COLON u) as [[|i]|]; try reflexivity.
  now intros ->.
Qed.

Lemma has_scheme_not_alpha (u : pystr) :
  Str.is_alpha (hd 0%N u) = false -> has_scheme u = false.
Proof.
  intros H. unfold has_scheme.
  destruct (Str.find COLON u) as [[|i]|]; try reflexivity.
  now rewrite H.
Qed.

Lemma find_app_left (c : N) (a b : pystr) (i : nat) :
  Str.find c a = Some i -> Str.find c (a ++ b) = Some i.
Proof.
  revert i. induction a as [|x a IH]; intros i; [discriminate|].
  simpl. destruct (N.eqb x c); [trivial|].
  destruct (Str.find c a) as [j|]; [|discriminate].
  intros E. now rewrite (IH j eq_refl).
Qed.

Lemma find_lt_length (c : N) (a : pystr) (i : nat) :
  Str.find c a = Some i -> (i < length a)%nat.
Proof.
  revert i. induction a as [|x a IH]; intros i; [discriminate|].
  simpl. destruct (N.eqb x c).
  - intros E. injection E as <-. lia.
  - destruct (Str.find c a) as [j|]; [|discriminate].
    intros E. injection E as <-. specialize (IH j eq_refl). lia.
Qed.

Lemma find_app_right (c : N) (a b : pystr) :
  Str.find c a = None ->
  Str.find c (a ++ b) = option_map (Nat.add (length a)) (Str.find c b).
Proof.
  induction a as [|x a IH]; intros H.
  - simpl. now destruct (Str.find c b).
  - simpl in *. destruct (N.eqb x c); [discriminate|].
    destruct (Str.find c a); [discriminate|].
    rewrite IH by reflexivity. now destruct (Str.find c b).
Qed.

(** Text that begins with a character no scheme holds does not change
    whether a scheme is found before it. *)
Lemma has_scheme_app_tail (p tail : pystr) :
  (tail = [] \/ exists c t, tail = c :: t /\ scheme_chars c = false
                            /\ c <> COLON) ->
  has_scheme (p ++ tail) = has_scheme p.
Proof.
  intros Ht. unfold has_scheme.
  destruct (Str.find COLON p) as [i|] eqn:F.
  - erewrite find_app_left by exact F.
    pose proof F as Hi. apply find_lt_length in Hi.
    destruct i as [|i]; [reflexivity|].
    rewrite firstn_app.
    replace (S i - length p)%nat with O by lia.
    cbn [firstn]. rewrite app_nil_r.
    destruct p; [discriminate F | reflexivity].
  - rewrite find_app_right by assumption.
    destruct Ht as [->|(c & t & -> & Hc & Hne)]; [reflexivity|].
    cbn [Str.find]. apply N.eqb_neq in Hne. rewrite Hne.
    destruct (Str.find COLON t) as [j|]; cbn [option_map];
      [|now destruct (length p)].
    replace (length p + S j)%nat with (S (length p + j)) by lia.
    rewrite firstn_app, firstn_all2 by lia.
    replace (S (length p + j) - length p)%nat with (S j) by lia.
    cbn [firstn]. rewrite forallb_app. cbn [forallb]. rewrite Hc.
    now rewrite andb_false_r, andb_false_r.
Qed.

Lemma break_app (p : N -> bool) (a rest : pystr) :
  forallb (fun c => negb (p c)) a = true ->
  (rest = [] \/ exists c t, rest = c :: t /\ p c = true) ->
  break p (a ++ rest) = (a, rest).
Proof.
  intros Ha Hr. induction a as [|x a IH].
  - destruct Hr as [->|(c & t & -> & Hc)]; [reflexivity|].
    simpl. now rewrite Hc.
  - simpl in Ha. apply andb_true_iff in Ha as [Hx Ha].
    apply negb_true_iff in Hx. simpl. rewrite Hx, (IH Ha). reflexivity.
Qed.

Lemma tail_split_text (p q f : pystr) :
  Str.mem QMARK p = false -> Str.mem HASH p = false ->
  Str.mem HASH q = false ->
  tail_split (p ++ (if Str.null q then [] else QMARK :: q)
                ++ (if Str.null f then [] else HASH :: f))
  = (p, q, f).
Proof.
  intros Hq Hh Hqh. unfold tail_split.
  destruct f as [|z f]; cbn [Str.null].
  - rewrite app_nil_r.
    rewrite partition_not_found.
    + destruct q as [|y q]; cbn [Str.null].
      * rewrite app_nil_r, partition_not_found by assumption. reflexivity.
      * rewrite partition_found by assumption. reflexivity.
    + destruct q as [|y q]; cbn [Str.null];
        rewrite mem_app, Hh; [reflexivity|].
      simpl. simpl in Hqh. exact Hqh.
  - rewrite app_assoc, partition_found.
    + destruct q as [|y q]; cbn [Str.null].
      * rewrite app_nil_r, partition_not_found by assumption. reflexivity.
      * rewrite partition_found by assumption. reflexivity.
    + destruct q as [|y q]; cbn [Str.null];
        rewrite mem_app, Hh; [reflexivity|].
      simpl. simpl in Hqh. exact Hqh.
Qed.

Lemma plain_app_inv (a b : pystr) :
  forallb plain_char (a ++ b) = true ->
  forallb plain_char a = true /\ forallb plain_char b = true.
Proof. rewrite forallb_app. apply andb_true_iff. Qed.

(** The components of well-split parts are plain, each of them. *)
Lemma well_split_plain (t : SplitResult) :
  well_split t ->
  forallb plain_char (scheme t) = true
  /\ forallb plain_char (netloc t) = true
  /\ forallb plain_char (path t) = true
  /\ forallb plain_char (query t) = true
  /\ forallb plain_char (fragment t) = true.
Proof.
  intros W. pose proof (ws_plain W) as H.
  apply plain_app_inv in H as [H1 H].
  apply plain_app_inv in H as [H2 H].
  apply plain_app_inv in H as [H3 H].
  apply plain_app_inv in H as [H4 H5]. auto.
Qed.

Lemma fix_path_cases (t : SplitResult) :
  fix_path t = path t \/ fix_path t = SLASH :: path t.
Proof.
  unfold fix_path. destruct (writes_authority t); [|now left].
  destruct (negb (Str.null (path t))
            && negb (Str.eqb (firstn 1 (path t)) (py "/"))); auto.
Qed.

Lemma fix_path_plain (t : SplitResult) :
  forallb plain_char (path t) = true -> forallb plain_char (fix_path t) = true.
Proof.
  intros H. destruct (fix_path_cases t) as [-> | ->]; [assumption|].
  simpl. now rewrite H.
Qed.

(** What [urlunsplit] writes from plain parts is plain. *)
Lemma urlunsplit_plain (t : SplitResult) :
  well_split t -> forallb plain_char (urlunsplit t) = true.
Proof.
  intros W. destruct (well_split_plain W) as (H1 & H2 & H3 & H4 & H5).
  rewrite urlunsplit_text, !forallb_app.
  rewrite (fix_path_plain _ H3).
  unfold scheme_text, authority_text, query_text, fragment_text.
  destruct (Str.null (scheme t)), (writes_authority t),
    (Str.null (query t)), (Str.null (fragment t));
    cbn [forallb andb]; rewrite ?forallb_app, ?H1, ?H2, ?H4, ?H5;
    reflexivity.
Qed.

Lemma firstn2_app_tail (p tail : pystr) :
  Str.eqb (firstn 2 p) (py "//") = false ->
  (tail = [] \/ exists c t, tail = c :: t /\ c <> SLASH) ->
  Str.eqb (firstn 2 (p ++ tail)) (py "//") = false.
Proof.
  intros Hp Ht.
  destruct Ht as [->|(c & t & -> & Hc)]; [now rewrite app_nil_r|].
  apply N.eqb_neq in Hc.
  destruct p as [|x [|y p]]; [| |exact Hp].
  - change (Str.eqb (firstn 2 ([] ++ c :: t)) (py "//"))
      with (Str.eqb (firstn 2 (c :: t)) [SLASH; SLASH]).
    destruct t; cbn [firstn Str.eqb]; now rewrite Hc.
  - change (Str.eqb (firstn 2 ([x] ++ c :: t)) (py "//"))
      with (N.eqb x SLASH && (N.eqb c SLASH && true)).
    rewrite Hc. now rewrite andb_false_r.
Qed.

(** The text behind the path begins with [?] or [#], if it is there. *)
Lemma tail_text_cases (t : SplitResult) :
  query_text t ++ fragment_text t = []
  \/ exists c s, query_text t ++ fragment_text t = c :: s
                 /\ (c = QMARK \/ c = HASH).
Proof.
  unfold query_text, fragment_text.
  destruct (query t) as [|y q], (fragment t) as [|z f]; cbn [Str.null app].
  - now left.
  - right. exists HASH, (z :: f). split; [reflexivity | now right].
  - right. exists QMARK, ((y :: q) ++ []). split; [reflexivity | now left].
  - right. exists QMARK, ((y :: q) ++ HASH :: z :: f).
    split; [reflexivity | now left].
Qed.

Lemma writes_authority_false (t : SplitResult) :
  writes_authority t = false -> netloc t = [] /\ fix_path t = path t.
Proof.
  intros H. unfold fix_path. rewrite H. split; [|reflexivity].
  unfold writes_authority in H. apply orb_false_iff in H as [H _].
  now destruct (netloc t).
Qed.

Lemma fix_path_no (c : N) (t : SplitResult) :
  c <> SLASH -> Str.mem c (path t) = false -> Str.mem c (fix_path t) = false.
Proof.
  intros Hc H. destruct (fix_path_cases t) as [-> | ->]; [assumption|].
  rewrite mem_cons, H. apply N.eqb_neq in Hc. now rewrite Hc.
Qed.

(** The text behind the authority begins with a delimiter, if it is
    there. *)
Lemma after_authority_cases (t : SplitResult) :
  writes_authority t = true ->
  let rest := fix_path t ++ query_text t ++ fragment_text t in
  rest = [] \/ exists c s, rest = c :: s /\ is_delim c = true.
Proof.
  intros Wa rest. unfold rest, fix_path. rewrite Wa.
  destruct (path t) as [|x p] eqn:Ep.
  - cbn [Str.null negb andb app].
    destruct (tail_text_cases t) as [-> | (c & s & -> & [-> | ->])];
      [now left | right; eexists; eexists; split; reflexivity ..].
  - cbn [Str.null negb andb firstn].
    destruct (Str.eqb [x] (py "/")) eqn:E; cbn [negb].
    + apply eqb_true_iff in E. injection E as ->.
      right. eexists; eexists; split; reflexivity.
    + right. eexists; eexists; split; reflexivity.
Qed.

(** [urlsplit] reads in what [urlunsplit] wrote the scheme, the netloc,
    the query and the fragment it was given, and the path as it was
    written. *)
Lemma resplit_spec (t : SplitResult) :
  well_split t ->
  split_parts (urlunsplit t) = resplit t
  /\ authority_of (urlunsplit t) = netloc t.
Proof.
  intros W.
  pose proof (urlunsplit_plain W) as Hplain.
  assert (Hclean : url_clean (urlunsplit t) = urlunsplit t).
  { apply url_clean_visible.
    eapply forallb_impl; [apply plain_visible | exact Hplain]. }
  set (rest := fix_path t ++ query_text t ++ fragment_text t).
  assert (Hs : scheme_split (urlunsplit t)
               = (scheme t, authority_text t ++ rest)).
  { rewrite urlunsplit_text. fold rest. unfold scheme_text.
    destruct (ws_scheme W) as [E | (Ha & Hc & Hl)].
    - rewrite E. cbn [Str.null app]. apply scheme_split_none.
      unfold authority_text. destruct (writes_authority t) eqn:Wa.
      + now apply has_scheme_not_alpha.
      + destruct (writes_authority_false _ Wa) as [Hnl Hfix].
        cbn [app]. unfold rest. rewrite Hfix, has_scheme_app_tail.
        * now apply (ws_no_scheme W).
        * destruct (tail_text_cases t) as [-> | (c & s & -> & Hcs)];
            [now left | right].
          exists c, s. now destruct Hcs as [-> | ->].
    - destruct (scheme t) as [|c sc] eqn:Esc; [discriminate Ha|].
      cbn [Str.null]. rewrite <- app_assoc. cbn [app].
      change (c :: sc ++ COLON :: authority_text t ++ rest)
        with ((c :: sc) ++ COLON :: authority_text t ++ rest).
      rewrite scheme_split_found by assumption. now rewrite Hl. }
  assert (Ha : authority_split (authority_text t ++ rest) = (netloc t, rest)).
  { unfold authority_text. destruct (writes_authority t) eqn:Wa.
    - unfold authority_split. cbn [app firstn skipn].
      change (Str.eqb [SLASH; SLASH] (py "//")) with true. cbv iota.
      apply break_app; [apply (ws_netloc W) | now apply after_authority_cases].
    - destruct (writes_authority_false _ Wa) as [Hnl Hfix].
      cbn [app]. unfold authority_split, rest.
      rewrite Hfix, firstn2_app_tail, Hnl; [reflexivity | |].
      + now apply (ws_no_slashes W).
      + destruct (tail_text_cases t) as [-> | (c & s & -> & Hcs)];
          [now left | right].
        exists c, s. now destruct Hcs as [-> | ->]. }
  assert (Ht : tail_split rest = (fix_path t, query t, fragment t)).
  { unfold rest, query_text, fragment_text. apply tail_split_text.
    - apply fix_path_no; [discriminate | apply (ws_path_q W)].
    - apply fix_path_no; [discriminate | apply (ws_path_h W)].
    - apply (ws_query_h W). }
  split.
  - unfold split_parts. rewrite Hclean, Hs, Ha, Ht. reflexivity.
  - unfold authority_of. rewrite Hclean, Hs. cbn [snd]. now rewrite Ha.
Qed.

(** ** Parts that stay as they are *)

Lemma slash_added_once (p p' : pystr) :
  p' = (if negb (Str.null p) && negb (Str.eqb (firstn 1 p) (py "/"))
        then SLASH :: p else p) ->
  negb (Str.null p') && negb (Str.eqb (firstn 1 p') (py "/")) = false.
Proof.
  intros ->.
  destruct (negb (Str.null p) && negb (Str.eqb (firstn 1 p) (py "/"))) eqn:E;
    [reflexivity | exact E].
Qed.

Lemma slash_added_no_slashes (p : pystr) :
  Str.eqb (firstn 2 p) (py "//") = false ->
  Str.eqb (firstn 2 (if negb (Str.null p)
                        && negb (Str.eqb (firstn 1 p) (py "/"))
                     then SLASH :: p else p)) (py "//") = false.
Proof.
  intros H.
  destruct (negb (Str.null p) && negb (Str.eqb (firstn 1 p) (py "/"))) eqn:E;
    [|exact H].
  destruct p as [|x p]; [discriminate E|].
  cbn [Str.null negb andb firstn] in E. apply negb_true_iff in E.
  change (Str.eqb [x] (py "/")) with (N.eqb x SLASH && true) in E.
  rewrite andb_true_r in E.
  change (Str.eqb (firstn 2 (SLASH :: x :: p)) (py "//"))
    with (true && (N.eqb x SLASH && true)).
  now rewrite E.
Qed.

Lemma fix_path_no_slashes (t : SplitResult) :
  Str.eqb (firstn 2 (path t)) (py "//") = false ->
  Str.eqb (firstn 2 (fix_path t)) (py "//") = false.
Proof.
  intros H. unfold fix_path. destruct (writes_authority t); [|exact H].
  now apply slash_added_no_slashes.
Qed.

Lemma writes_authority_resplit (t : SplitResult) :
  well_split t -> writes_authority (resplit t) = writes_authority t.
Proof.
  intros W. unfold writes_authority. cbn [resplit scheme netloc path].
  destruct (netloc t) as [|x nl] eqn:E; [|reflexivity].
  cbn [Str.null negb orb].
  pose proof (ws_no_slashes W E) as H.
  now rewrite H, (fix_path_no_slashes _ H).
Qed.

(** Written once more, the path does not change again. *)
Lemma fix_path_resplit (t : SplitResult) :
  well_split t -> fix_path (resplit t) = fix_path t.
Proof.
  intros W. unfold fix_path at 1. rewrite (writes_authority_resplit W).
  cbn [resplit path]. destruct (writes_authority t) eqn:Wa; [|reflexivity].
  assert (E : fix_path t
              = if negb (Str.null (path t))
                   && negb (Str.eqb (firstn 1 (path t)) (py "/"))
                then SLASH :: path t else path t).
  { unfold fix_path. now rewrite Wa. }
  now rewrite (slash_added_once _ E).
Qed.

Lemma resplit_idem (t : SplitResult) :
  well_split t -> resplit (resplit t) = resplit t.
Proof.
  intros W. unfold resplit at 1. rewrite (fix_path_resplit W). reflexivity.
Qed.

Lemma well_split_resplit (t : SplitResult) :
  well_split t -> well_split (resplit t).
Proof.
  intros W. destruct (well_split_plain W) as (H1 & H2 & H3 & H4 & H5).
  constructor; cbn [resplit scheme netloc path query fragment].
  - apply (ws_scheme W).
  - apply (ws_netloc W).
  - apply fix_path_no; [discriminate | apply (ws_path_q W)].
  - apply fix_path_no; [discriminate | apply (ws_path_h W)].
  - apply (ws_query_h W).
  - intros Hs Hn.
    assert (Wa : writes_authority t = false).
    { unfold writes_authority. now rewrite Hs, Hn. }
    destruct (writes_authority_false _ Wa) as [_ ->].
    now apply (ws_no_scheme W).
  - intros Hn. apply fix_path_no_slashes. now apply (ws_no_slashes W).
  - rewrite !forallb_app, H1, H2, H4, H5, (fix_path_plain _ H3). reflexivity.
Qed.

Lemma no_leading_bracket_resplit (t : SplitResult) :
  no_leading_bracket t -> no_leading_bracket (resplit t).
Proof.
  intros B Hs Hn. cbn [resplit scheme netloc path] in *.
  assert (Wa : writes_authority t = false).
  { unfold writes_authority. now rewrite Hs, Hn. }
  destruct (writes_authority_false _ Wa) as [_ ->]. now apply B.
Qed.

(** ** The parts of a plain input *)

Lemma scheme_split_cases (u : pystr) :
  (has_scheme u = false /\ scheme_split u = ([], u))
  \/ (exists pre rest,
        u = pre ++ COLON :: rest
        /\ pre <> []
        /\ Str.is_alpha (hd 0%N pre) = true
        /\ forallb scheme_chars pre = true
        /\ scheme_split u = (Str.ascii_lower pre, rest)).
Proof.
  destruct (has_scheme u) eqn:E.
  - right. destruct (scheme_split_spec u) as [H | H]; [|exact H].
    exfalso. revert E H. unfold has_scheme, scheme_split.
    destruct (Str.find COLON u) as [[|i]|] eqn:F; try discriminate.
    intros ->. destruct u; [discriminate F | discriminate].
  - left. split; [reflexivity | now apply scheme_split_none].
Qed.

Lemma tail_split_spec (s p q f : pystr) :
  tail_split s = (p, q, f) ->
  exists tail,
    s = p ++ tail
    /\ (tail = [] \/ exists c t, tail = c :: t /\ (c = QMARK \/ c = HASH))
    /\ Str.mem QMARK p = false /\ Str.mem HASH p = false
    /\ Str.mem HASH q = false
    /\ (forall P, forallb P s = true -> forallb P (p ++ q ++ f) = true).
Proof.
  unfold tail_split.
  destruct (partition_spec HASH s) as [[Hm ->] | (a & b & -> & Hm & ->)].
  - destruct (partition_spec QMARK s) as [[Hq ->] | (a' & b' & -> & Hq & ->)];
      intros E; injection E as <- <- <-.
    + exists []. rewrite !app_nil_r. repeat split; auto.
    + rewrite mem_app, mem_cons in Hm. apply orb_false_iff in Hm as [Hm1 Hm2].
      apply orb_false_iff in Hm2 as [_ Hm2].
      exists (QMARK :: b'). repeat split; auto.
      * right. exists QMARK, b'. auto.
      * intros P. rewrite app_nil_r, !forallb_app. cbn [forallb].
        intros H. apply andb_true_iff in H as [H1 H]. 
        apply andb_true_iff in H as [_ H]. now rewrite H1, H.
  - destruct (partition_spec QMARK a) as [[Hq ->] | (a' & b' & -> & Hq & ->)];
      intros E; injection E as <- <- <-.
    + exists (HASH :: b). repeat split; auto.
      * right. exists HASH, b. auto.
      * intros P. rewrite !forallb_app. cbn [forallb app].
        intros H. apply andb_true_iff in H as [H1 H]. 
        apply andb_true_iff in H as [_ H]. now rewrite H1, H.
    + rewrite mem_app, mem_cons in Hm. apply orb_false_iff in Hm as [Hm1 Hm2].
      apply orb_false_iff in Hm2 as [_ Hm2].
      exists (QMARK :: b' ++ HASH :: b). repeat split; auto.
      * now rewrite <- app_assoc.
      * right. exists QMARK, (b' ++ HASH :: b). auto.
      * intros P. rewrite !forallb_app. cbn [forallb].
        intros H. apply andb_true_iff in H as [H H3].
        apply andb_true_iff in H as [H1 H2].
        apply andb_true_iff in H2 as [_ H2].
        apply andb_true_iff in H3 as [_ H3]. now rewrite H1, H2, H3.
Qed.

Lemma hd_app_nonempty (p tail : pystr) :
  p <> [] -> hd 0%N (p ++ tail) = hd 0%N p.
Proof. destruct p; [congruence | reflexivity]. Qed.

Lemma delim_not_alpha (c : N) : is_delim c = true -> Str.is_alpha c = false.
Proof. intros H. char_arith. Qed.

Lemma delim_not_bracket (c : N) : is_delim c = true -> N.eqb c LT_SIGN = false.
Proof. intros H. char_arith. Qed.

(** The authority, path, query and fragment found in the text after the
    scheme. *)
Lemma rest_split_spec (rest nl rest' p q f : pystr) :
  authority_split rest = (nl, rest') -> tail_split rest' = (p, q, f) ->
  forallb (fun c => negb (is_delim c)) nl = true
  /\ Str.mem QMARK p = false /\ Str.mem HASH p = false
  /\ Str.mem HASH q = false
  /\ (forall P, forallb P rest = true -> forallb P (nl ++ p ++ q ++ f) = true)
  /\ (nl = [] ->
      (Str.startswith (py "////") rest = false ->
       Str.eqb (firstn 2 p) (py "//") = false)
      /\ (has_scheme rest = false -> has_scheme p = false)
      /\ (N.eqb (hd 0%N rest) LT_SIGN = false ->
          N.eqb (hd 0%N p) LT_SIGN = false)).
Proof.
  intros Ha Ht.
  destruct (tail_split_spec _ Ht) as (tail & Er & Htail & Hq & Hh & Hqh & Hall).
  assert (Hsch : tail = [] \/ exists c t, tail = c :: t
                                /\ scheme_chars c = false /\ c <> COLON).
  { destruct Htail as [-> | (c & t & -> & Hc)]; [now left | right].
    exists c, t. now destruct Hc as [-> | ->]. }
  destruct (authority_split_spec rest)
    as [[E Ha'] | (nl0 & r0 & Er0 & Hnd & Hr0 & Ha')];
    rewrite Ha' in Ha; injection Ha as <- <-.
  - repeat split; auto.
    + intros Hs. destruct (Str.eqb (firstn 2 p) (py "//")) eqn:Ep; [|reflexivity].
      destruct (firstn2_slashes _ Ep) as [t Et]. rewrite Er, Et in E.
      discriminate E.
    + rewrite Er at 1. now rewrite has_scheme_app_tail.
    + destruct p as [|x p]; [reflexivity|]. rewrite Er at 1. trivial.
  - assert (Hp : p = [] \/ exists x p', p = x :: p' /\ is_delim x = true).
    { destruct p as [|x p]; [now left | right]. exists x, p. split; [reflexivity|].
      destruct Hr0 as [-> | (c & t & Hr0 & Hc)]; [discriminate Er|].
      rewrite Hr0 in Er. injection Er as -> _. exact Hc. }
    repeat split; auto.
    + intros P. rewrite Er0. cbn [forallb]. rewrite !forallb_app.
      intros H. apply andb_true_iff in H as [_ H].
      apply andb_true_iff in H as [_ H]. apply andb_true_iff in H as [H1 H2].
      rewrite H1. rewrite <- !forallb_app. now apply Hall.
    + intros Hs. destruct (Str.eqb (firstn 2 p) (py "//")) eqn:Ep; [|reflexivity].
      destruct (firstn2_slashes _ Ep) as [t Et].
      rewrite Er0, H, Er, Et in Hs. discriminate Hs.
    + intros _. destruct Hp as [-> | (x & p' & -> & Hx)]; [reflexivity|].
      apply has_scheme_not_alpha. now apply delim_not_alpha.
    + intros _. destruct Hp as [-> | (x & p' & -> & Hx)]; [reflexivity|].
      now apply delim_not_bracket.
Qed.

Lemma lower_not_upper (c : N) :
  Str.is_upper c = true -> Str.is_upper (c + 32) = false.
Proof. intros H. char_arith. Qed.

Lemma ascii_lower_idem (s : pystr) :
  Str.ascii_lower (Str.ascii_lower s) = Str.ascii_lower s.
Proof.
  unfold Str.ascii_lower. rewrite map_map. apply map_ext. intros c.
  destruct (Str.is_upper c) eqn:E; [|now rewrite E].
  now rewrite (lower_not_upper _ E).
Qed.

Lemma lower_char_facts (c : N) :
  let c' := if Str.is_upper c then (c + 32)%N else c in
  (Str.is_alpha c = true -> Str.is_alpha c' = true)
  /\ (scheme_chars c = true -> scheme_chars c' = true)
  /\ (plain_char c = true -> plain_char c' = true).
Proof.
  cbv zeta. destruct (Str.is_upper c) eqn:E; [|auto].
  repeat split; intros H; char_arith.
Qed.

Lemma ascii_lower_forallb (P : N -> bool) (s : pystr) :
  (forall c, P c = true ->
             P (if Str.is_upper c then (c + 32)%N else c) = true) ->
  forallb P s = true -> forallb P (Str.ascii_lower s) = true.
Proof.
  intros HP. unfold Str.ascii_lower. induction s as [|c s IH]; [reflexivity|].
  cbn [forallb map]. intros H. apply andb_true_iff in H as [H1 H2].
  now rewrite (HP _ H1), IH.
Qed.

Lemma ascii_lower_hd (s : pystr) :
  Str.is_alpha (hd 0%N s) = true ->
  Str.is_alpha (hd 0%N (Str.ascii_lower s)) = true.
Proof.
  destruct s as [|c s]; [discriminate|]. cbn [hd Str.ascii_lower map].
  apply lower_char_facts.
Qed.

(** The parts of a plain input that does not begin with an angle bracket
    and has no four slashes after its scheme are well split. *)
Lemma split_parts_well_split (d : pystr) :
  stable_input d = true -> well_split (split_parts d).
Proof.
  unfold stable_input. intros H.
  apply andb_true_iff in H as [H H3]. apply andb_true_iff in H as [H1 H2].
  apply negb_true_iff in H2, H3.
  assert (Hclean : url_clean d = d).
  { apply url_clean_visible.
    eapply forallb_impl; [apply plain_visible | exact H1]. }
  destruct (scheme_split d) as [sc rest] eqn:Hss. cbn [snd] in H3.
  destruct (authority_split rest) as [nl rest'] eqn:Has.
  destruct (tail_split rest') as [[p q] f] eqn:Hts.
  assert (E : split_parts d = mkSplitResult sc nl p q f).
  { unfold split_parts. now rewrite Hclean, Hss, Has, Hts. }
  rewrite E.
  destruct (rest_split_spec _ Has Hts) as (Hnl & Hq & Hh & Hqh & Hall & Hnil).
  destruct (scheme_split_cases d)
    as [[Hhs Hss'] | (pre & r0 & Ed & Hne & Ha & Hc & Hss')];
    rewrite Hss' in Hss; injection Hss as <- <-.
  - constructor; cbn [scheme netloc path query fragment]; auto;
      try (intros; now apply Hnil).
  - assert (Hsc : Str.ascii_lower pre <> []).
    { destruct pre; [congruence | discriminate]. }
    rewrite Ed, forallb_app in H1. cbn [forallb] in H1.
    apply andb_true_iff in H1 as [Hp1 Hp2].
    apply andb_true_iff in Hp2 as [_ Hp2].
    constructor; cbn [scheme netloc path query fragment]; auto;
      try (intros; contradiction); try (intros; now apply Hnil).
    + right. split; [now apply ascii_lower_hd|].
      split; [|apply ascii_lower_idem].
      apply ascii_lower_forallb; [apply lower_char_facts | exact Hc].
    + rewrite forallb_app. rewrite (Hall _ Hp2), andb_true_r.
      apply ascii_lower_forallb; [apply lower_char_facts | exact Hp1].
Qed.

Lemma split_parts_no_bracket (d : pystr) :
  stable_input d = true -> no_leading_bracket (split_parts d).
Proof.
  unfold stable_input. intros H.
  apply andb_true_iff in H as [H H3]. apply andb_true_iff in H as [H1 H2].
  apply negb_true_iff in H2.
  assert (Hclean : url_clean d = d).
  { apply url_clean_visible.
    eapply forallb_impl; [apply plain_visible | exact H1]. }
  destruct (scheme_split d) as [sc rest] eqn:Hss.
  destruct (authority_split rest) as [nl rest'] eqn:Has.
  destruct (tail_split rest') as [[p q] f] eqn:Hts.
  assert (E : split_parts d = mkSplitResult sc nl p q f).
  { unfold split_parts. now rewrite Hclean, Hss, Has, Hts. }
  rewrite E. intros Hs Hn. cbn [scheme netloc path] in *. subst sc nl.
  destruct (rest_split_spec _ Has Hts) as (_ & _ & _ & _ & _ & Hnil).
  destruct (scheme_split_cases d)
    as [[_ Hss'] | (pre & r0 & _ & Hne & _ & _ & Hss')];
    rewrite Hss' in Hss.
  - injection Hss as <-. now apply Hnil.
  - exfalso. destruct pre; [congruence | discriminate Hss].
Qed.

(** ** The text written from well-split parts *)

Lemma plain_not_space (c : N) : plain_char c = true -> Str.is_space c = false.
Proof.
  unfold plain_char. intros H. apply andb_true_iff in H as [H _].
  apply andb_true_iff in H as [H _]. apply andb_true_iff in H as [_ H].
  now apply negb_true_iff in H.
Qed.

Lemma plain_no_escape (s : pystr) :
  forallb plain_char s = true ->
  Str.mem PERCENT s = false /\ Str.mem PLUS s = false.
Proof.
  intros H. split; eapply not_mem_forallb; try exact H; reflexivity.
Qed.

Lemma dropwhile_keep (p : N -> bool) (s : pystr) :
  forallb (fun c => negb (p c)) s = true -> Str.dropwhile p s = s.
Proof.
  destruct s as [|c s]; [reflexivity|]. cbn [forallb Str.dropwhile].
  intros H. apply andb_true_iff in H as [H _]. apply negb_true_iff in H.
  now rewrite H.
Qed.

Lemma strip_keep (p : N -> bool) (s : pystr) :
  forallb (fun c => negb (p c)) s = true -> Str.strip p s = s.
Proof.
  intros H. unfold Str.strip, Str.lstrip, Str.rstrip.
  rewrite (dropwhile_keep p (rev s)) by now rewrite forallb_rev.
  rewrite rev_involutive. now apply dropwhile_keep.
Qed.

Lemma strip_plain (s : pystr) :
  forallb plain_char s = true -> Str.strip ws s = s.
Proof.
  intros H. apply strip_keep. eapply forallb_impl; [|exact H].
  intros c Hc. now rewrite (plain_not_space _ Hc).
Qed.

Lemma has_data_plain (s : pystr) :
  s <> [] -> forallb plain_char s = true -> has_data s = true.
Proof.
  destruct s as [|c s]; [congruence|]. intros _ H. cbn [forallb] in H.
  apply andb_true_iff in H as [H _]. apply has_data_cons.
  now apply plain_not_space.
Qed.

Lemma unquoted_of_plain (t : SplitResult) :
  well_split t -> unquoted_of t = urlunsplit t.
Proof.
  intros W. destruct (well_split_plain W) as (_ & _ & Hp & Hq & _).
  destruct (plain_no_escape _ Hp) as [Hp1 _].
  destruct (plain_no_escape _ Hq) as [Hq1 Hq2].
  unfold unquoted_of, geturl, unquote_plus.
  rewrite (replace_absent _ _ _ Hq2).
  rewrite (unquote_no_percent _ Hp1), (unquote_no_percent _ Hq1).
  now destruct t.
Qed.

Lemma urlunsplit_hd (t : SplitResult) :
  well_split t -> no_leading_bracket t ->
  N.eqb (hd 0%N (urlunsplit t)) LT_SIGN = false.
Proof.
  intros W B. rewrite urlunsplit_text. unfold scheme_text.
  destruct (ws_scheme W) as [E | (Ha & _)].
  - rewrite E. cbn [Str.null app]. unfold authority_text.
    destruct (writes_authority t) eqn:Wa; [reflexivity|].
    destruct (writes_authority_false _ Wa) as [Hnl Hfix]. rewrite Hfix.
    cbn [app]. pose proof (B E Hnl) as Hb.
    destruct (path t) as [|x p]; [|exact Hb]. cbn [app].
    destruct (tail_text_cases t) as [-> | (c & s & -> & [-> | ->])];
      reflexivity.
  - destruct (scheme t) as [|c sc]; [discriminate Ha|].
    cbn [Str.null app hd] in *. char_arith.
Qed.

Lemma split_parts_scheme (u : pystr) :
  scheme (split_parts u) = fst (scheme_split (url_clean u)).
Proof.
  unfold split_parts. destruct (scheme_split (url_clean u)) as [sc rest].
  destruct (authority_split rest) as [nl rest'].
  now destruct (tail_split rest') as [[p q] f].
Qed.

Lemma urlunsplit_not_prefixed (t : SplitResult) :
  well_split t -> Str.eqb (firstn 4 (urlunsplit t)) (py "URL:") = false.
Proof.
  intros W.
  destruct (Str.eqb (firstn 4 (urlunsplit t)) (py "URL:")) eqn:E;
    [exfalso | reflexivity].
  apply eqb_true_iff in E.
  pose proof (firstn_skipn 4 (urlunsplit t)) as Hu. rewrite E in Hu.
  assert (Hclean : url_clean (urlunsplit t) = urlunsplit t).
  { apply url_clean_visible.
    eapply forallb_impl; [apply plain_visible | now apply urlunsplit_plain]. }
  assert (Hsc : scheme t = py "url").
  { destruct (resplit_spec W) as [Hsp _].
    change (scheme t) with (scheme (resplit t)).
    rewrite <- Hsp, split_parts_scheme, Hclean, <- Hu.
    change (py "URL:" ++ skipn 4 (urlunsplit t))
      with (py "URL" ++ COLON :: skipn 4 (urlunsplit t)).
    now rewrite scheme_split_found. }
  assert (H85 : hd 0%N (urlunsplit t) = 85%N) by now rewrite <- Hu.
  assert (H117 : hd 0%N (urlunsplit t) = 117%N).
  { rewrite urlunsplit_text. unfold scheme_text. now rewrite Hsc. }
  congruence.
Qed.

Lemma unwrap_urlunsplit (t : SplitResult) :
  well_split t -> no_leading_bracket t ->
  unwrap (urlunsplit t) = urlunsplit t.
Proof.
  intros W B. pose proof (strip_plain _ (urlunsplit_plain W)) as Hs.
  rewrite unwrap_bare; rewrite Hs; [reflexivity|].
  unfold bare. rewrite (urlunsplit_not_prefixed W).
  pose proof (urlunsplit_hd W B) as Hh.
  destruct (urlunsplit t) as [|c s]; [reflexivity|].
  cbn [hd firstn] in *.
  change (Str.eqb [c] [LT_SIGN]) with (N.eqb c LT_SIGN && true).
  now rewrite Hh.
Qed.

Lemma record_of_resplit (t n : SplitResult) (qp qq : pystr)
    (up : SplitResult) (pv : option N) :
  record_of (resplit t) n qp qq up pv = record_of t n qp qq up pv.
Proof. reflexivity. Qed.

Lemma port_resplit (t : SplitResult) : port (resplit t) = port t.
Proof. reflexivity. Qed.

(** ** C6: parsing the unquoted string again *)

(** On a stable input the whole record comes back. *)
Lemma reparse_stable (data : pystr) (raw quiet : bool) (r : Dict) (u : pystr) :
  parse data raw quiet = Ok r ->
  get "unquoted" r = Some (PyStr u) ->
  stable_input (unwrap data) = true ->
  parse u raw quiet = Ok r.
Proof.
  intros Hparse Hu Hst.
  apply parse_ok_inv in Hparse as [[_ ->]|[_ Hp]];
    [rewrite get_empty in Hu; discriminate Hu|].
  destruct Hp as [parts normalized qp qq up pv H1 H2 H3 H4 H5 H6].
  rewrite get_unquoted in Hu. injection Hu as Hu.
  apply str_or_None_inv in Hu as [Hu Hne].
  destruct (urlsplit_ok _ H1) as [E1 _].
  pose proof (split_parts_well_split _ Hst) as W0. rewrite <- E1 in W0.
  destruct (urlsplit_ok _ H2) as [E2 _].
  rewrite (proj1 (resplit_spec W0)) in E2.
  pose proof (well_split_resplit W0) as W1. rewrite <- E2 in W1.
  pose proof (split_parts_no_bracket _ Hst) as B0. rewrite <- E1 in B0.
  pose proof (no_leading_bracket_resplit B0) as B1. rewrite <- E2 in B1.
  assert (Hfix : resplit normalized = normalized).
  { rewrite E2. now apply resplit_idem. }
  pose proof (unquoted_of_plain W1) as Hunq.
  destruct (urlsplit_ok _ H5) as [E5 _].
  rewrite Hunq, (proj1 (resplit_spec W1)), Hfix in E5. subst up.
  rewrite Hunq in Hu. subst u.
  rewrite parse_unfold.
  rewrite (has_data_plain Hne (urlunsplit_plain W1)).
  rewrite (unwrap_urlunsplit W1 B1).
  rewrite <- Hunq at 1. rewrite H5. cbn [bind].
  rewrite <- Hunq at 1. rewrite H5. cbn [bind].
  rewrite H3, H4. cbn [bind]. rewrite H5. cbn [bind].
  assert (Hport : port normalized = Ok pv).
  { rewrite E2, port_resplit. exact H6. }
  rewrite Hport. cbn [bind]. f_equal.
  rewrite E2 at 1. apply record_of_resplit.
Qed.


(** * Further properties of the parser *)

(** ** Parsing the unquoted string again *)

(** X1: parsing is stable on plain input.  When [parse] succeeds on an
    input whose unwrapped text is made of plain characters (no control
    character, no whitespace, no [%] and no [+]), does not begin with
    [<] and has no four slashes after its scheme, parsing the [unquoted]
    string of the result returns the same record again: the same path,
    path_list, query, query_list and fragment, and every other field. *)
Theorem reparse_of_plain_input_is_stable :
  forall (data : pystr) (raw quiet : bool) (r : Dict) (u : pystr),
    parse data raw quiet = Ok r ->
    get "unquoted" r = Some (PyStr u) ->
    stable_input (unwrap data) = true ->
    parse u raw quiet = Ok r.
Proof.
  intros data raw quiet r u Hparse Hu Hst.
  exact (@reparse_stable data raw quiet r u Hparse Hu Hst).
Qed.

(** ** Whitespace around the input *)

Lemma has_data_spec (d : pystr) : has_data d = negb (forallb Str.is_space d).
Proof.
  destruct d as [|c d]; [reflexivity|].
  unfold has_data, Str.isspace. reflexivity.
Qed.

Lemma rstrip_all (p : N -> bool) (s : pystr) :
  forallb p s = true -> Str.rstrip p s = [].
Proof.
  intros H. unfold Str.rstrip. rewrite dropwhile_all; [reflexivity|].
  now rewrite forallb_rev.
Qed.

Lemma rstrip_app_all (p : N -> bool) (a b : pystr) :
  forallb p b = true -> Str.rstrip p (a ++ b) = Str.rstrip p a.
Proof.
  intros H. unfold Str.rstrip. rewrite rev_app_distr, dropwhile_app.
  now rewrite forallb_rev, H.
Qed.

Lemma rstrip_app_some (p : N -> bool) (a b : pystr) :
  forallb p b = false -> Str.rstrip p (a ++ b) = a ++ Str.rstrip p b.
Proof.
  intros H. unfold Str.rstrip. rewrite rev_app_distr, dropwhile_app.
  rewrite forallb_rev, H. now rewrite rev_app_distr, rev_involutive.
Qed.

Lemma strip_surrounded (p : N -> bool) (pre s post : pystr) :
  forallb p pre = true -> forallb p post = true ->
  Str.strip p (pre ++ s ++ post) = Str.strip p s.
Proof.
  intros Hpre Hpost. unfold Str.strip, Str.lstrip.
  rewrite app_assoc, rstrip_app_all by exact Hpost.
  destruct (forallb p s) eqn:Hs.
  - rewrite (@rstrip_all p s Hs), rstrip_all; [reflexivity|].
    now rewrite forallb_app, Hpre, Hs.
  - rewrite rstrip_app_some by exact Hs. rewrite dropwhile_app.
    now rewrite Hpre.
Qed.

(** X2: whitespace before and after the input does not matter.  For all
    strings [pre] and [post] made of whitespace only (a trailing newline,
    say), [parse] returns on [pre ++ data ++ post] what it returns on
    [data]; this holds of the empty and the failing [data] as well. *)
Theorem surrounding_whitespace_is_ignored :
  forall (pre data post : pystr) (raw quiet : bool),
    forallb Str.is_space pre = true ->
    forallb Str.is_space post = true ->
    parse (pre ++ data ++ post) raw quiet = parse data raw quiet.
Proof.
  intros pre data post raw quiet Hpre Hpost. apply parse_congr.
  - rewrite !has_data_spec, !forallb_app, Hpre, Hpost.
    now rewrite andb_true_r.
  - rewrite !unwrap_unfold. now rewrite strip_surrounded.
Qed.

(** ** The shape of the record *)

(** X3: the keys of the result.  Whatever [parse] returns is the empty
    dictionary (exactly when the input has no data) or a record with the
    thirteen keys of the schema, each once and in the order of the
    schema. *)
Theorem result_has_the_schema_keys :
  forall (data : pystr) (raw quiet : bool) (r : Dict),
    parse data raw quiet = Ok r ->
    (has_data data = false /\ r = [])
    \/ (has_data data = true /\ map fst r = schema_keys).
Proof.
  intros data raw quiet r Hparse.
  apply parse_ok_inv in Hparse as [H|[Hd Hp]]; [now left | right].
  split; [exact Hd|]. now destruct Hp.
Qed.

(** X4: the raw output is the processed output.  [_process] returns the
    dictionary it is given, so [parse] with [raw] set returns what it
    returns without it, on every input, failures included. *)
Theorem raw_output_is_the_processed_output :
  forall (data : pystr) (quiet : bool),
    parse data true quiet = parse data false quiet.
Proof. intros. now rewrite !parse_unfold. Qed.

(** X5: the nine fields written [x or None] are never empty.  In a record
    [parse] returns, [quoted], [unquoted], [scheme], [netloc], [path] and
    [fragment] are never the empty string, [path_list] and [query_list]
    never the empty list and [query] never the empty dictionary: an empty
    value is emitted as null. *)
Theorem coerced_fields_are_never_empty :
  forall (data : pystr) (raw quiet : bool) (r : Dict),
    parse data raw quiet = Ok r ->
    Forall (fun k => get k r <> Some (PyStr []))
           ["quoted"; "unquoted"; "scheme"; "netloc"; "path";
            "fragment"]%string
    /\ get "path_list" r <> Some (PyList [])
    /\ get "query" r <> Some (PyDict [])
    /\ get "query_list" r <> Some (PyPairs []).
Proof.
  intros data raw quiet r Hparse.
  apply parse_ok_inv in Hparse as [[_ ->]|[_ Hp]].
  - split; [repeat constructor; discriminate | repeat split; discriminate].
  - destruct Hp as [parts normalized qp qq up pv _ _ _ _ _ _].
    assert (Hs : forall s, Some (str_or_None s) <> Some (PyStr [])).
    { intros [|c s]; discriminate. }
    split; [|split; [|split]].
    + repeat constructor; try apply Hs.
      rewrite get_path. unfold optstr_or_None.
      destruct (my_path_of up); [apply Hs | discriminate].
    + rewrite get_path_list.
      destruct (path_list_of up) as [[|x l]|]; discriminate.
    + rewrite get_query.
      destruct (query_obj_of up) as [[|x l]|]; discriminate.
    + rewrite get_query_list.
      destruct (query_list_of up) as [[|x l]|]; discriminate.
Qed.

(** ** Scheme and netloc *)

Lemma ascii_lower_scheme (s : pystr) :
  forallb scheme_chars s = true ->
  forallb scheme_chars (Str.ascii_lower s) = true
  /\ forallb (fun c => negb (Str.is_upper c)) (Str.ascii_lower s) = true.
Proof.
  induction s as [|c s IH]; [now split|].
  cbn [forallb Str.ascii_lower map]. intros H.
  apply andb_true_iff in H as [Hc Hs]. destruct (IH Hs) as [IH1 IH2].
  fold (Str.ascii_lower s). rewrite IH1, IH2, !andb_true_r.
  split; [now apply lower_char_facts|].
  destruct (Str.is_upper c) eqn:E; [|now rewrite E].
  now rewrite (lower_not_upper _ E).
Qed.

Lemma split_parts_netloc (u : pystr) : netloc (split_parts u) = authority_of u.
Proof.
  unfold split_parts, authority_of.
  destruct (scheme_split (url_clean u)) as [sc rest]. cbn [snd].
  destruct (authority_split rest) as [nl rest'].
  now destruct (tail_split rest') as [[p q] f].
Qed.

(** X6: the scheme is lower case.  When [parse] returns a record whose
    [scheme] is not null, the scheme begins with a letter, consists of
    letters, digits, [+], [-] and [.] only, and holds no upper-case
    letter, however the input wrote it. *)
Theorem scheme_field_is_lower_case :
  forall (data : pystr) (raw quiet : bool) (r : Dict) (s : pystr),
    parse data raw quiet = Ok r ->
    get "scheme" r = Some (PyStr s) ->
    Str.is_alpha (hd 0%N s) = true
    /\ forallb scheme_chars s = true
    /\ forallb (fun c => negb (Str.is_upper c)) s = true.
Proof.
  intros data raw quiet r s Hparse Hs.
  apply parse_ok_inv in Hparse as [[_ ->]|[_ Hp]]; [discriminate Hs|].
  destruct Hp as [parts normalized qp qq up pv H1 _ _ _ _ _].
  rewrite get_scheme in Hs. injection Hs as Hs.
  apply str_or_None_inv in Hs as [Hs Hne].
  destruct (urlsplit_ok _ H1) as [E1 _].
  rewrite E1, split_parts_scheme in Hs.
  destruct (scheme_split_cases (url_clean (unwrap data)))
    as [[_ E] | (pre & rest & _ & _ & Ha & Hc & E)];
    rewrite E in Hs; cbn [fst] in Hs; [congruence|]. subst s.
  split; [now apply ascii_lower_hd | now apply ascii_lower_scheme].
Qed.

Lemma check_brackets_balanced (nl : pystr) :
  raises (check_brackets nl) = false ->
  Str.mem LBRACKET nl = Str.mem RBRACKET nl.
Proof.
  unfold check_brackets.
  destruct (Str.mem LBRACKET nl), (Str.mem RBRACKET nl);
    cbn [andb orb negb]; try reflexivity; discriminate.
Qed.

(** X7: the netloc ends at the first delimiter.  When [parse] returns a
    record whose [netloc] is not null, the netloc holds none of [/], [?]
    and [#], and it holds a [[] exactly when it holds a []]. *)
Theorem netloc_field_has_no_delimiter :
  forall (data : pystr) (raw quiet : bool) (r : Dict) (nl : pystr),
    parse data raw quiet = Ok r ->
    get "netloc" r = Some (PyStr nl) ->
    forallb (fun c => negb (is_delim c)) nl = true
    /\ Str.mem LBRACKET nl = Str.mem RBRACKET nl.
Proof.
  intros data raw quiet r nl Hparse Hn.
  apply parse_ok_inv in Hparse as [[_ ->]|[_ Hp]]; [discriminate Hn|].
  destruct Hp as [parts normalized qp qq up pv H1 _ _ _ _ _].
  rewrite get_netloc in Hn. injection Hn as Hn.
  apply str_or_None_inv in Hn as [Hn _].
  destruct (urlsplit_ok _ H1) as [E1 Hacc].
  rewrite E1, split_parts_netloc in Hn. rewrite Hn in Hacc.
  unfold authority_rejected in Hacc. apply orb_false_iff in Hacc as [Hb _].
  split; [|now apply check_brackets_balanced].
  rewrite <- Hn. unfold authority_of.
  destruct (authority_split_spec (snd (scheme_split (url_clean (unwrap data)))))
    as [[_ E] | (nl0 & rest' & _ & Hnd & _ & E)]; rewrite E; [reflexivity|].
  exact Hnd.
Qed.

(** ** Port and user information *)

Lemma mem_rev (c : N) (s : pystr) : Str.mem c (rev s) = Str.mem c s.
Proof.
  destruct (Str.mem c s) eqn:E.
  - apply mem_true_iff. apply mem_true_iff in E. now apply in_rev in E.
  - apply mem_false_iff. apply mem_false_iff in E. intros H. apply E.
    now apply in_rev.
Qed.

Lemma rpartition_spec (c : N) (s : pystr) :
  (Str.mem c s = false /\ Str.rpartition c s = ([], false, s))
  \/ (exists a b, s = a ++ c :: b /\ Str.mem c b = false
                  /\ Str.rpartition c s = (a, true, b)).
Proof.
  unfold Str.rpartition.
  destruct (partition_spec c (rev s)) as [[Hm ->] | (a & b & E & Hm & ->)].
  - left. now rewrite mem_rev in Hm.
  - right. exists (rev b), (rev a). rewrite mem_rev. repeat split; [|exact Hm].
    rewrite <- (rev_involutive s), E, rev_app_distr. cbn [rev].
    now rewrite <- app_assoc.
Qed.

Lemma str_or_None_mid (a b : pystr) (x : N) :
  str_or_None (a ++ x :: b) = PyStr (a ++ x :: b).
Proof. now destruct a. Qed.

(** The port text of a netloc is what follows a colon and ends it. *)
Lemma hostinfo_port (self : SplitResult) (p : pystr) :
  snd (_hostinfo self) = Some p ->
  exists pre, netloc self = pre ++ COLON :: p.
Proof.
  unfold _hostinfo.
  assert (Hh : exists pre0 hostinfo,
             netloc self = pre0 ++ hostinfo
             /\ snd (Str.rpartition AT_SIGN (netloc self)) = hostinfo).
  { destruct (rpartition_spec AT_SIGN (netloc self))
      as [[_ E] | (a & b & E0 & _ & E)]; rewrite E.
    - now exists [], (netloc self).
    - exists (a ++ [AT_SIGN]), b. now rewrite <- app_assoc. }
  destruct Hh as (pre0 & hostinfo & En & Eh).
  destruct (Str.rpartition AT_SIGN (netloc self)) as [[x0 y0] h0].
  cbn [snd] in Eh. subst h0. rewrite En.
  assert (Hc : forall t q, (if Str.null (snd (Str.partition COLON t))
                            then None else Some (snd (Str.partition COLON t)))
                           = Some q ->
                           exists pre, t = pre ++ COLON :: q).
  { intros t q.
    destruct (partition_spec COLON t) as [[_ ->] | (a & b & -> & _ & ->)];
      cbn [snd Str.null]; [discriminate|].
    destruct b; [discriminate|]. intros E. injection E as <-. now exists a. }
  destruct (partition_spec LBRACKET hostinfo)
    as [[_ ->] | (a & b & -> & _ & ->)]; cbv iota.
  - destruct (Str.partition COLON hostinfo) as [[h f] q] eqn:E.
    cbn [snd]. intros H.
    destruct (Hc hostinfo p) as [pre Hpre]; [now rewrite E|].
    exists (pre0 ++ pre). now rewrite Hpre, <- app_assoc.
  - destruct (partition_spec RBRACKET b)
      as [[_ ->] | (h & rest & -> & _ & ->)]; cbv iota.
    + cbn. discriminate.
    + destruct (Str.partition COLON rest) as [[h' f'] q] eqn:E.
      cbn [snd]. intros H.
      destruct (Hc rest p) as [pre Hpre]; [now rewrite E|].
      exists (pre0 ++ a ++ LBRACKET :: h ++ RBRACKET :: pre).
      rewrite Hpre. now rewrite <- !app_assoc, <- !app_comm_cons, <- !app_assoc.
Qed.

(** X8: the port is read off the end of the netloc.  When [parse]
    returns a record whose [port] is not null, the netloc ends with a
    colon followed by ASCII decimal digits, the port is the number they
    write, and it is at most 65535. *)
Theorem port_field_is_written_in_the_netloc :
  forall (data : pystr) (raw quiet : bool) (r : Dict) (n : N),
    parse data raw quiet = Ok r ->
    get "port" r = Some (PyInt n) ->
    exists pre digits,
      get "netloc" r = Some (PyStr (pre ++ COLON :: digits))
      /\ Str.isdigit_ascii digits = true
      /\ n = Str.int_of_digits digits
      /\ (n <= 65535)%N.
Proof.
  intros data raw quiet r n Hparse Hn.
  apply parse_ok_inv in Hparse as [[_ ->]|[_ Hp]]; [discriminate Hn|].
  destruct Hp as [parts normalized qp qq up pv _ _ _ _ _ H6].
  rewrite get_port in Hn. rewrite get_netloc.
  destruct pv as [m|]; [|discriminate Hn]. injection Hn as ->.
  unfold port in H6.
  destruct (snd (_hostinfo parts)) as [p|] eqn:Eh; [|discriminate H6].
  destruct (hostinfo_port _ Eh) as [pre Hpre].
  destruct (Str.isdigit_ascii p) eqn:Ed; [|discriminate H6].
  destruct (Nat.ltb 4300 (length p)); [discriminate H6|].
  destruct (N.leb (Str.int_of_digits p) 65535) eqn:El; [|discriminate H6].
  apply Ok_inj in H6. injection H6 as <-.
  exists pre, p. rewrite Hpre, str_or_None_mid.
  repeat split; try assumption. now apply N.leb_le.
Qed.

Lemma userinfo_cases (self : SplitResult) :
  (Str.mem AT_SIGN (netloc self) = false /\ _userinfo self = (None, None))
  \/ (exists u host,
        netloc self = u ++ AT_SIGN :: host
        /\ Str.mem AT_SIGN host = false /\ Str.mem COLON u = false
        /\ _userinfo self = (Some u, None))
  \/ (exists u p host,
        netloc self = u ++ COLON :: p ++ AT_SIGN :: host
        /\ Str.mem AT_SIGN host = false /\ Str.mem COLON u = false
        /\ _userinfo self = (Some u, Some p)).
Proof.
  unfold _userinfo.
  destruct (rpartition_spec AT_SIGN (netloc self))
    as [[Hm ->] | (a & host & -> & Hh & ->)]; cbv iota; [now left | right].
  destruct (partition_spec COLON a) as [[Hc ->] | (u & p & -> & Hc & ->)];
    cbv iota.
  - left. now exists a, host.
  - right. exists u, p, host. now rewrite <- app_assoc.
Qed.

(** X9: user name and password are the two sides of the netloc's user
    information.  When [parse] returns a record whose [username] is not
    null, the netloc is [username@host] with a null password, or
    [username:password@host]; the user name holds no colon and the host
    part no [@] (the split is at the last [@] and the first colon). *)
Theorem userinfo_fields_split_the_netloc :
  forall (data : pystr) (raw quiet : bool) (r : Dict) (u : pystr),
    parse data raw quiet = Ok r ->
    get "username" r = Some (PyStr u) ->
    exists host,
      Str.mem COLON u = false /\ Str.mem AT_SIGN host = false
      /\ ((get "password" r = Some PyNone
           /\ get "netloc" r = Some (PyStr (u ++ AT_SIGN :: host)))
          \/ (exists p,
                get "password" r = Some (PyStr p)
                /\ get "netloc" r
                   = Some (PyStr (u ++ COLON :: p ++ AT_SIGN :: host)))).
Proof.
  intros data raw quiet r u Hparse Hu.
  apply parse_ok_inv in Hparse as [[_ ->]|[_ Hp]]; [discriminate Hu|].
  destruct Hp as [parts normalized qp qq up pv _ _ _ _ _ _].
  rewrite get_username in Hu. rewrite get_password, get_netloc.
  unfold username, password in *.
  destruct (userinfo_cases parts)
    as [[_ E] | [(u' & host & En & Hh & Hc & E)
                | (u' & p & host & En & Hh & Hc & E)]];
    rewrite E in *; cbn [fst snd of_optstr] in *; [discriminate Hu | |];
    injection Hu as ->; exists host; rewrite En.
  - repeat split; try assumption. left. now rewrite str_or_None_mid.
  - repeat split; try assumption. right. exists p.
    split; [reflexivity|].
    change (u ++ COLON :: p ++ AT_SIGN :: host)
      with (u ++ COLON :: (p ++ AT_SIGN :: host)).
    now rewrite str_or_None_mid.
Qed.

(** X10: no user information without an [@].  In a record [parse]
    returns, [username] is null exactly when the netloc holds no [@], and
    then [password] is null as well: a password never comes without a
    user name. *)
Theorem no_userinfo_without_at_sign :
  forall (data : pystr) (raw quiet : bool) (r : Dict),
    parse data raw quiet = Ok r ->
    has_data data = true ->
    (get "username" r = Some PyNone
     <-> (forall nl, get "netloc" r = Some (PyStr nl) ->
                     Str.mem AT_SIGN nl = false))
    /\ (get "username" r = Some PyNone -> get "password" r = Some PyNone).
Proof.
  intros data raw quiet r Hparse Hd.
  apply parse_ok_inv in Hparse as [[E _]|[_ Hp]]; [congruence|].
  destruct Hp as [parts normalized qp qq up pv _ _ _ _ _ _].
  rewrite get_username, get_password, get_netloc.
  unfold username, password.
  destruct (userinfo_cases parts)
    as [[Hm E] | [(u' & host & En & Hh & Hc & E)
                 | (u' & p & host & En & Hh & Hc & E)]];
    rewrite E; cbn [fst snd of_optstr].
  - split; [|reflexivity]. split; [|reflexivity].
    intros _ nl Hn. injection Hn as Hn.
    apply str_or_None_inv in Hn as [<- _]. exact Hm.
  - split; [|discriminate]. split; [discriminate|]. intros H. exfalso.
    specialize (H (netloc parts)). rewrite En, str_or_None_mid in H.
    specialize (H eq_refl). rewrite mem_app, mem_cons in H.
    rewrite N.eqb_refl, orb_true_r in H. discriminate H.
  - split; [|discriminate]. split; [discriminate|]. intros H. exfalso.
    specialize (H (netloc parts)).
    change (u' ++ COLON :: p ++ AT_SIGN :: host)
      with (u' ++ COLON :: (p ++ AT_SIGN :: host)) in En.
    rewrite En, str_or_None_mid in H.
    specialize (H eq_refl). rewrite mem_app, mem_cons, mem_app, mem_cons in H.
    rewrite N.eqb_refl, !orb_true_r in H. discriminate H.
Qed.

(** ** The path and its segments, rooted or not *)

Lemma squeeze_length (c : N) (s : pystr) :
  length (Str.squeeze c s) <= length s.
Proof.
  induction s as [|x s IH]; [reflexivity|].
  rewrite squeeze_cons. destruct s as [|y s]; [reflexivity|].
  destruct (N.eqb x c && N.eqb y c); cbn [length] in *; lia.
Qed.

(** A squeezed string has no two separators in a row. *)
Lemma squeeze_no_double (c : N) (s a b : pystr) :
  Str.squeeze c s = s -> s <> a ++ c :: c :: b.
Proof.
  intros H E. subst s. induction a as [|x a IH].
  - cbn [app] in H. rewrite squeeze_cons, N.eqb_refl in H. cbn [andb] in H.
    pose proof (squeeze_length c (c :: b)) as L. rewrite H in L.
    cbn [length] in L. lia.
  - cbn [app] in H. rewrite squeeze_cons in H.
    destruct (a ++ c :: c :: b) as [|y t] eqn:E.
    + now destruct a.
    + destruct (N.eqb x c && N.eqb y c).
      * pose proof (squeeze_length c (y :: t)) as L. rewrite H in L.
        cbn [length] in L. lia.
      * injection H as H. now apply IH.
Qed.

Lemma split_pieces_no_sep (c : N) (s : pystr) :
  Forall (fun seg => Str.mem c seg = false) (Str.split c s).
Proof.
  induction s as [|x s IH]; [now repeat constructor|].
  destruct (N.eq_dec x c) as [->|Hx].
  - rewrite split_cons_sep. now constructor.
  - destruct (split_cons_other s Hx) as (h & t & E1 & E2).
    rewrite E2. rewrite E1 in IH. inversion IH as [|? ? Hh Ht]; subst.
    constructor; [|exact Ht]. rewrite mem_cons, Hh, orb_false_r.
    apply N.eqb_neq. congruence.
Qed.

(** X11: the path and its list of segments, for every path.  When
    [parse] returns a record whose [path] is not null, the path has no
    two slashes in a row.  With its first slash removed (wherever that
    slash stands) the path is either empty, and then [path_list] is null,
    or it is what joining [path_list] with [/] gives, and no segment of
    [path_list] holds a slash. *)
Theorem path_list_joins_to_the_path :
  forall (data : pystr) (raw quiet : bool) (r : Dict) (p : pystr),
    parse data raw quiet = Ok r ->
    get "path" r = Some (PyStr p) ->
    (forall a b, p <> a ++ SLASH :: SLASH :: b)
    /\ ((Str.replace_first SLASH [] p = []
         /\ get "path_list" r = Some PyNone)
        \/ (exists l,
              get "path_list" r = Some (PyList l)
              /\ Str.join [SLASH] l = Str.replace_first SLASH [] p
              /\ Forall (fun seg => Str.mem SLASH seg = false) l)).
Proof.
  intros data raw quiet r p Hparse Hpath.
  apply parse_ok_inv in Hparse as [[_ ->]|[_ Hp]]; [discriminate|].
  destruct Hp as [parts normalized qp qq up pv _ _ _ _ _ _].
  rewrite get_path in Hpath. injection Hpath as Hpath.
  pose proof (path_field_inv _ Hpath) as [Hp Hne].
  split.
  { intros a b. apply squeeze_no_double. rewrite Hp. apply squeeze_idem. }
  rewrite get_path_list. unfold path_list_of.
  assert (Hnull : negb (Str.null (path up)) = true).
  { unfold my_path_of in Hpath.
    destruct (negb (Str.null (path up))); [reflexivity | discriminate]. }
  rewrite Hnull, <- Hp.
  destruct (Str.replace_first SLASH [] p) as [|x s] eqn:Es.
  - left. now split.
  - right. exists (Str.split SLASH (x :: s)).
    split; [|split; [apply join_split | apply split_pieces_no_sep]].
    destruct (Str.split SLASH (x :: s)) as [|h l] eqn:E;
      [now apply split_nonempty in E|].
    destruct h as [|z h]; [|reflexivity].
    destruct l as [|h' l]; [|reflexivity].
    apply split_single_empty in E. discriminate.
Qed.

(** ** Percent-encoding *)

Lemma hex_digit_safe (d : N) : (d < 16)%N -> _ALWAYS_SAFE (hex_digit d) = true.
Proof.
  intros H. unfold hex_digit, _ALWAYS_SAFE.
  destruct (N.ltb d 10) eqn:E; [apply N.ltb_lt in E | apply N.ltb_ge in E];
    char_arith.
Qed.

Lemma forallb_concat_map {A B} (P : B -> bool) (Q : A -> list B) (l : list A) :
  (forall x, In x l -> forallb P (Q x) = true) ->
  forallb P (concat (map Q l)) = true.
Proof.
  induction l as [|x l IH]; [reflexivity|]. intros H. cbn [map concat].
  rewrite forallb_app, H, IH; [reflexivity | | now left].
  intros y Hy. apply H. now right.
Qed.

Lemma quoter_chars (safe : pystr) (b : N) :
  (b < 256)%N ->
  forallb (quoted_char safe)
          (quoter (filter (fun c => N.ltb c 128) safe) b) = true.
Proof.
  intros Hb. unfold quoter.
  destruct (_ALWAYS_SAFE b) eqn:Ea; cbn [orb].
  - cbn [forallb]. unfold quoted_char. rewrite Ea.
    apply always_safe_ascii in Ea. apply N.ltb_lt in Ea. now rewrite Ea.
  - destruct (Str.mem b (filter (fun c => N.ltb c 128) safe)) eqn:Em.
    + apply mem_true_iff, filter_In in Em as [Hin Hlt].
      apply mem_true_iff in Hin. cbn [forallb]. unfold quoted_char.
      now rewrite Hlt, Hin, orb_true_r.
    + assert (H1 : (b / 16 < 16)%N) by nlia.
      assert (H2 : (b mod 16 < 16)%N) by nlia.
      cbn [forallb]. unfold quoted_char.
      rewrite (hex_digit_safe H1), (hex_digit_safe H2).
      pose proof (hex_digit_ascii H1) as A1. apply N.ltb_lt in A1.
      pose proof (hex_digit_ascii H2) as A2. apply N.ltb_lt in A2.
      rewrite A1, A2, N.eqb_refl, !orb_true_r. reflexivity.
Qed.

(** X12: what [quote] writes.  Whenever [quote] returns, every character
    of its result is an ASCII character that is a letter, a digit, one of
    [_.-~], a character of [safe], or the [%] of an escape: the quoted
    path that [parse] assembles holds no space, no control character and
    nothing outside ASCII. *)
Theorem quote_writes_ascii_only :
  forall (s safe q : pystr),
    quote s safe = Ok q ->
    forallb (quoted_char safe) q = true.
Proof.
  intros s safe q H. apply quote_ok_inv in H as (bs & Hbs & ->).
  apply forallb_concat_map. intros b Hb. apply quoter_chars.
  pose proof (encode_bytes _ Hbs) as Hall.
  rewrite Forall_forall in Hall. now apply Hall.
Qed.

(** X13: [unquote] undoes [quote].  For every string [s] and every set
    [safe] of characters that leaves [%] out, if [quote] returns on [s]
    (it fails on a lone surrogate only) then [unquote] of what it returns
    is [s] again, whatever characters [s] holds: no escape that [quote]
    writes is lost or misread. *)
Theorem unquote_undoes_quote :
  forall (s safe q : pystr),
    Str.mem PERCENT safe = false ->
    quote s safe = Ok q ->
    unquote q = s.
Proof. intros s safe q Hsafe H. exact (@unquote_quote s safe q Hsafe H). Qed.

(** ** Writing the parts and splitting them again *)

(** X14: [urlsplit] reads back what [urlunsplit] writes.  Take parts
    such that the scheme is empty or a letter followed by scheme
    characters, in lower case; the netloc holds none of [/], [?] and [#];
    the path holds no [?] and no [#], and the query no [#]; with neither
    scheme nor netloc the path has no scheme of its own (the text before
    its first colon is not a letter followed by scheme characters);
    without netloc the path does not begin with [//]; every character is
    plain (no control character, no whitespace, no [%], no [+]); and
    [urlsplit] accepts the netloc.  Splitting the URL written from these
    parts returns the same scheme, netloc, query and fragment, and the
    same path, with a slash put before it when an authority is written in
    front of a relative path. *)
Theorem written_parts_split_back :
  forall (t : SplitResult),
    well_split t ->
    authority_rejected (netloc t) = false ->
    urlsplit (urlunsplit t) = Ok (resplit t).
Proof.
  intros t W Hacc. destruct (resplit_spec W) as [Hs Ha].
  rewrite urlsplit_accepts; [now rewrite Hs | now rewrite Ha].
Qed.

(** ** The query dictionary *)

Lemma qdict_add_in_keys (d : qdict) (n v k : pystr) :
  In k (map fst (qdict_add d n v)) <-> In k (map fst d) \/ k = n.
Proof.
  induction d as [|[k' vs] d IH]; cbn [qdict_add map fst In].
  - intuition.
  - destruct (Str.eqb k' n) eqn:E; cbn [map fst In].
    + apply eqb_true_iff in E. subst k'. intuition.
    + rewrite IH. intuition.
Qed.

Lemma qdict_add_nodup (d : qdict) (n v : pystr) :
  NoDup (map fst d) -> NoDup (map fst (qdict_add d n v)).
Proof.
  induction d as [|[k vs] d IH]; cbn [qdict_add map fst]; intros H.
  - repeat constructor. intros [].
  - inversion H as [|? ? Hk Hd]; subst.
    destruct (Str.eqb k n) eqn:E; cbn [map fst]; [exact H|].
    constructor; [|now apply IH].
    rewrite qdict_add_in_keys. intros [Hin | ->]; [contradiction|].
    rewrite eqb_same in E. discriminate E.
Qed.

Lemma qdict_add_values (d : qdict) (n v : pystr) :
  Forall (fun kv => snd kv <> []) d ->
  Forall (fun kv => snd kv <> []) (qdict_add d n v).
Proof.
  induction d as [|[k vs] d IH]; cbn [qdict_add]; intros H.
  - repeat constructor. discriminate.
  - inversion H as [|? ? Hk Hd]; subst.
    destruct (Str.eqb k n); constructor; auto.
    cbn [snd]. now destruct vs.
Qed.

Lemma qdict_add_count (d : qdict) (n v : pystr) :
  length (concat (map snd (qdict_add d n v)))
  = S (length (concat (map snd d))).
Proof.
  induction d as [|[k vs] d IH]; cbn [qdict_add map snd concat];
    [reflexivity|].
  destruct (Str.eqb k n); cbn [map snd concat].
  - rewrite !length_app. cbn [length]. lia.
  - rewrite !length_app, IH. lia.
Qed.

Lemma fold_qdict_add_invariants (l : list (pystr * pystr)) (d : qdict) :
  NoDup (map fst d) -> Forall (fun kv => snd kv <> []) d ->
  let d' := fold_left (fun d nv => qdict_add d (fst nv) (snd nv)) l d in
  NoDup (map fst d') /\ Forall (fun kv => snd kv <> []) d'
  /\ length (concat (map snd d')) = length (concat (map snd d)) + length l.
Proof.
  revert d. induction l as [|[n v] l IH]; intros d Hn Hv; cbn [fold_left].
  - cbv zeta. repeat split; auto.
  - cbn [fst snd].
    destruct (IH (qdict_add d n v)) as (H1 & H2 & H3);
      [now apply qdict_add_nodup | now apply qdict_add_values|].
    cbv zeta in *. repeat split; auto.
    rewrite H3, qdict_add_count. cbn [length]. lia.
Qed.

(** X15: the query dictionary has each key once.  When [parse] returns a
    record whose [query] is not null, no key occurs twice in it, every
    key has at least one value, and [query_list] is not null and has as
    many pairs as the dictionary has values: repeated keys are gathered,
    and no pair is lost or counted twice. *)
Theorem query_dictionary_gathers_the_pairs :
  forall (data : pystr) (raw quiet : bool) (r : Dict) (d : qdict),
    parse data raw quiet = Ok r ->
    get "query" r = Some (PyDict d) ->
    NoDup (map fst d)
    /\ Forall (fun kv => snd kv <> []) d
    /\ exists l,
         get "query_list" r = Some (PyPairs l)
         /\ length (concat (map snd d)) = length l.
Proof.
  intros data raw quiet r d Hparse Hq.
  apply parse_ok_inv in Hparse as [[_ ->]|[_ Hp]]; [discriminate Hq|].
  destruct Hp as [parts normalized qp qq up pv _ _ _ _ _ _].
  rewrite get_query in Hq. rewrite get_query_list.
  unfold query_obj_of, query_list_of in *.
  destruct (negb (Str.null (query up))); [|discriminate Hq].
  cbn [dict_or_None pairs_or_None] in *.
  destruct (parse_qs (query up)) as [|x d'] eqn:Ed; [discriminate Hq|].
  injection Hq as <-. rewrite <- Ed.
  destruct (@fold_qdict_add_invariants (parse_qsl (query up)) [])
    as (H1 & H2 & H3); [constructor | constructor|].
  cbv zeta in *. rewrite <- parse_qs_unfold in *.
  split; [exact H1|]. split; [exact H2|].
  exists (parse_qsl (query up)). split; [|exact H3].
  destruct (parse_qsl (query up)) as [|y l] eqn:El; [|reflexivity].
  apply parse_qs_empty_iff in El. congruence.
Qed.

(** ** Inputs on which [parse] does not fail *)




(** ** The host name *)

(** X17: the host name of a plain netloc.  When [parse] returns a record
    whose netloc is ASCII and holds no [@], no [[] and no [%], the
    [hostname] is the text of the netloc before its first colon (all of
    it when there is none) in lower case, and null when that text is
    empty. *)
Theorem hostname_of_a_plain_netloc :
  forall (data : pystr) (raw quiet : bool) (r : Dict) (nl : pystr),
    parse data raw quiet = Ok r ->
    get "netloc" r = Some (PyStr nl) ->
    Str.isascii nl = true ->
    Str.mem AT_SIGN nl = false ->
    Str.mem LBRACKET nl = false ->
    Str.mem PERCENT nl = false ->
    get "hostname" r
    = Some (str_or_None
              (Str.ascii_lower (fst (fst (Str.partition COLON nl))))).
Proof.
  intros data raw quiet r nl Hparse Hn Hascii Hat Hbr Hpc.
  apply parse_ok_inv in Hparse as [[_ ->]|[_ Hp]]; [discriminate Hn|].
  destruct Hp as [parts normalized qp qq up pv _ _ _ _ _ _].
  rewrite get_netloc in Hn. injection Hn as Hn.
  apply str_or_None_inv in Hn as [Hn _].
  rewrite get_hostname. unfold hostname, _hostinfo. rewrite Hn.
  destruct (rpartition_spec AT_SIGN nl) as [[_ ->] | (a & b & E & _ & _)];
    [cbv iota | rewrite E, mem_app, mem_cons, N.eqb_refl, orb_true_r in Hat;
                discriminate Hat].
  destruct (partition_spec LBRACKET nl) as [[_ ->] | (a & b & E & _ & _)];
    [cbv iota | rewrite E, mem_app, mem_cons, N.eqb_refl, orb_true_r in Hbr;
                discriminate Hbr].
  assert (Hh : Str.isascii (fst (fst (Str.partition COLON nl))) = true
               /\ Str.mem PERCENT (fst (fst (Str.partition COLON nl))) = false).
  { destruct (partition_spec COLON nl) as [[_ ->] | (h & p & E & _ & ->)];
      cbn [fst]; [now split|].
    rewrite E, isascii_app in Hascii. rewrite E, mem_app in Hpc.
    apply andb_true_iff in Hascii as [Hascii _].
    apply orb_false_iff in Hpc as [Hpc _]. now split. }
  destruct Hh as [Ha Hm].
  destruct (Str.partition COLON nl) as [[h f] p]. cbn [fst] in *.
  destruct h as [|c h]; [reflexivity|]. cbn [Str.null].
  destruct (partition_spec PERCENT (c :: h)) as [[_ ->] | (a & b & E & _ & _)];
    [|rewrite E, mem_app, mem_cons, N.eqb_refl, orb_true_r in Hm;
      discriminate Hm].
  cbn [of_optstr]. rewrite !app_nil_r. unfold str_lower. now rewrite Ha.
Qed.

End Parser.

(** * Concrete inputs *)

(** A stand-in for the two Unicode tables when the model is run on a
    concrete input.  Every input below keeps its authority within ASCII,
    where [str_lower] and [_checknetloc] take their ASCII paths and never
    consult a table, so the result is the same for every pair of tables
    (see the [_any_tables] lemmas). *)
Definition no_table (s : pystr) : pystr := s.

(** [parse] with the stand-in tables, on a string literal. *)
Definition run (data : string) : result Dict :=
  parse no_table no_table (py data) false false.

(** Evaluation of the model on concrete inputs. *)
Ltac evaluate :=
  repeat split;
  first [ vm_compute; reflexivity
        | let H := fresh in intro H; vm_compute in H; discriminate H ].

(** ** C1 *)

(** Counterexample to C1 as stated: on the empty string [parse] returns
    the empty dictionary, in which no key of the schema is present. *)
Lemma empty_input_gives_empty_dict :
  run "" = Ok [] /\ ~ all_null [].
Proof.
  split; [evaluate|].
  intros H. inversion H as [|k l Hk Hl]. discriminate Hk.
Qed.

(** Witness of [parse_without_data_is_empty]: two spaces, and a pair of
    angle brackets with nothing between them. *)
Lemma parse_without_data_is_empty_witness :
  run "  " = Ok [] /\ run "<>" = Ok null_record.
Proof.
  split.
  - apply (proj1 (@parse_without_data_is_empty no_table no_table
                    (py "  ") false false)).
    repeat constructor.
  - apply (proj2 (@parse_without_data_is_empty no_table no_table
                    (py "<>") false false));
      vm_compute; reflexivity.
Defined.

(** Input that is empty only once unwrapped does give the all-null record. *)
Lemma empty_brackets_give_null_record :
  run "<>" = Ok null_record /\ all_null null_record.
Proof. split; [evaluate | repeat constructor]. Qed.

(** ** C2 *)


Lemma unbalanced_bracket_any_tables (L K : pystr -> pystr) :
  parse L K (py "http://[/") false false = run "http://[/".
Proof. vm_compute. reflexivity. Qed.

(** The scenario of the specification: a port that is no number. *)
Lemma port_not_a_number_fails :
  run "http://host:notaport/" = Raise PortNotInteger
  /\ malformed_port (py "host:notaport") = true.
Proof. evaluate. Qed.

(** ** C4 *)

(** C4 fails on the code: the query of the unquoted string is decoded a
    second time.  For [http://h/?a=%2541&a=c&b=d] the unquoted string is
    [http://h/?a=%41&a=c&b=d], whose query has the shape
    [k1=v1&k1=v2&k2=v3] with [v1 = %41]; yet [query] maps [a] to [[A; c]]
    and [query_list] begins with [(a, A)], not with [(a, %41)].  For
    [http://h/?a=x%26y&b=1] the value [x&y] is cut at its decoded [&]:
    [query_list] is [[(a, x); (b, 1)]] and the [y] is lost. *)
Theorem query_is_decoded_a_second_time :
  (exists r,
      run "http://h/?a=%2541&a=c&b=d" = Ok r
      /\ get "unquoted" r = Some (PyStr (py "http://h/?a=%41&a=c&b=d"))
      /\ get "query" r
         = Some (PyDict [(py "a", [py "A"; py "c"]); (py "b", [py "d"])])
      /\ get "query_list" r
         = Some (PyPairs [(py "a", py "A"); (py "a", py "c"); (py "b", py "d")])
      /\ py "A" <> py "%41")
  /\ (exists r,
        run "http://h/?a=x%26y&b=1" = Ok r
        /\ get "unquoted" r = Some (PyStr (py "http://h/?a=x&y&b=1"))
        /\ get "query" r
           = Some (PyDict [(py "a", [py "x"]); (py "b", [py "1"])])
        /\ get "query_list" r
           = Some (PyPairs [(py "a", py "x"); (py "b", py "1")])).
Proof.
  split; eexists; (split; [vm_compute; reflexivity|]); evaluate.
Qed.

Lemma query_values_any_tables (L K : pystr -> pystr) :
  parse L K (py "http://h/?a=%2541&a=c&b=d") false false
  = run "http://h/?a=%2541&a=c&b=d"
  /\ parse L K (py "http://h/?a=x%26y&b=1") false false
     = run "http://h/?a=x%26y&b=1".
Proof. split; vm_compute; reflexivity. Qed.

(** Witness of [query_and_query_list_agree] on the scenario of the
    specification. *)
Lemma query_and_query_list_agree_witness :
  exists r,
    run "http://example.com/test/path?q1=foo&q1=bar&q2=baz#frag" = Ok r
    /\ query_fields_consistent r
    /\ get "query" r
       = Some (PyDict [(py "q1", [py "foo"; py "bar"]); (py "q2", [py "baz"])])
    /\ get "query_list" r
       = Some (PyPairs [(py "q1", py "foo"); (py "q1", py "bar");
                        (py "q2", py "baz")]).
Proof.
  eexists. split; [vm_compute; reflexivity|].
  edestruct (@query_and_query_list_agree no_table no_table
               (py "http://example.com/test/path?q1=foo&q1=bar&q2=baz#frag")
               false false) as [H1 H2]; [vm_compute; reflexivity|].
  split; [exact H1|].
  apply (H2 (py "http://example.com/test/path?q1=foo&q1=bar&q2=baz#frag")
            (mkSplitResult (py "http") (py "example.com") (py "/test/path")
                           (py "q1=foo&q1=bar&q2=baz") (py "frag"))
            (py "q1") (py "q2") (py "foo") (py "bar") (py "baz"));
    try (vm_compute; reflexivity).
  intro H. vm_compute in H. discriminate H.
Defined.

(** ** C5 *)

(** C5 fails on the code: in a relative path the parser removes the
    first slash wherever it stands.  For [docs/guide/index.html] the path
    is [docs/guide/index.html] and [path_list] is
    [[docsguide; index.html]], where collapsing the slashes, stripping one
    leading slash (there is none) and splitting gives
    [[docs; guide; index.html]]; joined behind a slash, [path_list] gives
    [/docsguide/index.html], which is not the path. *)
Theorem relative_path_loses_its_first_slash :
  exists r,
    run "docs/guide/index.html" = Ok r
    /\ get "path" r = Some (PyStr (py "docs/guide/index.html"))
    /\ get "path_list" r = Some (PyList [py "docsguide"; py "index.html"])
    /\ Str.split SLASH (Str.squeeze SLASH (py "docs/guide/index.html"))
       = [py "docs"; py "guide"; py "index.html"]
    /\ Str.squeeze SLASH
         (SLASH :: Str.join [SLASH] [py "docsguide"; py "index.html"])
       <> py "docs/guide/index.html".
Proof.
  eexists. split; [vm_compute; reflexivity|]. evaluate.
Qed.

Lemma relative_path_any_tables (L K : pystr -> pystr) :
  parse L K (py "docs/guide/index.html") false false
  = run "docs/guide/index.html".
Proof. vm_compute. reflexivity. Qed.

(** ** C6 *)


Lemma escaped_escape_any_tables (L K : pystr -> pystr) :
  parse L K (py "http://h/%2541") false false = run "http://h/%2541"
  /\ parse L K (py "http://h/%41") false false = run "http://h/%41".
Proof. split; vm_compute; reflexivity. Qed.


(** ** C7 *)

(** Counterexample to C7 as stated: for [X = <a>] the input [X] unwraps
    to [a], while [<X>] unwraps to [<a>]; the two records differ. *)
Lemma wrapped_input_is_unwrapped_once :
  exists r1 r2,
    run "<a>" = Ok r1
    /\ parse no_table no_table (in_brackets (py "<a>")) false false = Ok r2
    /\ get "path" r1 = Some (PyStr (py "a"))
    /\ get "path" r2 = Some (PyStr (py "<a>")).
Proof.
  do 2 eexists. split; [vm_compute; reflexivity|].
  split; [vm_compute; reflexivity|]. evaluate.
Qed.

(** Likewise for the empty string: [X] gives the empty dictionary, [<X>]
    the record of nulls. *)
Lemma empty_input_differs_from_empty_brackets :
  run "" = Ok []
  /\ parse no_table no_table (in_brackets (py "")) false false = Ok null_record.
Proof. evaluate. Qed.

(** Witness of [unwrap_invariance] on a plain URL. *)
Lemma unwrap_invariance_witness :
  parse no_table no_table (in_brackets (py "http://a/b")) false false
  = run "http://a/b"
  /\ parse no_table no_table (url_prefixed (py "http://a/b")) false false
     = run "http://a/b"
  /\ parse no_table no_table (in_brackets (url_prefixed (py "http://a/b")))
       false false
     = run "http://a/b".
Proof.
  apply (@unwrap_invariance no_table no_table (py "http://a/b") false false);
    vm_compute; reflexivity.
Defined.

(** ** C8 *)

(** C8 fails on the code: for [http://@host/] the user name is present and
    empty, and the parser emits the empty string, not null. *)
Theorem empty_username_is_emitted :
  exists r,
    run "http://@host/" = Ok r
    /\ get "username" r = Some (PyStr [])
    /\ get "netloc" r = Some (PyStr (py "@host")).
Proof. eexists. split; [vm_compute; reflexivity|]. evaluate. Qed.

(** Likewise an empty password, for [http://u:@host/]. *)
Lemma empty_password_is_emitted :
  exists r,
    run "http://u:@host/" = Ok r
    /\ get "password" r = Some (PyStr []).
Proof. eexists. split; [vm_compute; reflexivity|]. evaluate. Qed.

(** ** C9 *)

(** Counterexample to C9 as stated: the fragment [%41] is returned as it
    is written, not as [A]. *)
Lemma fragment_escape_is_not_decoded :
  exists r,
    run "http://a/#%41" = Ok r
    /\ get "fragment" r = Some (PyStr (py "%41"))
    /\ unquote (py "%41") = py "A"
    /\ py "%41" <> py "A".
Proof. eexists. split; [vm_compute; reflexivity|]. evaluate. Qed.

Lemma fragment_escape_any_tables (L K : pystr -> pystr) :
  parse L K (py "http://a/#%41") false false = run "http://a/#%41".
Proof. vm_compute. reflexivity. Qed.

(** Witness of [fragment_is_kept_verbatim]: the tab in the fragment is
    removed by [urlsplit], the escape is kept. *)
Lemma fragment_is_kept_verbatim_witness :
  exists r,
    parse no_table no_table (py "http://a/#x" ++ [9%N] ++ py "%41") false false
    = Ok r
    /\ get "fragment" r = Some (PyStr (py "x%41"))
    /\ get "fragment" r
       = Some (str_or_None
                 (snd (Str.partition HASH
                         (url_clean
                            (unwrap (py "http://a/#x" ++ [9%N] ++ py "%41")))))).
Proof.
  eexists. split; [vm_compute; reflexivity|].
  split; [vm_compute; reflexivity|].
  apply (@fragment_is_kept_verbatim no_table no_table
           (py "http://a/#x" ++ [9%N] ++ py "%41") false false);
    vm_compute; reflexivity.
Defined.

(** ** C10 *)

(** Witness of [blank_values_are_dropped] on [a=&b=1]: key [a] is in
    neither representation. *)
Lemma blank_values_are_dropped_witness :
  exists r,
    run "?a=&b=1" = Ok r
    /\ get "query_list" r = Some (PyPairs [(py "b", py "1")])
    /\ get "query" r = Some (PyDict [(py "b", [py "1"])]).
Proof.
  eexists. split; [vm_compute; reflexivity|].
  apply (@blank_values_are_dropped no_table no_table (py "?a=&b=1") false false
           _ (py "?a=&b=1") (mkSplitResult [] [] [] (py "a=&b=1") [])
           [py "a="; py "b=1"]);
    try (vm_compute; reflexivity).
  repeat constructor.
Defined.

(** ** C3 *)

(** Counterexample to C3 as stated: for [/%41] the path of [quoted] is
    [/%2541], which decodes to [/%41], while the path of [unquoted] is
    [/A]. *)
Lemma quoted_path_decodes_to_escaped_path :
  exists r,
    run "/%41" = Ok r
    /\ get "quoted" r = Some (PyStr (py "/%2541"))
    /\ get "unquoted" r = Some (PyStr (py "/A"))
    /\ urlsplit no_table no_table (py "/%2541")
       = Ok (mkSplitResult [] [] (py "/%2541") [] [])
    /\ urlsplit no_table no_table (py "/A")
       = Ok (mkSplitResult [] [] (py "/A") [] [])
    /\ unquote (py "/%2541") = py "/%41"
    /\ py "/%41" <> py "/A".
Proof. eexists. split; [vm_compute; reflexivity|]. evaluate. Qed.

Lemma quoted_path_any_tables (L K : pystr -> pystr) :
  parse L K (py "/%41") false false = run "/%41".
Proof. vm_compute. reflexivity. Qed.

(** Witness of [quoted_decodes_to_normalized] on a URL with a space and
    a plus sign. *)
Lemma quoted_decodes_to_normalized_witness :
  exists r,
    run "http://h/a b?c+d e" = Ok r
    /\ exists (parts : SplitResult) (sc nl p q f qp qq : pystr),
      urlsplit no_table no_table (unwrap (py "http://h/a b?c+d e")) = Ok parts
      /\ urlsplit no_table no_table (urlunsplit parts)
         = Ok (mkSplitResult sc nl p q f)
      /\ get "quoted" r
         = Some (str_or_None (geturl (mkSplitResult sc nl qp qq f)))
      /\ get "unquoted" r
         = Some (str_or_None
                   (geturl (mkSplitResult sc nl (unquote p) (unquote_plus q) f)))
      /\ unquote qp = p
      /\ unquote_plus qq = Str.replace PLUS [SPACE] q
      /\ (Str.mem PERCENT p = false -> unquote qp = unquote p)
      /\ (Str.mem PERCENT q = false -> unquote_plus qq = unquote_plus q).
Proof.
  eexists. split; [vm_compute; reflexivity|].
  apply (@quoted_decodes_to_normalized no_table no_table
           (py "http://h/a b?c+d e") false false);
    vm_compute; reflexivity.
Defined.

(** * Concrete inputs for the further properties *)

(** Witness of [reparse_of_plain_input_is_stable]: the scheme is
    lower-cased in the unquoted string, which parses to the same record. *)
Lemma reparse_of_plain_input_is_stable_witness :
  exists r,
    run "HTTP://h/a?x=1#f" = Ok r
    /\ parse no_table no_table (py "http://h/a?x=1#f") false false = Ok r.
Proof.
  eexists. split; [vm_compute; reflexivity|].
  apply (@reparse_of_plain_input_is_stable no_table no_table
           (py "HTTP://h/a?x=1#f") false false);
    vm_compute; reflexivity.
Defined.

(** Witness of [surrounding_whitespace_is_ignored]: a leading space and
    a trailing line feed. *)
Lemma surrounding_whitespace_is_ignored_witness :
  parse no_table no_table ([32%N] ++ py "http://h/" ++ [10%N]) false false
  = parse no_table no_table (py "http://h/") false false.
Proof.
  apply (@surrounding_whitespace_is_ignored no_table no_table
           [32%N] (py "http://h/") [10%N] false false);
    vm_compute; reflexivity.
Defined.

(** Witness of [result_has_the_schema_keys]. *)
Lemma result_has_the_schema_keys_witness :
  exists r,
    run "http://h/" = Ok r
    /\ ((has_data (py "http://h/") = false /\ r = [])
        \/ (has_data (py "http://h/") = true /\ map fst r = schema_keys)).
Proof.
  eexists. split; [vm_compute; reflexivity|].
  apply (@result_has_the_schema_keys no_table no_table
           (py "http://h/") false false);
    vm_compute; reflexivity.
Defined.

(** Witness of [coerced_fields_are_never_empty]. *)
Lemma coerced_fields_are_never_empty_witness :
  exists r,
    run "http://h/" = Ok r
    /\ (Forall (fun k => get k r <> Some (PyStr []))
               ["quoted"; "unquoted"; "scheme"; "netloc"; "path";
                "fragment"]%string
        /\ get "path_list" r <> Some (PyList [])
        /\ get "query" r <> Some (PyDict [])
        /\ get "query_list" r <> Some (PyPairs [])).
Proof.
  eexists. split; [vm_compute; reflexivity|].
  apply (@coerced_fields_are_never_empty no_table no_table
           (py "http://h/") false false);
    vm_compute; reflexivity.
Defined.

(** Witness of [scheme_field_is_lower_case]. *)
Lemma scheme_field_is_lower_case_witness :
  exists r,
    run "HTTP://h/" = Ok r
    /\ (Str.is_alpha (hd 0%N (py "http")) = true
        /\ forallb scheme_chars (py "http") = true
        /\ forallb (fun c => negb (Str.is_upper c)) (py "http") = true).
Proof.
  eexists. split; [vm_compute; reflexivity|].
  eapply (@scheme_field_is_lower_case no_table no_table
            (py "HTTP://h/") false false);
    vm_compute; reflexivity.
Defined.

(** Witness of [netloc_field_has_no_delimiter]: a bracketed host. *)
Lemma netloc_field_has_no_delimiter_witness :
  exists r,
    run "http://[::1]:80/a" = Ok r
    /\ (forallb (fun c => negb (is_delim c)) (py "[::1]:80") = true
        /\ Str.mem LBRACKET (py "[::1]:80") = Str.mem RBRACKET (py "[::1]:80")).
Proof.
  eexists. split; [vm_compute; reflexivity|].
  eapply (@netloc_field_has_no_delimiter no_table no_table
            (py "http://[::1]:80/a") false false);
    vm_compute; reflexivity.
Defined.

(** Witness of [port_field_is_written_in_the_netloc]. *)
Lemma port_field_is_written_in_the_netloc_witness :
  exists r,
    run "http://h:8080/" = Ok r
    /\ exists pre digits,
         get "netloc" r = Some (PyStr (pre ++ COLON :: digits))
         /\ Str.isdigit_ascii digits = true
         /\ 8080%N = Str.int_of_digits digits
         /\ (8080 <= 65535)%N.
Proof.
  eexists. split; [vm_compute; reflexivity|].
  apply (@port_field_is_written_in_the_netloc no_table no_table
           (py "http://h:8080/") false false);
    vm_compute; reflexivity.
Defined.

(** Witness of [userinfo_fields_split_the_netloc]. *)
Lemma userinfo_fields_split_the_netloc_witness :
  exists r,
    run "http://u:p@h/" = Ok r
    /\ exists host,
         Str.mem COLON (py "u") = false /\ Str.mem AT_SIGN host = false
         /\ ((get "password" r = Some PyNone
              /\ get "netloc" r = Some (PyStr (py "u" ++ AT_SIGN :: host)))
             \/ (exists p,
                   get "password" r = Some (PyStr p)
                   /\ get "netloc" r
                      = Some (PyStr (py "u" ++ COLON :: p ++ AT_SIGN :: host)))).
Proof.
  eexists. split; [vm_compute; reflexivity|].
  apply (@userinfo_fields_split_the_netloc no_table no_table
           (py "http://u:p@h/") false false);
    vm_compute; reflexivity.
Defined.

(** Witness of [no_userinfo_without_at_sign]. *)
Lemma no_userinfo_without_at_sign_witness :
  exists r,
    run "http://h/" = Ok r
    /\ ((get "username" r = Some PyNone
         <-> (forall nl, get "netloc" r = Some (PyStr nl) ->
                         Str.mem AT_SIGN nl = false))
        /\ (get "username" r = Some PyNone -> get "password" r = Some PyNone)).
Proof.
  eexists. split; [vm_compute; reflexivity|].
  apply (@no_userinfo_without_at_sign no_table no_table
           (py "http://h/") false false);
    vm_compute; reflexivity.
Defined.

(** Witness of [path_list_joins_to_the_path]: a relative path with a
    doubled slash. *)
Lemma path_list_joins_to_the_path_witness :
  exists r,
    run "a//b/c" = Ok r
    /\ ((forall a b, py "a/b/c" <> a ++ SLASH :: SLASH :: b)
        /\ ((Str.replace_first SLASH [] (py "a/b/c") = []
             /\ get "path_list" r = Some PyNone)
            \/ (exists l,
                  get "path_list" r = Some (PyList l)
                  /\ Str.join [SLASH] l = Str.replace_first SLASH [] (py "a/b/c")
                  /\ Forall (fun seg => Str.mem SLASH seg = false) l))).
Proof.
  eexists. split; [vm_compute; reflexivity|].
  apply (@path_list_joins_to_the_path no_table no_table
           (py "a//b/c") false false);
    vm_compute; reflexivity.
Defined.

(** Witness of [quote_writes_ascii_only]: a space, a slash and two
    characters outside ASCII. *)
Lemma quote_writes_ascii_only_witness :
  exists q,
    quote [97; 32; 47; 233; 8364]%N (py "/") = Ok q
    /\ forallb (quoted_char (py "/")) q = true.
Proof.
  eexists. split; [vm_compute; reflexivity|].
  apply (@quote_writes_ascii_only no_table no_table
           [97; 32; 47; 233; 8364]%N (py "/"));
    vm_compute; reflexivity.
Defined.

(** Witness of [unquote_undoes_quote]: a percent sign, a space and two
    characters outside ASCII. *)
Lemma unquote_undoes_quote_witness :
  exists q,
    quote [97; 37; 52; 49; 32; 233; 8364]%N (py "/") = Ok q
    /\ unquote q = [97; 37; 52; 49; 32; 233; 8364]%N.
Proof.
  eexists. split; [vm_compute; reflexivity|].
  apply (@unquote_undoes_quote no_table no_table
           [97; 37; 52; 49; 32; 233; 8364]%N (py "/"));
    vm_compute; reflexivity.
Defined.

(** Witness of [written_parts_split_back]: a relative path behind a
    scheme that takes an authority gets a leading slash; a path in angle
    brackets, without scheme and netloc, comes back as it is. *)
Lemma written_parts_split_back_witness :
  urlsplit no_table no_table
           (urlunsplit (mkSplitResult (py "http") [] (py "a") (py "x=1") (py "f")))
  = Ok (mkSplitResult (py "http") [] (py "/a") (py "x=1") (py "f"))
  /\ urlsplit no_table no_table
              (urlunsplit (mkSplitResult [] [] (py "<a>") [] []))
     = Ok (mkSplitResult [] [] (py "<a>") [] []).
Proof.
  split.
  - apply (@written_parts_split_back no_table no_table
             (mkSplitResult (py "http") [] (py "a") (py "x=1") (py "f")));
      [|vm_compute; reflexivity].
    constructor; cbn [scheme netloc path query fragment];
      try (vm_compute; reflexivity); try discriminate.
    right. repeat split; vm_compute; reflexivity.
  - apply (@written_parts_split_back no_table no_table
             (mkSplitResult [] [] (py "<a>") [] []));
      [|vm_compute; reflexivity].
    constructor; cbn [scheme netloc path query fragment];
      try (vm_compute; reflexivity); try (intros; vm_compute; reflexivity).
    left. reflexivity.
Defined.

(** Witness of [query_dictionary_gathers_the_pairs]: a repeated key. *)
Lemma query_dictionary_gathers_the_pairs_witness :
  exists r d,
    run "http://h/?a=1&a=2&b=3" = Ok r
    /\ get "query" r = Some (PyDict d)
    /\ (NoDup (map fst d)
        /\ Forall (fun kv => snd kv <> []) d
        /\ exists l,
             get "query_list" r = Some (PyPairs l)
             /\ length (concat (map snd d)) = length l).
Proof.
  eexists. eexists. split; [vm_compute; reflexivity|].
  split; [vm_compute; reflexivity|].
  apply (@query_dictionary_gathers_the_pairs no_table no_table
           (py "http://h/?a=1&a=2&b=3") false false);
    vm_compute; reflexivity.
Defined.


(** Witness of [hostname_of_a_plain_netloc]: upper-case letters and a
    port. *)
Lemma hostname_of_a_plain_netloc_witness :
  exists r,
    run "http://Example.COM:80/" = Ok r
    /\ get "hostname" r
       = Some (str_or_None
                 (Str.ascii_lower
                    (fst (fst (Str.partition COLON (py "Example.COM:80")))))).
Proof.
  eexists. split; [vm_compute; reflexivity|].
  apply (@hostname_of_a_plain_netloc no_table no_table
           (py "http://Example.COM:80/") false false);
    vm_compute; reflexivity.
Defined.
